(** * Analyzer: ingestion, rollup, analytics helpers and billing webhook

    A shallow embedding of the parts of the marketing-analytics application
    that its specification makes claims about:

    - [Store]      the [campaign_data] table, the query-then-branch upsert and
                   the "overall" rollup (src/models/campaign_data.py,
                   src/routes/integration.py);
    - [Normalizer] the breakdown normalisation of both fetchers;
    - [Fetch]      the Google Ads and Meta Ads fetch routes, with the
                   SQLAlchemy session (pending vs. committed rows);
    - [Billing]    the Stripe webhook handler (src/routes/billing.py);
    - [PyFloat]    Python's binary64 numbers, [round] and JSON values;
    - [Anomaly], [Budget], [Movers]  the analytics helpers
                   (src/routes/ai_insights.py, src/routes/optimization.py);
    - [Trend], [SpendAnomalies]  the trend helper and the spend-anomaly
                   endpoint (src/routes/ai_insights.py).

    Conventions.  Dates are proleptic Gregorian ordinals ([Z]), instants are
    POSIX timestamps ([Z]).  Python [float]s are the kernel's binary64 floats
    wherever a result is computed from them. *)

From Stdlib Require Import ZArith QArith Qabs Qfield Floats Ascii String Lia.
From stdpp Require Import base decidable option list sorting strings pretty gmap.

#[local] Set Warnings "-register-all,-inexact-float,-clear-no-such-hyp".

Local Open Scope Z_scope.

(* ====================================================================== *)
(** ** Python strings *)
(* ====================================================================== *)

Module PyStr.

(** Python's [needle in s] on strings. *)
Fixpoint contains (needle s : string) : bool :=
  if String.prefix needle s then true
  else match s with
       | EmptyString => false
       | String _ s' => contains needle s'
       end.

(** [s.split('/')[-1]]: what follows the last slash, all of [s] without one. *)
Fixpoint last_segment (s : string) : string :=
  match s with
  | EmptyString => EmptyString
  | String ch s' =>
      if contains "/" s' then last_segment s'
      else if Ascii.eqb ch "/"%char then s' else s
  end.

(** [str.lower()] on the ASCII letters. *)
Definition lower_ascii (ch : Ascii.ascii) : Ascii.ascii :=
  let n := Ascii.nat_of_ascii ch in
  if (Nat.leb 65 n && Nat.leb n 90)%bool then Ascii.ascii_of_nat (n + 32) else ch.

Fixpoint lower (s : string) : string :=
  match s with
  | EmptyString => EmptyString
  | String ch s' => String (lower_ascii ch) (lower s')
  end.

(** Truthiness of an optional string: [None] and the empty string are
    falsy. *)
Definition truthy_str (o : option string) : option string :=
  match o with
  | Some s => if String.eqb s "" then None else Some s
  | None => None
  end.

End PyStr.

(* ====================================================================== *)
(** ** The campaign fact table *)
(* ====================================================================== *)

Module Store.

(** [PlatformNameEnum] of src/models/ad_platform_integration.py. *)
Inductive PlatformNameEnum := GOOGLE_ADS | META_ADS.

#[global] Instance PlatformNameEnum_eq_dec : EqDecision PlatformNameEnum.
Proof. solve_decision. Defined.

(** One row of [campaign_data].  The surrogate primary key is left out: no
    code path reads it.  [spend] is the value handed to the ORM; coercion to
    the column type NUMERIC(10,2) is the database's business. *)
Record CampaignData := mkCampaignData {
  integration_id : Z;
  platform : PlatformNameEnum;
  campaign_id_platform : string;
  campaign_name_platform : string;
  date : Z;
  breakdown_type : string;
  breakdown_value : string;
  impressions : Z;
  clicks : Z;
  spend : Q;
  conversions : Z;
  created_at : Z;
  updated_at : Z
}.

Abbreviation table := (list CampaignData).

(** The six columns every [filter_by(...)] of the fetchers fixes. *)
Definition fact_key : Type := Z * PlatformNameEnum * string * Z * string * string.

Definition key_of (r : CampaignData) : fact_key :=
  (integration_id r, platform r, campaign_id_platform r, date r,
   breakdown_type r, breakdown_value r).

(** [CampaignData.query.filter_by(...).first()]: the first matching row and
    its position. *)
Definition query_first (k : fact_key) (t : table) : option (nat * CampaignData) :=
  list_find (λ r, key_of r = k) t.

(** The [if existing_entry: ... else: ...] block that follows each lookup. *)
Definition overwrite (name : string) (imp clk : Z) (sp : Q) (conv : Z) (now : Z)
    (r : CampaignData) : CampaignData :=
  {| integration_id := integration_id r;
     platform := platform r;
     campaign_id_platform := campaign_id_platform r;
     campaign_name_platform := name;
     date := date r;
     breakdown_type := breakdown_type r;
     breakdown_value := breakdown_value r;
     impressions := imp;
     clicks := clk;
     spend := sp;
     conversions := conv;
     created_at := created_at r;
     updated_at := now |}.

Definition fresh (k : fact_key) (name : string) (imp clk : Z) (sp : Q) (conv : Z)
    (now : Z) : CampaignData :=
  let '(i, p, c, d, bt, bv) := k in
  {| integration_id := i;
     platform := p;
     campaign_id_platform := c;
     campaign_name_platform := name;
     date := d;
     breakdown_type := bt;
     breakdown_value := bv;
     impressions := imp;
     clicks := clk;
     spend := sp;
     conversions := conv;
     created_at := now;
     updated_at := now |}.

Definition upsert (i : Z) (p : PlatformNameEnum) (c name : string) (d : Z)
    (bt bv : string) (imp clk : Z) (sp : Q) (conv : Z) (now : Z)
    (t : table) : table :=
  match query_first (i, p, c, d, bt, bv) t with
  | Some (pos, existing_entry) =>
      <[pos := overwrite name imp clk sp conv now existing_entry]> t
  | None => t ++ [fresh (i, p, c, d, bt, bv) name imp clk sp conv now]
  end.

(** The unique constraint [uq_campaign_daily_breakdown_metric], read on the
    columns the lookups use. *)
Definition unique_keys (t : table) : Prop := NoDup (key_of <$> t).

(** The rows stored under a key. *)
Definition rows_of (k : fact_key) (t : table) : list CampaignData :=
  filter (λ r, key_of r = k) t.

(** The row holds the values of a call. *)
Definition carries (name : string) (imp clk : Z) (sp : Q) (conv : Z)
    (r : CampaignData) : Prop :=
  campaign_name_platform r = name ∧ impressions r = imp ∧ clicks r = clk
  ∧ spend r = sp ∧ conversions r = conv.

(** A row without its update stamp: what "the same state" compares. *)
Definition forget_stamp (r : CampaignData) : CampaignData :=
  overwrite (campaign_name_platform r) (impressions r) (clicks r) (spend r)
            (conversions r) 0 r.

(** [upsert] called once per clock reading in [nows], same arguments. *)
Definition upsert_repeat (i : Z) (p : PlatformNameEnum) (c name : string) (d : Z)
    (bt bv : string) (imp clk : Z) (sp : Q) (conv : Z) (nows : list Z)
    (t : table) : table :=
  foldl (λ acc now, upsert i p c name d bt bv imp clk sp conv now acc) t nows.

(** *** The overall rollup (Step 12 of the Google route, Step 7 of the Meta
    route; the two blocks differ only in the platform constant). *)

(** The rows the [filter_by] of the summing query selects. *)
Definition device_facts (i : Z) (p : PlatformNameEnum) (c : string) (d : Z)
    (t : table) : list CampaignData :=
  filter (λ r, integration_id r = i ∧ campaign_id_platform r = c ∧ date r = d
               ∧ breakdown_type r = "device" ∧ platform r = p) t.

(** The rows under the key of the synthetic rollup fact. *)
Definition overall_facts (i : Z) (p : PlatformNameEnum) (c : string) (d : Z)
    (t : table) : list CampaignData :=
  rows_of (i, p, c, d, "overall", "N/A") t.

Definition total (f : CampaignData → Z) (l : list CampaignData) : Z :=
  foldr (λ r acc, f r + acc) 0 l.

Definition total_spend_of (l : list CampaignData) : Q :=
  foldr (λ r acc, Qplus (spend r) acc) (0#1) l.

(** SQL [SUM] over the selected rows: NULL when there is none. *)
Definition func_sum (f : CampaignData → Z) (l : list CampaignData) : option Z :=
  match l with [] => None | _ => Some (total f l) end.

Definition func_sum_spend (l : list CampaignData) : option Q :=
  match l with [] => None | _ => Some (total_spend_of l) end.

(** One iteration of the [for camp_id, date_obj, camp_name in ...] loop. *)
Definition recompute_overall (i : Z) (p : PlatformNameEnum) (now : Z)
    (entry : string * Z * string) (t : table) : table :=
  let '(camp_id, date_obj, camp_name) := entry in
  let rows := device_facts i p camp_id date_obj t in
  match func_sum impressions rows with
  | None => t
  | Some total_impressions =>
      upsert i p camp_id camp_name date_obj "overall" "N/A"
        total_impressions
        (default 0 (func_sum clicks rows))
        (default (0#1) (func_sum_spend rows))
        (default 0 (func_sum conversions rows))
        now t
  end.

(** The invariant of the data model: a key with device facts has exactly one
    overall fact, which carries their sums. *)
Definition rollup_ok (i : Z) (p : PlatformNameEnum) (c : string) (d : Z)
    (t : table) : Prop :=
  device_facts i p c d t ≠ [] →
  ∃ o, overall_facts i p c d t = [o]
       ∧ impressions o = total impressions (device_facts i p c d t)
       ∧ clicks o = total clicks (device_facts i p c d t)
       ∧ spend o = total_spend_of (device_facts i p c d t)
       ∧ conversions o = total conversions (device_facts i p c d t).

Definition rollup_invariant (t : table) : Prop :=
  ∀ i p c d, rollup_ok i p c d t.

End Store.

(* ====================================================================== *)
(** ** Breakdown normalisation *)
(* ====================================================================== *)

Module Normalizer.
Import PyStr.

(** Members of the Google Ads enums the route compares against (the enums
    are the vendor SDK's; the route names only the mapped members). *)
Inductive Device :=
  | DEVICE_UNSPECIFIED | DEVICE_UNKNOWN | MOBILE | TABLET | DESKTOP
  | CONNECTED_TV | DEVICE_OTHER.

Inductive AgeRangeType :=
  | AGE_RANGE_UNSPECIFIED | AGE_RANGE_UNKNOWN
  | AGE_RANGE_18_24 | AGE_RANGE_25_34 | AGE_RANGE_35_44 | AGE_RANGE_45_54
  | AGE_RANGE_55_64 | AGE_RANGE_65_UP | AGE_RANGE_UNDETERMINED.

Inductive GenderType :=
  | GENDER_UNSPECIFIED | GENDER_UNKNOWN | MALE | FEMALE | UNDETERMINED.

(** *** Google Ads (Step 9 of [google_ads_fetch_data]) *)

Definition google_device (device_enum_val : Device) : string :=
  match device_enum_val with
  | MOBILE => "mobile"
  | DESKTOP => "desktop"
  | TABLET => "tablet"
  | CONNECTED_TV => "connected_tv"
  | _ => "unknown"
  end.

Definition google_country (country_resource_name : string) : string :=
  if (negb (String.eqb country_resource_name "")
      && contains "countries/" country_resource_name)%bool
  then last_segment country_resource_name
  else "unknown".

(** Only three buckets are mapped in the route. *)
Definition google_age (age_range_enum : AgeRangeType) : string :=
  match age_range_enum with
  | AGE_RANGE_18_24 => "18-24"
  | AGE_RANGE_25_34 => "25-34"
  | AGE_RANGE_65_UP => "65+"
  | _ => "unknown"
  end.

Definition google_gender (gender_enum : GenderType) : string :=
  match gender_enum with
  | FEMALE => "female"
  | MALE => "male"
  | UNDETERMINED => "undetermined"
  | _ => "unknown"
  end.

(** *** Meta Ads ([_process_and_store_meta_breakdown])

    [field] is [item.get(api_breakdown_field_name)]: [None] when the key is
    absent.  Only the [device] dimension is rewritten. *)
Definition meta_breakdown_value (breakdown_type_str : string)
    (field : option string) : string :=
  let breakdown_value := default "unknown" field in
  if String.eqb breakdown_type_str "device" then
    if contains "mobile" (lower breakdown_value) then "mobile"
    else if contains "desktop" (lower breakdown_value) then "desktop"
    else if contains "tablet" (lower breakdown_value) then "tablet"
    else breakdown_value
  else breakdown_value.

(** *** The canonical vocabularies of the specification *)

Inductive dimension := Dim_device | Dim_country | Dim_age_range | Dim_gender.

Definition dimension_name (dim : dimension) : string :=
  match dim with
  | Dim_device => "device"
  | Dim_country => "country"
  | Dim_age_range => "age_range"
  | Dim_gender => "gender"
  end.

Definition canonical_device : list string :=
  ["mobile"; "desktop"; "tablet"; "connected_tv"; "unknown"].

Definition canonical_gender : list string :=
  ["male"; "female"; "undetermined"; "unknown"].

(** Modelled from the spec: the specification speaks of seven fixed age
    buckets and names two of them ("18-24", "65+"); the list below takes the
    seven non-placeholder members of the vendor's age enum. *)
Definition canonical_age : list string :=
  ["18-24"; "25-34"; "35-44"; "45-54"; "55-64"; "65+"; "undetermined"; "unknown"].

(** Modelled from the spec: an ISO 3166 alpha-2 country code, two capital
    letters. *)
Definition is_upper (ch : Ascii.ascii) : bool :=
  let n := Ascii.nat_of_ascii ch in (Nat.leb 65 n && Nat.leb n 90)%bool.

Definition iso_country_code (s : string) : bool :=
  match s with
  | String a (String b EmptyString) => (is_upper a && is_upper b)%bool
  | _ => false
  end.

Definition canonical (dim : dimension) (v : string) : Prop :=
  match dim with
  | Dim_device => v ∈ canonical_device
  | Dim_gender => v ∈ canonical_gender
  | Dim_age_range => v ∈ canonical_age
  | Dim_country => iso_country_code v = true ∨ v = "unknown"
  end.

End Normalizer.

(* ====================================================================== *)
(** ** The fetch routes *)
(* ====================================================================== *)

Module Fetch.
Import PyStr Store Normalizer.

(** *** The database session

    Queries run against [pending] (the session flushes before each query);
    [committed] is what the database keeps when the request ends. *)
Record session := mkSession { committed : table; pending : table }.

Definition begin (t : table) : session := {| committed := t; pending := t |}.

Definition rollback (s : session) : session :=
  {| committed := committed s; pending := committed s |}.

(** [try: db.session.commit() except Exception: db.session.rollback()];
    [ok] says whether the database accepts the commit. *)
Definition try_commit (ok : bool) (s : session) : session :=
  if ok then {| committed := pending s; pending := pending s |} else rollback s.

Definition on_pending (f : table → table) (s : session) : session :=
  {| committed := committed s; pending := f (pending s) |}.

(** A (campaign id, date, campaign name) triple of the [processed_*] sets. *)
Definition campaign_date : Type := string * Z * string.

(** The rollup loop over the set, in the order the set yields its members. *)
Definition recompute_all (i : Z) (p : PlatformNameEnum) (now : Z)
    (processed : gset campaign_date) (t : table) : table :=
  foldl (λ acc entry, recompute_overall i p now entry acc) t (elements processed).

(** What a run in progress may have changed: the device facts of the
    (campaign, date) pairs it has seen for its own integration, and no
    overall fact. *)
Definition touched (T : gset campaign_date) (i : Z) (p : PlatformNameEnum)
    (i' : Z) (p' : PlatformNameEnum) (c : string) (d : Z) : Prop :=
  i' = i ∧ p' = p ∧ ∃ nm, (c, d, nm) ∈ T.

Definition frame (T : gset campaign_date) (i : Z) (p : PlatformNameEnum)
    (t0 t : table) : Prop :=
  unique_keys t
  ∧ (∀ i' p' c d, overall_facts i' p' c d t = overall_facts i' p' c d t0)
  ∧ (∀ i' p' c d, ¬ touched T i p i' p' c d →
                  device_facts i' p' c d t = device_facts i' p' c d t0).

Definition session_frame (T : gset campaign_date) (i : Z) (p : PlatformNameEnum)
    (t0 : table) (s : session) : Prop :=
  frame T i p t0 (pending s) ∧ frame T i p t0 (committed s).

(** No overall fact appears or changes under a key that has no device
    fact. *)
Definition no_rollup_without_device (t0 t : table) : Prop :=
  ∀ i p c d, device_facts i p c d t = [] →
             overall_facts i p c d t = overall_facts i p c d t0.

(** *** Dates

    [date.fromordinal] and [date.isoformat] of the standard library. *)
Definition days_before_month (month : Z) : Z :=
  match month with
  | 1 => 0 | 2 => 31 | 3 => 59 | 4 => 90 | 5 => 120 | 6 => 151 | 7 => 181
  | 8 => 212 | 9 => 243 | 10 => 273 | 11 => 304 | _ => 334
  end.

Definition days_in_month (month : Z) : Z :=
  match month with
  | 2 => 28
  | 4 | 6 | 9 | 11 => 30
  | _ => 31
  end.

Definition ord2ymd (ordinal : Z) : Z * Z * Z :=
  let n := ordinal - 1 in
  let n400 := n / 146097 in
  let n := n mod 146097 in
  let n100 := n / 36524 in
  let n := n mod 36524 in
  let n4 := n / 1461 in
  let n := n mod 1461 in
  let n1 := n / 365 in
  let n := n mod 365 in
  let year := n400 * 400 + 1 + n100 * 100 + n4 * 4 + n1 in
  if ((n1 =? 4) || (n100 =? 4))%bool then (year - 1, 12, 31)
  else
    let leapyear := ((n1 =? 3) && (negb (n4 =? 24) || (n100 =? 3)))%bool in
    let month := Z.shiftr (n + 50) 5 in
    let preceding :=
      days_before_month month + (if ((2 <? month) && leapyear)%bool then 1 else 0) in
    if n <? preceding then
      let month := month - 1 in
      let preceding :=
        preceding - (days_in_month month
                     + (if ((month =? 2) && leapyear)%bool then 1 else 0)) in
      (year, month, n - preceding + 1)
    else (year, month, n - preceding + 1).

(** Decimal digits, left-padded with zeros to [width]. *)
Definition zero_padded (width : nat) (z : Z) : string :=
  let digits := pretty z in
  String.concat "" (replicate (width - String.length digits) "0") +:+ digits.

Definition isoformat (ordinal : Z) : string :=
  let '(year, month, day) := ord2ymd ordinal in
  zero_padded 4 year +:+ "-" +:+ zero_padded 2 month +:+ "-" +:+ zero_padded 2 day.

(** *** The trailing window (Step 6 of the Google route, Step 3 of the Meta
    route): both bounds are sent to the vendor, which reads them as an
    inclusive range ([BETWEEN ... AND ...], [since]/[until]). *)
Record date_range := mkRange { start_date : Z; end_date : Z }.

(** The Google route reads the clock twice: [date.today()] for
    [end_date_str], then [date.today()] again for [start_date_str]. *)
Definition google_date_range (today_at_end today_at_start : Z) : date_range :=
  let end_date_ := today_at_end in
  let start_date_ := today_at_start - 7 in
  {| start_date := start_date_; end_date := end_date_ |}.

Definition meta_date_range (utc_today : Z) : date_range :=
  let end_date_dt := utc_today in
  let start_date_dt := end_date_dt - 7 in
  {| start_date := start_date_dt; end_date := end_date_dt |}.

(** The two literals the request carries, [start_date_str] and
    [end_date_str]. *)
Definition range_text (w : date_range) : string * string :=
  (isoformat (start_date w), isoformat (end_date w)).

Definition covers (w : date_range) (d : Z) : Prop :=
  start_date w ≤ d ∧ d ≤ end_date w.

(** The dates of an inclusive range, in order. *)
Definition days_of (w : date_range) : list Z :=
  (λ k, start_date w + Z.of_nat k) <$> seq 0 (Z.to_nat (end_date w - start_date w + 1)).

(** What the specification asks for: the seven days before [today]. *)
Definition seven_days_before (today : Z) : list Z :=
  (λ k, today - 7 + Z.of_nat k) <$> seq 0 7.

(** The eight dates from [today - 7] to [today]. *)
Definition eight_days_to (today : Z) : list Z :=
  (λ k, today - 7 + Z.of_nat k) <$> seq 0 8.

(** *** Google Ads *)

Record GoogleRow := mkGoogleRow {
  campaign_id : Z;
  campaign_name : string;
  metrics_date : Z;
  segments_device : Device;
  segments_geo_target_country : string;
  segments_age_range_type : AgeRangeType;
  segments_gender_type : GenderType;
  metrics_impressions : Z;
  metrics_clicks : Z;
  metrics_cost_micros : Z;
  metrics_conversions : Q
}.

(** [int(x)] on a non-integral number: truncation towards zero. *)
Definition int_of (x : Q) : Z := Z.quot (Qnum x) (Z.pos (Qden x)).

(** Steps 9 and 10 for one row: four upserts carrying the same metrics.
    The spend is the quotient as a rational: the rounding of the float
    division and of the two-decimal column is not modelled. *)
Definition store_google_row (integration : Z) (now : Z) (row : GoogleRow)
    (t : table) : table :=
  let campaign_id_str := pretty (campaign_id row) in
  let campaign_name_str := campaign_name row in
  let entry_date_obj := metrics_date row in
  let device_value_normalized := google_device (segments_device row) in
  let parsed_country_code := google_country (segments_geo_target_country row) in
  let age_value_normalized := google_age (segments_age_range_type row) in
  let gender_value_normalized := google_gender (segments_gender_type row) in
  let cost_actual_val := (metrics_cost_micros row # 1000000)%Q in
  let impressions_val := metrics_impressions row in
  let clicks_val := metrics_clicks row in
  let conversions_val := int_of (metrics_conversions row) in
  let put bt bv :=
    upsert integration GOOGLE_ADS campaign_id_str campaign_name_str entry_date_obj
           bt bv impressions_val clicks_val cost_actual_val conversions_val now in
  put "gender" gender_value_normalized
    (put "age_range" age_value_normalized
       (put "country" parsed_country_code
          (put "device" device_value_normalized t))).

Definition google_entry (row : GoogleRow) : campaign_date :=
  (pretty (campaign_id row), metrics_date row, campaign_name row).

(** The state the batch loop threads: [row_count] is the loop variable of
    [enumerate(batch.results)], unbound until a first row was seen. *)
Record google_loop := mkGoogleLoop {
  sess : session;
  processed_campaign_dates : gset campaign_date;
  row_count : option nat
}.

Definition google_row_step (integration : Z) (now : Z) (st : google_loop)
    (indexed : nat * GoogleRow) : google_loop :=
  {| sess := on_pending (store_google_row integration now indexed.2) (sess st);
     processed_campaign_dates := {[ google_entry indexed.2 ]} ∪ processed_campaign_dates st;
     row_count := Some indexed.1 |}.

(** What the response stream yields: a batch (with the fate of the commit
    that may follow it) or the vendor's error. *)
Inductive stream_event :=
  | Batch (results : list GoogleRow) (commit_ok : bool)
  | GoogleAdsException.

Inductive google_abort := Vendor_error | Unbound_row_count.

Fixpoint google_batches (integration : Z) (now : Z) (events : list stream_event)
    (st : google_loop) : google_loop * option google_abort :=
  match events with
  | [] => (st, None)
  | GoogleAdsException :: _ => (st, Some Vendor_error)
  | Batch results commit_ok :: rest =>
      let st1 := foldl (google_row_step integration now) st (imap pair results) in
      match row_count st1 with
      | None => (st1, Some Unbound_row_count)
      | Some n =>
          let st2 :=
            if (0 <? n)%nat
            then {| sess := try_commit commit_ok (sess st1);
                    processed_campaign_dates := processed_campaign_dates st1;
                    row_count := row_count st1 |}
            else st1 in
          google_batches integration now rest st2
      end
  end.

Inductive google_status :=
  | Google_saved              (* the success flash *)
  | Google_overall_not_saved  (* the final commit failed *)
  | Google_api_error          (* [except GoogleAdsException] *)
  | Google_unexpected_error.  (* [except Exception] *)

Record google_result := mkGoogleResult {
  google_stored : table;
  google_flash : google_status
}.

(** [google_ads_fetch_data] from Step 8 on, for an active integration with
    its credentials in place.  The table returned is what the database holds
    once the request has ended. *)
Definition google_ads_fetch_data (integration : Z) (now : Z)
    (events : list stream_event) (overall_commit_ok : bool)
    (t : table) : google_result :=
  let st0 := {| sess := begin t; processed_campaign_dates := ∅; row_count := None |} in
  match google_batches integration now events st0 with
  | (st, Some Vendor_error) =>
      {| google_stored := committed (sess st); google_flash := Google_api_error |}
  | (st, Some Unbound_row_count) =>
      {| google_stored := committed (rollback (sess st));
         google_flash := Google_unexpected_error |}
  | (st, None) =>
      let s := on_pending (recompute_all integration GOOGLE_ADS now
                             (processed_campaign_dates st)) (sess st) in
      {| google_stored := committed (try_commit overall_commit_ok s);
         google_flash := if overall_commit_ok then Google_saved
                         else Google_overall_not_saved |}
  end.

(** *** Meta Ads *)

Record MetaAction := mkMetaAction { action_type : string; action_value : Z }.

(** One element of the [data] list of an Insights response.  A field read
    with [item[...]] is [None] when reading it raises (a missing key, a date
    text [strptime] rejects); a field read with [item.get(...)] is [None]
    when the key is absent. *)
Record MetaItem := mkMetaItem {
  item_campaign_id : option string;
  item_campaign_name : option string;
  item_date_start : option Z;
  item_breakdowns : gmap string string;
  item_impressions : option Z;
  item_clicks : option Z;
  item_spend : option Q;
  item_actions : option (list MetaAction)
}.

Definition is_purchase (action_type : string) : bool :=
  (contains "purchase" action_type
   || contains "offsite_conversion.fb_pixel_purchase" action_type
   || contains "omni_purchase" action_type
   || contains "website_purchase" action_type)%bool.

Definition count_conversions (item : MetaItem) : Z :=
  foldl (λ num_conversions action,
           if is_purchase (action_type action)
           then num_conversions + action_value action
           else num_conversions)
        0 (default [] (item_actions item)).

Definition default_campaign_name (campaign_id : string) : string :=
  "Campaign " +:+ campaign_id.

(** The body of the [for item in api_response_data] loop; [None] when it
    raises. *)
Definition store_meta_item (integration : Z) (now : Z)
    (breakdown_type_str api_breakdown_field_name : string)
    (item : MetaItem) (t : table) : option table :=
  campaign_id ← item_campaign_id item;
  let campaign_name :=
    default (default_campaign_name campaign_id) (item_campaign_name item) in
  entry_date_obj ← item_date_start item;
  let breakdown_value :=
    meta_breakdown_value breakdown_type_str
      (item_breakdowns item !! api_breakdown_field_name) in
  let impressions_val := default 0 (item_impressions item) in
  let clicks_val := default 0 (item_clicks item) in
  let spend_val := default (0#1)%Q (item_spend item) in
  let num_conversions := count_conversions item in
  Some (upsert integration META_ADS campaign_id campaign_name entry_date_obj
          breakdown_type_str breakdown_value
          impressions_val clicks_val spend_val num_conversions now t).

Fixpoint store_meta_items (integration : Z) (now : Z)
    (breakdown_type_str api_breakdown_field_name : string)
    (items : list MetaItem) (t : table) : option table :=
  match items with
  | [] => Some t
  | item :: rest =>
      t' ← store_meta_item integration now breakdown_type_str
             api_breakdown_field_name item t;
      store_meta_items integration now breakdown_type_str
        api_breakdown_field_name rest t'
  end.

(** [_process_and_store_meta_breakdown]: the flag it returns and the table
    it leaves, or [None] when it raises. *)
Definition _process_and_store_meta_breakdown (integration : Z) (now : Z)
    (api_response_data : option (list MetaItem))
    (breakdown_type_str api_breakdown_field_name : string)
    (t : table) : option (bool * table) :=
  match api_response_data with
  | None => Some (false, t)
  | Some [] => Some (true, t)
  | Some items =>
      t' ← store_meta_items integration now breakdown_type_str
             api_breakdown_field_name items t;
      Some (true, t')
  end.

Record breakdown_config := mkConfig {
  config_name : string;
  api_param : string;
  db_type : string
}.

Definition breakdown_configs : list breakdown_config :=
  [ {| config_name := "device"; api_param := "device_platform"; db_type := "device" |};
    {| config_name := "country"; api_param := "country"; db_type := "country" |};
    {| config_name := "age"; api_param := "age"; db_type := "age_range" |};
    {| config_name := "gender"; api_param := "gender"; db_type := "gender" |} ].

(** What one Insights call comes back with: a request error, or the [data]
    member of the JSON body ([None] for a JSON null) with the fate of the
    commit that follows. *)
Inductive meta_reply :=
  | RequestException
  | Reply (data : option (list MetaItem)) (commit_ok : bool).

Definition meta_entry (item : MetaItem) : option campaign_date :=
  campaign_id ← item_campaign_id item;
  entry_date_obj ← item_date_start item;
  Some (campaign_id, entry_date_obj,
        default (default_campaign_name campaign_id) (item_campaign_name item)).

Record meta_loop := mkMetaLoop {
  meta_sess : session;
  processed_overall_campaign_dates : gset campaign_date;
  all_fetches_successful : bool
}.

(** One turn of the [for config in breakdown_configs] loop (Step 6). *)
Definition meta_config_step (integration : Z) (now : Z)
    (api : string → meta_reply) (st : meta_loop) (config : breakdown_config)
    : meta_loop :=
  match api (api_param config) with
  | RequestException =>
      {| meta_sess := meta_sess st;
         processed_overall_campaign_dates := processed_overall_campaign_dates st;
         all_fetches_successful := false |}
  | Reply api_data_list commit_ok =>
      match _process_and_store_meta_breakdown integration now api_data_list
              (db_type config) (api_param config) (pending (meta_sess st)) with
      | None =>
          {| meta_sess := rollback (meta_sess st);
             processed_overall_campaign_dates := processed_overall_campaign_dates st;
             all_fetches_successful := false |}
      | Some (false, _) => st
      | Some (true, t') =>
          let s := on_pending (λ _, t') (meta_sess st) in
          if commit_ok then
            {| meta_sess := try_commit true s;
               processed_overall_campaign_dates :=
                 if String.eqb (config_name config) "device"
                 then list_to_set (omap meta_entry (default [] api_data_list))
                      ∪ processed_overall_campaign_dates st
                 else processed_overall_campaign_dates st;
               all_fetches_successful := all_fetches_successful st |}
          else
            {| meta_sess := try_commit false s;
               processed_overall_campaign_dates := processed_overall_campaign_dates st;
               all_fetches_successful := false |}
      end
  end.

Inductive meta_status :=
  | Meta_saved                (* success flash: every breakdown went through *)
  | Meta_saved_with_issues    (* warning flash *)
  | Meta_overall_not_saved    (* the final commit failed *)
  | Meta_no_device_data       (* info flash *)
  | Meta_issues.              (* danger flash *)

Record meta_result := mkMetaResult {
  meta_stored : table;
  meta_flash : meta_status
}.

(** [meta_ads_fetch_data] from Step 4 on, for an active integration with an
    ad account and an access token. *)
Definition meta_ads_fetch_data (integration : Z) (now : Z)
    (api : string → meta_reply) (overall_commit_ok : bool)
    (t : table) : meta_result :=
  let st0 := {| meta_sess := begin t;
                processed_overall_campaign_dates := ∅;
                all_fetches_successful := true |} in
  let st := foldl (meta_config_step integration now api) st0 breakdown_configs in
  if decide (processed_overall_campaign_dates st = ∅) then
    {| meta_stored := committed (meta_sess st);
       meta_flash := if all_fetches_successful st then Meta_no_device_data
                     else Meta_issues |}
  else
    let s := on_pending (recompute_all integration META_ADS now
                           (processed_overall_campaign_dates st)) (meta_sess st) in
    {| meta_stored := committed (try_commit overall_commit_ok s);
       meta_flash := if overall_commit_ok
                     then (if all_fetches_successful st then Meta_saved
                           else Meta_saved_with_issues)
                     else Meta_overall_not_saved |}.

End Fetch.

(* ====================================================================== *)
(** ** The billing webhook *)
(* ====================================================================== *)

Module Billing.
Import PyStr.

(** [SubscriptionStatusEnum] of src/models/user_subscription.py. *)
Inductive SubscriptionStatusEnum :=
  | ACTIVE | CANCELLED | PAST_DUE | TRIALING
  | INCOMPLETE | INCOMPLETE_EXPIRED | UNPAID.

#[global] Instance SubscriptionStatusEnum_eq_dec : EqDecision SubscriptionStatusEnum.
Proof. solve_decision. Defined.

(** [mapping.get(stripe_status_str.lower(), None)]. *)
Definition from_stripe_status (stripe_status_str : string)
    : option SubscriptionStatusEnum :=
  let s := PyStr.lower stripe_status_str in
  if String.eqb s "active" then Some ACTIVE
  else if String.eqb s "trialing" then Some TRIALING
  else if String.eqb s "past_due" then Some PAST_DUE
  else if String.eqb s "canceled" then Some CANCELLED
  else if String.eqb s "unpaid" then Some UNPAID
  else if String.eqb s "incomplete" then Some INCOMPLETE
  else if String.eqb s "incomplete_expired" then Some INCOMPLETE_EXPIRED
  else None.

Record User := mkUser {
  user_pk : Z;
  user_stripe_customer_id : option string
}.

Record SubscriptionPlan := mkPlan {
  plan_pk : Z;
  plan_stripe_price_id : option string
}.

Record UserSubscription := mkUserSubscription {
  user_id : Z;
  plan_id : Z;
  start_date : Z;
  end_date : option Z;
  status : SubscriptionStatusEnum;
  stripe_subscription_id : option string
}.

(** The attributes the mapped class [UserSubscription] has: its columns, its
    [plan] relationship and the [user] backref of [User.subscriptions]. *)
Definition UserSubscription_attributes : list string :=
  ["id"; "user_id"; "plan_id"; "start_date"; "end_date"; "status";
   "stripe_subscription_id"; "created_at"; "updated_at"; "plan"; "user"].

(** The declarative constructor: a keyword that names no attribute of the
    class is a [TypeError] ([None]). *)
Definition new_UserSubscription (keywords : list string)
    (row : UserSubscription) : option UserSubscription :=
  if forallb (λ k, bool_decide (k ∈ UserSubscription_attributes)) keywords
  then Some row else None.

Record database := mkDatabase {
  users : list User;
  plans : list SubscriptionPlan;
  subscriptions : list UserSubscription
}.

(** *** Provider payloads *)

Record CheckoutSession := mkCheckoutSession {
  client_reference_id : option Z;
  session_subscription : option string;
  session_customer : option string
}.

(** How reading the first price of [items] ends: the key is absent or its
    list empty, the attribute access raises, or a price id comes out. *)
Inductive items_field :=
  | Items_absent
  | Items_unreadable
  | Items_price (price_id : string).

Record StripeSubscription := mkStripeSubscription {
  sub_id : string;
  cancel_at_period_end : option bool;
  ended_at : option Z;
  cancel_at : option Z;
  current_period_end : Z;
  sub_start_date : Z;
  trial_end : option Z;
  sub_items : items_field;
  sub_status : option string
}.

Record Invoice := mkInvoice {
  invoice_subscription : option string;
  billing_reason : string
}.

Inductive stripe_event :=
  | checkout_session_completed (session : CheckoutSession)
  | invoice_payment_succeeded (invoice : Invoice)
  | customer_subscription_deleted (subscription_data : StripeSubscription)
  | customer_subscription_updated (subscription_data : StripeSubscription)
  | invoice_payment_failed (invoice : Invoice)
  | unhandled_event (event_type : string).

(** What the Stripe API and the database answer during one request. *)
Inductive line_items_reply :=
  | Line_items_error
  | Line_items (price_ids : list string).

(** How [db.session.commit()] ends. *)
Inductive commit_outcome := Committed | IntegrityError | DatabaseError.

Record environment := mkEnvironment {
  utcnow : Z;
  session_line_items : line_items_reply;
  subscription_retrieve : option StripeSubscription;
  commit_result : commit_outcome
}.

Definition commit_ok (env : environment) : bool :=
  match commit_result env with Committed => true | _ => false end.

Inductive response :=
  | Http (body : string) (code : Z)
  | Unhandled_exception.          (* the framework answers 500 *)

(** Truthiness of an optional timestamp: [None] and 0 are falsy. *)
Definition truthy_ts (o : option Z) : option Z :=
  match o with
  | Some ts => if ts =? 0 then None else Some ts
  | None => None
  end.

Definition find_subscription (stripe_subscription_id_ : string)
    (subs : list UserSubscription) : option (nat * UserSubscription) :=
  list_find (λ s, stripe_subscription_id s = Some stripe_subscription_id_) subs.

Definition set_status (st : SubscriptionStatusEnum) (s : UserSubscription)
    : UserSubscription :=
  {| user_id := user_id s; plan_id := plan_id s; start_date := start_date s;
     end_date := end_date s; status := st;
     stripe_subscription_id := stripe_subscription_id s |}.

Definition set_end_date (e : option Z) (s : UserSubscription) : UserSubscription :=
  {| user_id := user_id s; plan_id := plan_id s; start_date := start_date s;
     end_date := e; status := status s;
     stripe_subscription_id := stripe_subscription_id s |}.

Definition set_plan_id (p : Z) (s : UserSubscription) : UserSubscription :=
  {| user_id := user_id s; plan_id := p; start_date := start_date s;
     end_date := end_date s; status := status s;
     stripe_subscription_id := stripe_subscription_id s |}.

Definition with_subscriptions (subs : list UserSubscription) (db : database)
    : database :=
  {| users := users db; plans := plans db; subscriptions := subs |}.

Definition set_customer (customer : string) (pk : Z) (db : database) : database :=
  {| users := (λ u, if decide (user_pk u = pk)
                    then {| user_pk := pk; user_stripe_customer_id := Some customer |}
                    else u) <$> users db;
     plans := plans db;
     subscriptions := subscriptions db |}.

(** *** [checkout.session.completed] *)

(** The old subscriptions the handler marks cancelled before it builds the
    new one.  The SQL inequality on the nullable provider id selects no row
    whose id is NULL. *)
Definition differs_from (id : string) (stored : option string) : bool :=
  match stored with
  | Some other => bool_decide (other ≠ id)
  | None => false
  end.

Definition cancel_previous (uid : Z) (stripe_subscription_id_ : string)
    (subs : list UserSubscription) : list UserSubscription :=
  (λ old_sub,
     if bool_decide (user_id old_sub = uid)
        && differs_from stripe_subscription_id_ (stripe_subscription_id old_sub)
        && bool_decide (status old_sub ∈ [ACTIVE; TRIALING; PAST_DUE])
     then set_status CANCELLED old_sub else old_sub) <$> subs.

Definition handle_checkout (env : environment) (session : CheckoutSession)
    (db : database) : response * database :=
  match client_reference_id session,
        truthy_str (session_subscription session),
        truthy_str (session_customer session) with
  | Some uid, Some stripe_subscription_id_, Some stripe_customer_id =>
      match list_find (λ u, user_pk u = uid) (users db) with
      | None => (Http ("User " +:+ pretty uid +:+ " not found") 404, db)
      | Some (_, user) =>
          let modified :=
            bool_decide (truthy_str (user_stripe_customer_id user) = None
                         ∨ user_stripe_customer_id user ≠ Some stripe_customer_id) in
          let db1 := if modified then set_customer stripe_customer_id uid db else db in
          match find_subscription stripe_subscription_id_ (subscriptions db1) with
          | Some _ =>
              (Http "Acknowledged: Subscription already processed" 200,
               if (modified && commit_ok env)%bool then db1 else db)
          | None =>
              match session_line_items env with
              | Line_items_error =>
                  (Http "Could not determine stripe_price_id from session" 400, db)
              | Line_items [] => (Http "No line items in session" 400, db)
              | Line_items (stripe_price_id :: _) =>
                  match list_find (λ p, plan_stripe_price_id p = Some stripe_price_id)
                          (plans db1) with
                  | None =>
                      (Http ("SubscriptionPlan with stripe_price_id "
                             +:+ stripe_price_id +:+ " not found") 404, db)
                  | Some (_, subscription_plan) =>
                      let db2 := with_subscriptions
                                   (cancel_previous uid stripe_subscription_id_
                                      (subscriptions db1)) db1 in
                      match subscription_retrieve env with
                      | None =>
                          (Http "Failed to retrieve subscription details from Stripe" 500, db)
                      | Some stripe_sub_data =>
                          let current_period_end_dt := current_period_end stripe_sub_data in
                          let start_date_dt := sub_start_date stripe_sub_data in
                          let trial_end_dt := truthy_ts (trial_end stripe_sub_data) in
                          let in_trial :=
                            match trial_end_dt with
                            | Some te => utcnow env <? te
                            | None => false
                            end in
                          let new_subscription_status :=
                            if in_trial then TRIALING else ACTIVE in
                          let subscription_effective_end_date :=
                            if in_trial then default current_period_end_dt trial_end_dt
                            else current_period_end_dt in
                          match new_UserSubscription
                                  ["user_id"; "plan_id"; "stripe_subscription_id";
                                   "status"; "start_date"; "end_date";
                                   "stripe_customer_id"]
                                  {| user_id := user_pk user;
                                     plan_id := plan_pk subscription_plan;
                                     start_date := start_date_dt;
                                     end_date := Some subscription_effective_end_date;
                                     status := new_subscription_status;
                                     stripe_subscription_id := Some stripe_subscription_id_ |}
                          with
                          | None => (Unhandled_exception, db)
                          | Some new_subscription =>
                              match commit_result env with
                              | Committed =>
                                  (Http "Success" 200,
                                   with_subscriptions
                                     (subscriptions db2 ++ [new_subscription]) db2)
                              | IntegrityError =>
                                  (Http "Database integrity error during subscription creation" 500, db)
                              | DatabaseError =>
                                  (Http "Error creating subscription in database" 500, db)
                              end
                          end
                      end
                  end
              end
          end
      end
  | _, _, _ => (Http "Missing essential IDs in session" 400, db)
  end.

(** *** The other events *)

Definition store_subscription (pos : nat) (s : UserSubscription) (db : database)
    : database :=
  with_subscriptions (<[pos := s]> (subscriptions db)) db.

(** [if changed: try commit ... except: rollback; return 500]. *)
Definition commit_if (changed : bool) (env : environment) (failure : string)
    (db' db : database) : response * database :=
  if changed then
    if commit_ok env then (Http "Success" 200, db') else (Http failure 500, db)
  else (Http "Success" 200, db).

Definition handle_payment_succeeded (env : environment) (invoice : Invoice)
    (db : database) : response * database :=
  match truthy_str (invoice_subscription invoice) with
  | None => (Http "Success" 200, db)
  | Some stripe_subscription_id_ =>
      match find_subscription stripe_subscription_id_ (subscriptions db) with
      | None => (Http "Success" 200, db)
      | Some (pos, user_subscription) =>
          match subscription_retrieve env with
          | None =>
              (Http "Failed to retrieve subscription details from Stripe" 500, db)
          | Some stripe_sub_data =>
              let new_period_end_dt := current_period_end stripe_sub_data in
              let step1 :=
                if bool_decide (status user_subscription = TRIALING
                                ∧ billing_reason invoice = "subscription_cycle")
                then (set_status ACTIVE user_subscription, true)
                else (user_subscription, false) in
              let step2 :=
                if bool_decide (status step1.1 = PAST_DUE)
                then (set_status ACTIVE step1.1, true) else step1 in
              let step3 :=
                if bool_decide (end_date step2.1 ≠ Some new_period_end_dt)
                then (set_end_date (Some new_period_end_dt) step2.1, true)
                else step2 in
              commit_if step3.2 env
                "Error updating subscription after successful payment"
                (store_subscription pos step3.1 db) db
          end
      end
  end.

(** [customer.subscription.deleted], and [customer.subscription.updated]
    carrying [cancel_at_period_end = True]. *)
Definition handle_cancellation (env : environment) (deleted : bool)
    (subscription_data : StripeSubscription) (db : database)
    : response * database :=
  match find_subscription (sub_id subscription_data) (subscriptions db) with
  | None => (Http "Success" 200, db)
  | Some (pos, user_subscription) =>
      if bool_decide (status user_subscription = CANCELLED)
      then (Http "Success" 200, db)
      else
        let cancelled := set_status CANCELLED user_subscription in
        let effective_end_date_ts :=
          if deleted then ended_at subscription_data
          else cancel_at subscription_data in
        let updated :=
          match truthy_ts effective_end_date_ts with
          | Some ts => set_end_date (Some ts) cancelled
          | None => cancelled
          end in
        commit_if true env "Error processing subscription cancellation in database"
          (store_subscription pos updated db) db
  end.

Definition handle_payment_failed (env : environment) (invoice : Invoice)
    (db : database) : response * database :=
  match truthy_str (invoice_subscription invoice) with
  | None => (Http "Success" 200, db)
  | Some stripe_subscription_id_ =>
      match find_subscription stripe_subscription_id_ (subscriptions db) with
      | None => (Http "Success" 200, db)
      | Some (pos, user_subscription) =>
          commit_if (bool_decide (status user_subscription ≠ PAST_DUE)) env
            "Error updating subscription to past_due in database"
            (store_subscription pos (set_status PAST_DUE user_subscription) db) db
      end
  end.

(** The three synchronisation steps of the general update, each returning
    the row and whether it changed; [None] when the step raises. *)
Definition sync_plan (subscription_data : StripeSubscription)
    (plans_ : list SubscriptionPlan) (us : UserSubscription)
    : option (UserSubscription * bool) :=
  match sub_items subscription_data with
  | Items_absent => Some (us, false)
  | Items_unreadable => None
  | Items_price current_stripe_price_id =>
      plan ← snd <$> list_find (λ p, plan_pk p = plan_id us) plans_;
      if bool_decide (plan_stripe_price_id plan ≠ Some current_stripe_price_id)
      then
        match list_find (λ p, plan_stripe_price_id p = Some current_stripe_price_id)
                plans_ with
        | Some (_, new_plan) => Some (set_plan_id (plan_pk new_plan) us, true)
        | None => Some (us, false)
        end
      else Some (us, false)
  end.

Definition sync_status (subscription_data : StripeSubscription)
    (us : UserSubscription) : option (UserSubscription * bool) :=
  stripe_status_str ← sub_status subscription_data;
  match from_stripe_status stripe_status_str with
  | Some new_local_status =>
      if bool_decide (status us ≠ new_local_status) then
        if bool_decide (status us = CANCELLED ∧ new_local_status ≠ CANCELLED)
        then Some (us, false)
        else Some (set_status new_local_status us, true)
      else Some (us, false)
  | None => Some (us, false)
  end.

Definition sync_trial (subscription_data : StripeSubscription)
    (new_period_end_dt : Z) (us : UserSubscription) : UserSubscription * bool :=
  if bool_decide (status us = TRIALING) then
    match truthy_ts (trial_end subscription_data) with
    | Some new_trial_end_dt =>
        if bool_decide (end_date us ≠ Some new_trial_end_dt)
        then (set_end_date (Some new_trial_end_dt) us, true)
        else (us, false)
    | None =>
        (set_end_date (Some new_period_end_dt) (set_status ACTIVE us), true)
    end
  else (us, false).

(** [customer.subscription.updated] without [cancel_at_period_end]. *)
Definition handle_update (env : environment)
    (subscription_data : StripeSubscription) (db : database)
    : response * database :=
  match find_subscription (sub_id subscription_data) (subscriptions db) with
  | None => (Http "UserSubscription not found for update" 200, db)
  | Some (pos, user_subscription) =>
      let new_period_end_dt := current_period_end subscription_data in
      let step1 :=
        if bool_decide (end_date user_subscription ≠ Some new_period_end_dt)
        then (set_end_date (Some new_period_end_dt) user_subscription, true)
        else (user_subscription, false) in
      match sync_plan subscription_data (plans db) step1.1 with
      | None => (Unhandled_exception, db)
      | Some step2 =>
          match sync_status subscription_data step2.1 with
          | None => (Unhandled_exception, db)
          | Some step3 =>
              let step4 := sync_trial subscription_data new_period_end_dt step3.1 in
              commit_if (step1.2 || step2.2 || step3.2 || step4.2)%bool env
                "Error updating subscription from general update event"
                (store_subscription pos step4.1 db) db
          end
      end
  end.

(** What [stripe.Webhook.construct_event] makes of a delivery. *)
Inductive delivery :=
  | Invalid_payload
  | Invalid_signature
  | Construction_error
  | Event (event : stripe_event).

(** [stripe_webhook]: the answer and the database the request leaves. *)
Definition stripe_webhook (env : environment) (d : delivery) (db : database)
    : response * database :=
  match d with
  | Invalid_payload => (Http "Invalid payload" 400, db)
  | Invalid_signature => (Http "Invalid signature" 400, db)
  | Construction_error => (Http "Error constructing event" 500, db)
  | Event (checkout_session_completed session) => handle_checkout env session db
  | Event (invoice_payment_succeeded invoice) =>
      handle_payment_succeeded env invoice db
  | Event (customer_subscription_deleted subscription_data) =>
      handle_cancellation env true subscription_data db
  | Event (customer_subscription_updated subscription_data) =>
      match cancel_at_period_end subscription_data with
      | Some true => handle_cancellation env false subscription_data db
      | _ => handle_update env subscription_data db
      end
  | Event (invoice_payment_failed invoice) => handle_payment_failed env invoice db
  | Event (unhandled_event _) =>
      (Http "Success: Event received but not explicitly handled by this endpoint." 200, db)
  end.

(** The same delivery processed [n] times in a row, each time under its own
    environment. *)
Fixpoint replay (envs : list environment) (d : delivery) (db : database)
    : database :=
  match envs with
  | [] => db
  | env :: rest => replay rest d (stripe_webhook env d db).2
  end.

(** [s'] is [s] after an event that left it cancelled. *)
Definition stays_cancelled (s s' : UserSubscription) : Prop :=
  status s' = CANCELLED ∧ stripe_subscription_id s' = stripe_subscription_id s.

Definition rows_with_id (stripe_subscription_id_ : string) (db : database)
    : list UserSubscription :=
  filter (λ s, stripe_subscription_id s = Some stripe_subscription_id_)
         (subscriptions db).

End Billing.

(* ====================================================================== *)
(** ** Python numbers *)
(* ====================================================================== *)

Module PyFloat.

(** Division of integers rounded to the nearest integer, ties to even
    ([a ≥ 0], [b > 0]). *)
Definition div_half_even (a b : Z) : Z :=
  let q := a / b in
  let r := a mod b in
  if 2 * r <? b then q
  else if b <? 2 * r then q + 1
  else if Z.even q then q else q + 1.

(** [a / (b * 2^e)] as a fraction of integers. *)
Definition scaled (a b e : Z) : Z * Z :=
  if 0 <=? e then (a, b * 2 ^ e) else (a * 2 ^ (- e), b).

(** The binary64 value nearest to [a / b] ([a > 0], [b > 0]), ties to even;
    an infinity when the quotient is out of range. *)
Definition nearest_pos (a b : Z) : float :=
  let e1 := Z.log2 a - Z.log2 b - 52 in
  let '(n1, d1) := scaled a b e1 in
  let e2 := if n1 / d1 <? 2 ^ 52 then e1 - 1 else e1 in
  let e := Z.max e2 (-1074) in
  let '(n, d) := scaled a b e in
  Z.ldexp (PrimFloat.of_uint63 (Uint63.of_Z (div_half_even n d))) e.

Definition nearest (a b : Z) : float :=
  match Z.compare a 0 with
  | Eq => 0%float
  | Gt => nearest_pos a b
  | Lt => PrimFloat.opp (nearest_pos (- a) b)
  end.

(** The exact value of a finite float, as numerator and denominator. *)
Definition exact (x : float) : option (Z * Z) :=
  match Prim2SF x with
  | S754_zero _ => Some (0, 1)
  | S754_finite s m e =>
      let '(n, d) := scaled (Z.pos m) 1 (- e) in
      Some (if s then - n else n, d)
  | _ => None
  end.

Definition is_negative (x : float) : bool :=
  match Prim2SF x with
  | S754_zero s | S754_infinity s | S754_finite s _ _ => s
  | S754_nan => false
  end.

(** [round(x, ndigits)] on a float, [ndigits ≥ 0]: the exact value is
    rounded to [ndigits] decimals, ties to even, and the decimal read back
    as a float.  Infinities and NaN round to themselves. *)
Definition round_float (x : float) (ndigits : Z) : float :=
  match exact x with
  | None => x
  | Some (n, d) =>
      let k := div_half_even (Z.abs n * 10 ^ ndigits) d in
      let r := nearest k (10 ^ ndigits) in
      if is_negative x then PrimFloat.opp r else r
  end.

(** A Python number: [int] (and [bool], which is an [int]) or [float]. *)
Inductive number :=
  | Int (z : Z)
  | Float (f : float).

Definition float_max : Z := (2 ^ 53 - 1) * 2 ^ 971.

(** [float(n)]; [None] is [OverflowError]. *)
Definition to_float (n : number) : option float :=
  match n with
  | Float f => Some f
  | Int z =>
      let f := nearest z 1 in
      if PrimFloat.is_infinity f then None else Some f
  end.

(** [a / b]; [None] is [ZeroDivisionError] or [OverflowError]. *)
Definition truediv (a b : number) : option float :=
  match a, b with
  | Int x, Int y =>
      if y =? 0 then None
      else
        let f := if 0 <? y then nearest x y else nearest (- x) (- y) in
        if PrimFloat.is_infinity f then None else Some f
  | _, _ =>
      x ← to_float a;
      y ← to_float b;
      if PrimFloat.eqb y 0 then None else Some (PrimFloat.div x y)
  end.

(** [a * b] where one factor is a float. *)
Definition mul_float (a : float) (b : number) : option float :=
  y ← to_float b; Some (PrimFloat.mul a y).

(** Comparison with a small integer constant (exact in Python). *)
Definition gt_const (a : number) (c : Z) : bool :=
  match a with
  | Int z => c <? z
  | Float f => PrimFloat.ltb (nearest c 1) f
  end.

Definition le_const (a : number) (c : Z) : bool :=
  match a with
  | Int z => z <=? c
  | Float f => PrimFloat.leb f (nearest c 1)
  end.

Definition ge_const (a : number) (c : Z) : bool :=
  match a with
  | Int z => c <=? z
  | Float f => PrimFloat.leb (nearest c 1) f
  end.

(** [round(n, ndigits)], [ndigits ≥ 0]: an [int] rounds to itself. *)
Definition round (n : number) (ndigits : Z) : number :=
  match n with
  | Int z => Int z
  | Float f => Float (round_float f ndigits)
  end.

(** Numeric equality of results, as a JSON reader sees it ([50] and [50.0]
    are the same number). *)
Definition same_value (n : number) (f : float) : bool :=
  match to_float n with
  | Some g => PrimFloat.eqb g f
  | None => false
  end.

(** *** JSON values, as [request.get_json()] returns them *)
Inductive json :=
  | JNull
  | JBool (b : bool)
  | JNum (n : number)
  | JStr (s : string)
  | JArr (items : list json)
  | JObj (fields : list (string * json)).

(** [dict.get]: the last binding of a repeated key wins. *)
Fixpoint get (key : string) (fields : list (string * json)) : option json :=
  match fields with
  | [] => None
  | (k, v) :: rest =>
      match get key rest with
      | Some later => Some later
      | None => if String.eqb k key then Some v else None
      end
  end.

(** Python truthiness. *)
Definition truthy (v : json) : bool :=
  match v with
  | JNull => false
  | JBool b => b
  | JNum (Int z) => negb (z =? 0)
  | JNum (Float f) => negb (PrimFloat.eqb f 0)
  | JStr s => negb (String.eqb s "")
  | JArr l => match l with [] => false | _ => true end
  | JObj l => match l with [] => false | _ => true end
  end.

(** [isinstance(v, (int, float))], with the number it is. *)
Definition as_number (v : json) : option number :=
  match v with
  | JNum n => Some n
  | JBool b => Some (Int (if b then 1 else 0))
  | _ => None
  end.

End PyFloat.

(* ====================================================================== *)
(** ** The spend anomaly detector (src/routes/ai_insights.py) *)
(* ====================================================================== *)

Module Anomaly.

Local Open Scope float_scope.

(** [np.mean] and [np.std] of a float64 array.  NumPy adds the elements of a
    short array from left to right (arrays of eight elements and more are
    added in blocks). *)
Definition np_sum (l : list float) : float := foldl PrimFloat.add 0 l.

Definition np_mean (l : list float) : float :=
  np_sum l / PyFloat.nearest (Z.of_nat (length l)) 1.

Definition np_std (l : list float) : float :=
  let arrmean := np_mean l in
  PrimFloat.sqrt (np_mean ((λ x, (x - arrmean) * (x - arrmean)) <$> l)).

Inductive direction := high | low.

(** Which of the three message templates was filled in. *)
Inductive message :=
  | Significantly_higher_spend
  | Significantly_lower_spend
  | Spend_dropped_significantly.

Record anomaly := mkAnomaly {
  campaign_name : string;
  platform : string;
  anomaly_date : Z;
  value : float;
  mean : float;
  stddev : float;
  anomaly_direction : direction;
  anomaly_message : message
}.

Section Detector.

(** [round] on a NumPy float64 scalar (NumPy's own rounding). *)
Variable np_round : float → Z → float.

Definition analyze_campaign_spend_for_anomalies
    (daily_spends_list : list float) (most_recent_day_spend : float)
    (campaign_name_ platform_name : string) (anomaly_check_date : Z)
    : option anomaly :=
  if (length daily_spends_list <? 7)%nat then None
  else
    let mean_spend := np_mean daily_spends_list in
    let std_dev_spend := np_std daily_spends_list in
    let threshold_std_devs := 2.5 in
    let is_significant_drop :=
      ((10 <? mean_spend) && (most_recent_day_spend <? mean_spend * 0.1))%bool in
    let found : option (direction * message) :=
      if ((mean_spend * 0.05 <? std_dev_spend) || (mean_spend =? 0))%bool then
        if mean_spend + threshold_std_devs * std_dev_spend <? most_recent_day_spend
        then Some (high, Significantly_higher_spend)
        else if most_recent_day_spend <? mean_spend - threshold_std_devs * std_dev_spend
        then Some (low, Significantly_lower_spend)
        else None
      else if is_significant_drop then Some (low, Spend_dropped_significantly)
      else None in
    match found with
    | Some (direction_, message_) =>
        Some {| campaign_name := campaign_name_;
                platform := platform_name;
                anomaly_date := anomaly_check_date;
                value := most_recent_day_spend;
                mean := np_round mean_spend 2;
                stddev := np_round std_dev_spend 2;
                anomaly_direction := direction_;
                anomaly_message := message_ |}
    | None => None
    end.

End Detector.

End Anomaly.

(* ====================================================================== *)
(** ** The budget simulator (src/routes/optimization.py) *)
(* ====================================================================== *)

Module Budget.
Import PyFloat.

Record scenario := mkScenario {
  budget : number;
  projected_clicks : number;
  projected_spend : number;
  projected_conversions : number;
  projected_cpa : number
}.

Inductive reply :=
  | Scenarios (scenarios : list scenario)   (* 200, with the assumptions text *)
  | Bad_request (error : string)            (* 400 *)
  | Internal_error.                         (* an exception escapes: 500 *)

Definition status_code (r : reply) : Z :=
  match r with
  | Scenarios _ => 200
  | Bad_request _ => 400
  | Internal_error => 500
  end.

(** [data.get(key)]: [None] for an absent key and for a JSON null. *)
Definition get_or_None (key : string) (fields : list (string * json)) : option json :=
  match get key fields with
  | Some JNull | None => None
  | Some v => Some v
  end.

(** [isinstance(b, (int, float)) and b > 0]. *)
Definition positive_number (b : json) : bool :=
  match as_number b with
  | Some n => gt_const n 0
  | None => false
  end.

(** The body of [for budget in budget_scenarios_input]; [None] when an
    arithmetic exception escapes. *)
Definition project (current_cpc current_cvr_clicks budget_ : number)
    : option scenario :=
  projected_clicks_ ← truediv budget_ current_cpc;
  projected_conversions_ ← mul_float projected_clicks_ current_cvr_clicks;
  let projected_spend_ := budget_ in
  projected_cpa_ ←
    (if PrimFloat.ltb 0 projected_conversions_
     then Float <$> truediv budget_ (Float projected_conversions_)
     else Some (Int 0));
  Some {| budget := round budget_ 2;
          projected_clicks := round (Float projected_clicks_) 0;
          projected_spend := round projected_spend_ 2;
          projected_conversions := round (Float projected_conversions_) 2;
          projected_cpa := round projected_cpa_ 2 |}.

Definition budget_simulator_api (data : json) : reply :=
  if negb (truthy data) then Bad_request "Missing JSON payload."
  else
    match data with
    | JObj fields =>
        match get_or_None "current_cpc" fields,
              get_or_None "current_cvr_clicks" fields with
        | Some cpc_value, Some cvr_value =>
            match as_number cpc_value, as_number cvr_value with
            | Some current_cpc, Some current_cvr_clicks =>
                match get "budget_scenarios" fields with
                | Some (JArr (first :: others)) =>
                    let budget_scenarios_input := first :: others in
                    if negb (forallb positive_number budget_scenarios_input) then
                      Bad_request "All budget scenarios must be positive numbers."
                    else if le_const current_cpc 0 then
                      Bad_request "Current CPC must be greater than zero."
                    else if negb (ge_const current_cvr_clicks 0
                                  && le_const current_cvr_clicks 1) then
                      Bad_request
                        "Current CVR (Click-based) must be between 0 (0%) and 1 (100%)."
                    else
                      match mapM (project current_cpc current_cvr_clicks)
                              (omap as_number budget_scenarios_input) with
                      | Some results => Scenarios results
                      | None => Internal_error
                      end
                | _ =>
                    Bad_request
                      "budget_scenarios must be a non-empty list of positive numbers."
                end
            | _, _ => Bad_request "CPC and CVR must be numbers."
            end
        | _, _ => Bad_request "current_cpc and current_cvr_clicks are required."
        end
    | _ => Internal_error
    end.

(** The three defects of a request that the specification names: the CPC
    is a number and not above zero, the CVR is a number outside [0, 1], a
    budget scenario is not a positive number. *)
Definition cpc_not_positive (fields : list (string * json)) : Prop :=
  ∃ n, get "current_cpc" fields ≫= as_number = Some n ∧ le_const n 0 = true.

Definition cvr_out_of_range (fields : list (string * json)) : Prop :=
  ∃ n, get "current_cvr_clicks" fields ≫= as_number = Some n
       ∧ (ge_const n 0 && le_const n 1)%bool = false.

Definition some_budget_not_positive (fields : list (string * json)) : Prop :=
  ∃ l b, get "budget_scenarios" fields = Some (JArr l)
         ∧ b ∈ l ∧ positive_number b = false.

End Budget.

(* ====================================================================== *)
(** ** Metric changes and top movers (src/routes/ai_insights.py)

    Period totals are binary64 floats, as Step 6 of [get_top_movers] makes
    them. *)
(* ====================================================================== *)

Module Movers.

Local Open Scope float_scope.

(** A campaign key: (campaign_id_platform, platform value). *)
Definition campaign_key : Type := string * string.

(** A value of [current_data_map] / [prev_data_map]; Step 6 of
    [get_top_movers] fills ['total'] with [float(row.metric_total or 0)]. *)
Record period_total := mkPeriodTotal {
  name : option string;
  total : float
}.

Record change := mkChange {
  campaign_id : string;
  campaign_name : string;
  platform : string;
  current_value : PyFloat.number;
  previous_value : PyFloat.number;
  absolute_change : PyFloat.number;
  percentage_change : float;
  metric : string
}.

Definition name_in (m : gmap campaign_key period_total) (key : campaign_key)
    : option string :=
  PyStr.truthy_str (m !! key ≫= name).

(** [m.get(key, {}).get('total', 0)]: the float of the key, or the integer
    0. *)
Definition total_in (m : gmap campaign_key period_total) (key : campaign_key)
    : PyFloat.number :=
  match m !! key with
  | Some entry => PyFloat.Float (total entry)
  | None => PyFloat.Int 0
  end.

(** The float an operand of mixed arithmetic or of a mixed comparison is
    converted to.  The only [int] the calculator meets is the default 0. *)
Definition as_float (n : PyFloat.number) : float :=
  match n with
  | PyFloat.Int z => PyFloat.nearest z 1
  | PyFloat.Float f => f
  end.

(** [a - b]. *)
Definition minus (a b : PyFloat.number) : PyFloat.number :=
  match a, b with
  | PyFloat.Int x, PyFloat.Int y => PyFloat.Int (x - y)
  | _, _ => PyFloat.Float (as_float a - as_float b)
  end.

(** [a != 0]. *)
Definition nonzero (a : PyFloat.number) : bool :=
  match a with
  | PyFloat.Int z => negb (z =? 0)%Z
  | PyFloat.Float f => negb (f =? 0)
  end.

(** One turn of [for key in all_campaign_keys]. *)
Definition change_of (current_data_map prev_data_map : gmap campaign_key period_total)
    (metric_param_name : string) (key : campaign_key) : change :=
  let current_val := total_in current_data_map key in
  let prev_val := total_in prev_data_map key in
  let campaign_name_ :=
    match name_in current_data_map key with
    | Some n => n
    | None => default ("Campaign ID: " +:+ key.1) (name_in prev_data_map key)
    end in
  let platform_name := key.2 in
  let abs_change := minus current_val prev_val in
  let perc_change :=
    if nonzero prev_val then (as_float abs_change / as_float prev_val) * 100
    else if nonzero current_val then 100
    else 0 in
  {| campaign_id := key.1;
     campaign_name := campaign_name_;
     platform := platform_name;
     current_value := PyFloat.round current_val 2;
     previous_value := PyFloat.round prev_val 2;
     absolute_change := PyFloat.round abs_change 2;
     percentage_change := PyFloat.round_float perc_change 1;
     metric := metric_param_name |}.

(** [all_campaign_keys] is given in the order the loop visits it. *)
Definition calculate_metric_changes (all_campaign_keys : list campaign_key)
    (current_data_map prev_data_map : gmap campaign_key period_total)
    (metric_param_name : string) : list change :=
  change_of current_data_map prev_data_map metric_param_name <$> all_campaign_keys.

(** [sorted]: the stable sort; [before a b] says that [a] may stand before
    [b].  On keys that are pairwise comparable (no NaN among them) every
    stable sort returns this list. *)
Fixpoint insert_sorted {A} (before : A → A → bool) (x : A) (l : list A) : list A :=
  match l with
  | [] => [x]
  | y :: rest => if before x y then x :: y :: rest
                 else y :: insert_sorted before x rest
  end.

Definition sorted {A} (before : A → A → bool) (l : list A) : list A :=
  foldr (insert_sorted before) [] l.

(** The sort key [x['absolute_change']], as the comparisons read it. *)
Definition sort_key (c : change) : float := as_float (absolute_change c).

(** [key=lambda x: x['absolute_change'], reverse=True] and the same key
    without [reverse]. *)
Definition descending (a b : change) : bool := sort_key b <=? sort_key a.

Definition ascending (a b : change) : bool := sort_key a <=? sort_key b.

(** [c['absolute_change'] > 0] and [c['absolute_change'] < 0]. *)
Definition is_gain (c : change) : bool := 0 <? sort_key c.

Definition is_decline (c : change) : bool := sort_key c <? 0.

(** Step 9 of [get_top_movers]. *)
Definition gainers (changes : list change) : list change :=
  let sorted_by_abs_change := sorted descending changes in
  take 5 (List.filter is_gain sorted_by_abs_change).

Definition decliners (changes : list change) : list change :=
  let sorted_by_abs_change := sorted descending changes in
  take 5 (sorted ascending (List.filter is_decline sorted_by_abs_change)).

(** The record carries a number in [absolute_change], not a NaN. *)
Definition comparable (c : change) : Prop :=
  PrimFloat.is_nan (sort_key c) = false.

(** Every total of the map is a finite float, as a sum read from the
    database is. *)
Definition finite_totals (m : gmap campaign_key period_total) : Prop :=
  map_Forall (λ _ entry, PrimFloat.is_finite (total entry) = true) m.

(** A key that orders the floats as the comparison of their specification
    does; a NaN has none. *)
Definition SFkey (x : spec_float) : option (Z * Z * Z) :=
  match x with
  | S754_nan => None
  | S754_zero _ => Some (0, 0, 0)%Z
  | S754_infinity s => Some (if s then -2 else 2, 0, 0)%Z
  | S754_finite s m e => Some (if s then (-1, - e, - Z.pos m) else (1, e, Z.pos m))%Z
  end.

Definition key_le (a b : Z * Z * Z) : Prop :=
  (a.1.1 < b.1.1 ∨ (a.1.1 = b.1.1 ∧ (a.1.2 < b.1.2 ∨ (a.1.2 = b.1.2 ∧ a.2 ≤ b.2))))%Z.

(** The specification of a float that is a number, and of one that is
    finite. *)
Definition a_number (x : spec_float) : Prop :=
  match x with S754_nan => False | _ => True end.

Definition is_finite_SF (x : spec_float) : Prop :=
  match x with S754_zero _ | S754_finite _ _ _ => True | _ => False end.

End Movers.

(* ====================================================================== *)
(** ** Sample data *)
(* ====================================================================== *)

Module Samples.
Import Store Normalizer Fetch.

(** 2026-10-30 and 2026-11-03 as ordinals. *)
Definition oct_30 : Z := 739919.
Definition nov_3 : Z := 739923.

Definition mobile_fact : CampaignData :=
  {| integration_id := 1; platform := GOOGLE_ADS;
     campaign_id_platform := "42"; campaign_name_platform := "Brand (old name)";
     date := oct_30; breakdown_type := "device"; breakdown_value := "mobile";
     impressions := 900; clicks := 40; spend := (11 # 1)%Q; conversions := 2;
     created_at := 1000; updated_at := 1000 |}.

Definition tablet_fact : CampaignData :=
  {| integration_id := 1; platform := GOOGLE_ADS;
     campaign_id_platform := "42"; campaign_name_platform := "Brand (old name)";
     date := oct_30; breakdown_type := "device"; breakdown_value := "tablet";
     impressions := 10; clicks := 1; spend := (1 # 2)%Q; conversions := 0;
     created_at := 1000; updated_at := 1000 |}.

Definition two_facts : table := [mobile_fact; tablet_fact].

Definition row_mobile : GoogleRow :=
  {| campaign_id := 42; campaign_name := "Brand"; metrics_date := oct_30;
     segments_device := MOBILE;
     segments_geo_target_country := "countries/US";
     segments_age_range_type := AGE_RANGE_25_34;
     segments_gender_type := FEMALE;
     metrics_impressions := 1000; metrics_clicks := 50;
     metrics_cost_micros := 12340000; metrics_conversions := (3 # 1)%Q |}.

Definition row_desktop : GoogleRow :=
  {| campaign_id := 42; campaign_name := "Brand"; metrics_date := oct_30;
     segments_device := DESKTOP;
     segments_geo_target_country := "countries/US";
     segments_age_range_type := AGE_RANGE_25_34;
     segments_gender_type := FEMALE;
     metrics_impressions := 400; metrics_clicks := 8;
     metrics_cost_micros := 2500000; metrics_conversions := (1 # 1)%Q |}.

(** One committed batch, then the stream ends. *)
Definition complete_stream : list stream_event :=
  [Batch [row_mobile; row_desktop] true].

(** One committed batch, then the vendor's error. *)
Definition interrupted_stream : list stream_event :=
  [Batch [row_mobile; row_desktop] true; GoogleAdsException].

Definition meta_item (device_platform : string) (imp : Z) : MetaItem :=
  {| item_campaign_id := Some "777"; item_campaign_name := Some "Autumn";
     item_date_start := Some oct_30;
     item_breakdowns := {[ "device_platform" := device_platform ]};
     item_impressions := Some imp; item_clicks := Some 5;
     item_spend := Some (7 # 2)%Q;
     item_actions := Some [ {| action_type := "omni_purchase"; action_value := 2 |} ] |}.

(** The device call answers with two items, the other three with none. *)
Definition meta_api (breakdowns : string) : meta_reply :=
  if String.eqb breakdowns "device_platform"
  then Reply (Some [meta_item "desktop" 300; meta_item "mobile_app" 200]) true
  else Reply (Some []) true.

(** *** Billing *)

Definition pro_plan : Billing.SubscriptionPlan :=
  {| Billing.plan_pk := 2; Billing.plan_stripe_price_id := Some "price_pro" |}.

Definition basic_plan : Billing.SubscriptionPlan :=
  {| Billing.plan_pk := 1; Billing.plan_stripe_price_id := Some "price_basic" |}.

(** A user and the plan catalogue, no subscription yet. *)
Definition new_customer_db : Billing.database :=
  {| Billing.users := [ {| Billing.user_pk := 7;
                           Billing.user_stripe_customer_id := None |} ];
     Billing.plans := [basic_plan; pro_plan];
     Billing.subscriptions := [] |}.

Definition stripe_sub (status_ : string) : Billing.StripeSubscription :=
  {| Billing.sub_id := "sub_123";
     Billing.cancel_at_period_end := Some false;
     Billing.ended_at := None;
     Billing.cancel_at := None;
     Billing.current_period_end := 1764547200;
     Billing.sub_start_date := 1761955200;
     Billing.trial_end := None;
     Billing.sub_items := Billing.Items_price "price_pro";
     Billing.sub_status := Some status_ |}.

(** Stripe answers every call and the database accepts every commit. *)
Definition cooperative : Billing.environment :=
  {| Billing.utcnow := 1761955260;
     Billing.session_line_items := Billing.Line_items ["price_pro"];
     Billing.subscription_retrieve := Some (stripe_sub "active");
     Billing.commit_result := Billing.Committed |}.

Definition checkout_delivery : Billing.delivery :=
  Billing.Event (Billing.checkout_session_completed
    {| Billing.client_reference_id := Some 7;
       Billing.session_subscription := Some "sub_123";
       Billing.session_customer := Some "cus_9" |}).

(** The same user with a cancelled subscription on record. *)
Definition cancelled_row : Billing.UserSubscription :=
  {| Billing.user_id := 7; Billing.plan_id := 2;
     Billing.start_date := 1759276800; Billing.end_date := Some 1761955200;
     Billing.status := Billing.CANCELLED;
     Billing.stripe_subscription_id := Some "sub_123" |}.

Definition cancelled_db : Billing.database :=
  {| Billing.users := [ {| Billing.user_pk := 7;
                           Billing.user_stripe_customer_id := Some "cus_9" |} ];
     Billing.plans := [basic_plan; pro_plan];
     Billing.subscriptions := [cancelled_row] |}.

(** *** Analytics *)

(** Seven days at 100. *)
Definition flat_baseline : list float := replicate 7 100%float.

Definition simulator_request (current_cpc current_cvr_clicks : PyFloat.number)
    (budget_scenarios : list PyFloat.json) : PyFloat.json :=
  PyFloat.JObj [ ("current_cpc", PyFloat.JNum current_cpc);
                 ("current_cvr_clicks", PyFloat.JNum current_cvr_clicks);
                 ("budget_scenarios", PyFloat.JArr budget_scenarios) ].

Definition totals (l : list (string * float))
    : gmap Movers.campaign_key Movers.period_total :=
  list_to_map ((λ e : string * float,
                  ((e.1, "GoogleAds"),
                   {| Movers.name := Some ("Campaign " +:+ e.1);
                      Movers.total := e.2 |})) <$> l).

(** Two periods of three campaigns. *)
Definition current_totals : gmap Movers.campaign_key Movers.period_total :=
  totals [("a", 150); ("b", 40); ("c", 7)]%float.

Definition previous_totals : gmap Movers.campaign_key Movers.period_total :=
  totals [("a", 100); ("b", 90)]%float.

Definition mover_keys : list Movers.campaign_key :=
  [("a", "GoogleAds"); ("b", "GoogleAds"); ("c", "GoogleAds")].

End Samples.

(* ====================================================================== *)
(** ** What a run may touch (src/routes/integration.py) *)
(* ====================================================================== *)

Module Confinement.
Import Store Fetch.

(** The facts of one integration on one platform. *)
Definition own (i : Z) (p : PlatformNameEnum) (r : CampaignData) : Prop :=
  integration_id r = i ∧ platform r = p.

(** [t] is [t0] after writes on behalf of integration [i] on platform [p]:
    every row of [t0] is still in its place, under its key and with its
    creation stamp, and unchanged when it is not an own row; the rows beyond
    [t0] are own rows. *)
Definition grown (i : Z) (p : PlatformNameEnum) (t0 t : table) : Prop :=
  (∀ pos r0, t0 !! pos = Some r0 →
     ∃ r, t !! pos = Some r ∧ key_of r = key_of r0 ∧ created_at r = created_at r0
          ∧ (¬ own i p r0 → r = r0))
  ∧ (∀ pos r, t !! pos = Some r → t0 !! pos = None → own i p r).

(** A property of tables that every write of the integration keeps. *)
Definition kept_by_upserts (i : Z) (p : PlatformNameEnum) (P : table → Prop) : Prop :=
  ∀ c name d bt bv imp clk sp conv now t,
    P t → P (upsert i p c name d bt bv imp clk sp conv now t).

Definition both (P : table → Prop) (s : session) : Prop :=
  P (pending s) ∧ P (committed s).

(** The key selects exactly one row, which holds the given values. *)
Definition stored_under (k : fact_key) (name : string) (imp clk : Z) (sp : Q)
    (conv : Z) (t : table) : Prop :=
  ∃ r, rows_of k t = [r] ∧ carries name imp clk sp conv r.

(** The key selects exactly one row, which holds the given name and
    counts; nothing is said of its spend. *)
Definition counts_stored_under (k : fact_key) (name : string) (imp clk conv : Z)
    (t : table) : Prop :=
  ∃ r, rows_of k t = [r]
       ∧ campaign_name_platform r = name ∧ impressions r = imp ∧ clicks r = clk
       ∧ conversions r = conv.

End Confinement.

(* ====================================================================== *)
(** ** Subscription rows and answers (src/routes/billing.py) *)
(* ====================================================================== *)

Module BillingRows.
Import Billing.

(** What identifies a subscription row for the application: its user, its
    start and the provider's id. *)
Definition row_identity (s : UserSubscription) : Z * Z * option string :=
  (user_id s, start_date s, stripe_subscription_id s).

(** The answer is not a 200: the provider will deliver the event again. *)
Definition refused (r : response) : Prop := ∀ body, r ≠ Http body 200.

End BillingRows.

(* ====================================================================== *)
(** ** Signs of binary64 numbers *)
(* ====================================================================== *)

Module FloatSign.

(** The float is zero, positive or not a number: no comparison finds it
    below zero. *)
Definition not_negative (x : spec_float) : Prop :=
  match x with
  | S754_infinity s | S754_finite s _ _ => s = false
  | _ => True
  end.

Definition not_positive (x : spec_float) : Prop :=
  match x with
  | S754_infinity s | S754_finite s _ _ => s = true
  | _ => True
  end.

(** The float is a zero. *)
Definition is_zero (x : spec_float) : Prop :=
  match x with S754_zero _ => True | _ => False end.

End FloatSign.

(* ====================================================================== *)
(** ** Float requests of the budget simulator (src/routes/optimization.py) *)
(* ====================================================================== *)

Module BudgetFloats.
Import PyFloat Budget.

(** A request whose three members are floats. *)
Definition float_request (current_cpc current_cvr_clicks : float)
    (budgets : list float) : json :=
  JObj [ ("current_cpc", JNum (Float current_cpc));
         ("current_cvr_clicks", JNum (Float current_cvr_clicks));
         ("budget_scenarios", JArr ((λ b, JNum (Float b)) <$> budgets)) ].

(** The request passes the checks of the simulator. *)
Definition acceptable (current_cpc current_cvr_clicks : float)
    (budgets : list float) : Prop :=
  budgets ≠ []
  ∧ Forall (λ b, PrimFloat.ltb 0 b = true) budgets
  ∧ PrimFloat.ltb 0 current_cpc = true
  ∧ PrimFloat.leb 0 current_cvr_clicks = true
  ∧ PrimFloat.leb current_cvr_clicks 1 = true.

(** What [project] computes on floats. *)
Definition float_scenario (current_cpc current_cvr_clicks budget_ : float) : scenario :=
  let projected_clicks_ := (budget_ / current_cpc)%float in
  let projected_conversions_ := (projected_clicks_ * current_cvr_clicks)%float in
  {| budget := Float (round_float budget_ 2);
     projected_clicks := Float (round_float projected_clicks_ 0);
     projected_spend := Float (round_float budget_ 2);
     projected_conversions := Float (round_float projected_conversions_ 2);
     projected_cpa :=
       if PrimFloat.ltb 0 projected_conversions_
       then Float (round_float (budget_ / projected_conversions_) 2)
       else Int 0 |}.

End BudgetFloats.

(* ====================================================================== *)
(** ** Trends (src/routes/ai_insights.py) *)
(* ====================================================================== *)

Module Trend.

Local Open Scope float_scope.

Inductive direction := upward | downward | flat | insufficient_data.

Record trend := mkTrend {
  slope : PyFloat.number;
  intercept : PyFloat.number;
  trend_direction : direction
}.

Section Analyzer.

(** [np.polyfit(np.arange(len(y)), y, 1)], [np.mean] and [round] on a NumPy
    scalar are the library's. *)
Variable np_polyfit : list float → float * float.
Variable np_mean : list float → float.
Variable np_round : float → Z → float.

Definition analyze_data_trend (daily_metric_values_list : list float) : trend :=
  if (length daily_metric_values_list <? 3)%nat
  then {| slope := PyFloat.Int 0; intercept := PyFloat.Int 0;
          trend_direction := insufficient_data |}
  else
    let y_values := daily_metric_values_list in
    let '(slope_, intercept_) := np_polyfit y_values in
    let avg_value := np_mean y_values in
    let flat_threshold_ratio := 0.02 in
    let trend_direction_ :=
      if 1e-6 <? abs avg_value then
        if abs avg_value * flat_threshold_ratio <? slope_ then upward
        else if slope_ <? - (abs avg_value * flat_threshold_ratio) then downward
        else flat
      else if 1e-6 <? slope_ then upward
      else if slope_ <? -1e-6 then downward
      else flat in
    {| slope := PyFloat.Float (np_round slope_ 2);
       intercept := PyFloat.Float (np_round intercept_ 2);
       trend_direction := trend_direction_ |}.

End Analyzer.

End Trend.

(* ====================================================================== *)
(** ** The spend-anomaly endpoint (src/routes/ai_insights.py) *)
(* ====================================================================== *)

Module SpendAnomalies.

(** A row of the query of [get_spend_anomalies].  The name column is taken
    as filled in: the route carries the name along and never reads it.
    [spend] is [float(row.spend)], [platform_value] is [row.platform.value]. *)
Record spend_row := mkSpendRow {
  campaign_id_platform : string;
  campaign_name_platform : string;
  platform_value : string;
  date : Z;
  spend : float
}.

Record metric := mkMetric { metric_date : Z; metric_spend : float }.

Record campaign_info := mkCampaignInfo {
  name : string;
  platform : string;
  metrics : list metric
}.

Definition campaign_key : Type := string * string.

Definition key_of (row : spend_row) : campaign_key :=
  (campaign_id_platform row, platform_value row).

Definition metric_of (row : spend_row) : metric :=
  {| metric_date := date row; metric_spend := spend row |}.

(** One turn of [for row in campaigns_data]; [data_by_campaign] is a dict,
    which keeps its keys in the order of their first insertion. *)
Fixpoint add_row (row : spend_row) (data_by_campaign : list (campaign_key * campaign_info))
    : list (campaign_key * campaign_info) :=
  match data_by_campaign with
  | [] => [(key_of row,
            {| name := campaign_name_platform row;
               platform := platform_value row;
               metrics := [metric_of row] |})]
  | (key, info) :: rest =>
      if decide (key = key_of row)
      then (key, {| name := name info; platform := platform info;
                    metrics := metrics info ++ [metric_of row] |}) :: rest
      else (key, info) :: add_row row rest
  end.

Definition group (campaigns_data : list spend_row) : list (campaign_key * campaign_info) :=
  foldl (λ data_by_campaign row, add_row row data_by_campaign) [] campaigns_data.

(** The backwards search for the entry of the check date. *)
Definition most_recent (end_date_for_calc : Z) (metrics_ : list metric) : option metric :=
  last (filter (λ m, metric_date m = end_date_for_calc) metrics_).

Definition baseline (end_date_for_calc : Z) (metrics_ : list metric) : list float :=
  metric_spend <$> filter (λ m, metric_date m < end_date_for_calc) metrics_.

Section Endpoint.

Variable np_round : float → Z → float.

(** [get_spend_anomalies] on the rows its query returned. *)
Definition get_spend_anomalies (today : Z) (campaigns_data : list spend_row)
    : list Anomaly.anomaly :=
  let end_date_for_calc := today - 1 in
  omap (λ entry : campaign_key * campaign_info,
          let campaign_info_ := entry.2 in
          most_recent_metric_day_data ←
            most_recent end_date_for_calc (metrics campaign_info_);
          Anomaly.analyze_campaign_spend_for_anomalies np_round
            (baseline end_date_for_calc (metrics campaign_info_))
            (metric_spend most_recent_metric_day_data)
            (name campaign_info_) (platform campaign_info_) end_date_for_calc)
       (group campaigns_data).

End Endpoint.

(** The rows of one campaign on one platform. *)
Definition rows_of (key : campaign_key) (campaigns_data : list spend_row)
    : list spend_row :=
  filter (λ row, key_of row = key) campaigns_data.

(** The dict built by the grouping loop, after the rows [campaigns_data]:
    one entry per key seen, holding the key's rows in the order they came. *)
Definition grouped (data_by_campaign : list (campaign_key * campaign_info))
    (campaigns_data : list spend_row) : Prop :=
  NoDup data_by_campaign.*1
  ∧ (∀ key info, (key, info) ∈ data_by_campaign →
       metrics info = metric_of <$> rows_of key campaigns_data
       ∧ platform info = key.2)
  ∧ (∀ key, key ∉ data_by_campaign.*1 → rows_of key campaigns_data = []).

End SpendAnomalies.

(* ====================================================================== *)
(** ** More sample data *)
(* ====================================================================== *)

Module MoreSamples.
Import Store Fetch.

(** Stripe answers every call; the database refuses every commit. *)
Definition refusing : Billing.environment :=
  {| Billing.utcnow := 1761955260;
     Billing.session_line_items := Billing.Line_items ["price_pro"];
     Billing.subscription_retrieve := Some (Samples.stripe_sub "active");
     Billing.commit_result := Billing.IntegrityError |}.

(** The same user with a running subscription on record. *)
Definition active_row : Billing.UserSubscription :=
  {| Billing.user_id := 7; Billing.plan_id := 2;
     Billing.start_date := 1759276800; Billing.end_date := Some 1761955200;
     Billing.status := Billing.ACTIVE;
     Billing.stripe_subscription_id := Some "sub_123" |}.

Definition active_db : Billing.database :=
  {| Billing.users := [ {| Billing.user_pk := 7;
                           Billing.user_stripe_customer_id := Some "cus_9" |} ];
     Billing.plans := [Samples.basic_plan; Samples.pro_plan];
     Billing.subscriptions := [active_row] |}.

Definition unpaid_invoice : Billing.Invoice :=
  {| Billing.invoice_subscription := Some "sub_123";
     Billing.billing_reason := "subscription_cycle" |}.

(** An item of the Insights answer that lacks its date. *)
Definition undated_item : MetaItem :=
  {| item_campaign_id := Some "777"; item_campaign_name := Some "Autumn";
     item_date_start := None;
     item_breakdowns := {[ "device_platform" := "desktop" ]};
     item_impressions := Some 300; item_clicks := Some 5;
     item_spend := Some (7 # 2)%Q;
     item_actions := None |}.

(** The device call answers with a dated and an undated item. *)
Definition meta_api_undated (breakdowns : string) : meta_reply :=
  if String.eqb breakdowns "device_platform"
  then Reply (Some [Samples.meta_item "desktop" 300; undated_item]) true
  else Reply (Some []) true.

(** The device call fails, the other three answer. *)
Definition meta_api_no_device (breakdowns : string) : meta_reply :=
  if String.eqb breakdowns "device_platform"
  then RequestException
  else Reply (Some [Samples.meta_item "US" 300]) true.

(** A row of one campaign, [days_before] days before [Samples.nov_3]. *)
Definition spend_row_on (days_before : Z) (spend_ : float) : SpendAnomalies.spend_row :=
  {| SpendAnomalies.campaign_id_platform := "42";
     SpendAnomalies.campaign_name_platform := "Brand";
     SpendAnomalies.platform_value := "GoogleAds";
     SpendAnomalies.date := Samples.nov_3 - days_before;
     SpendAnomalies.spend := spend_ |}.

(** A week of small spends, then a large one on the last day. *)
Definition spend_rows : list SpendAnomalies.spend_row :=
  [ spend_row_on 8 10; spend_row_on 7 12; spend_row_on 6 10; spend_row_on 5 12;
    spend_row_on 4 10; spend_row_on 3 12; spend_row_on 2 10;
    spend_row_on 1 1000 ]%float.

(** Stands for NumPy's [round] where no rounded field is read. *)
Definition no_rounding (x : float) (ndigits : Z) : float := x.

End MoreSamples.

(* ====================================================================== *)
(** * Properties *)
(* ====================================================================== *)

(** ** The upsert *)

Module StoreFacts.
Import Store.

Lemma key_of_overwrite name imp clk sp conv now r :
  key_of (overwrite name imp clk sp conv now r) = key_of r.
Proof. reflexivity. Qed.

Lemma key_of_fresh k name imp clk sp conv now :
  key_of (fresh k name imp clk sp conv now) = k.
Proof. by destruct k as [[[[[??]?]?]?]?]. Qed.

Lemma carries_overwrite name imp clk sp conv now r :
  carries name imp clk sp conv (overwrite name imp clk sp conv now r).
Proof. by repeat split. Qed.

Lemma carries_fresh k name imp clk sp conv now :
  carries name imp clk sp conv (fresh k name imp clk sp conv now).
Proof. by destruct k as [[[[[??]?]?]?]?]. Qed.

Lemma forget_stamp_overwrite name imp clk sp conv now r :
  carries name imp clk sp conv r →
  forget_stamp (overwrite name imp clk sp conv now r) = forget_stamp r.
Proof. intros (<- & <- & <- & <- & <-). reflexivity. Qed.

(** The two ways an upsert goes. *)
Lemma upsert_cases i p c name d bt bv imp clk sp conv now t :
  (∃ pos r, t !! pos = Some r ∧ key_of r = (i, p, c, d, bt, bv)
            ∧ upsert i p c name d bt bv imp clk sp conv now t
              = <[pos := overwrite name imp clk sp conv now r]> t)
  ∨ (Forall (λ r, key_of r ≠ (i, p, c, d, bt, bv)) t
     ∧ upsert i p c name d bt bv imp clk sp conv now t
       = t ++ [fresh (i, p, c, d, bt, bv) name imp clk sp conv now]).
Proof.
  unfold upsert, query_first.
  destruct (list_find _ t) as [[pos r]|] eqn:E.
  - left. apply list_find_Some in E as (? & ? & _). eauto.
  - right. by apply list_find_None in E.
Qed.

(** Replacing a row that a filter rejects by another one it rejects. *)
Lemma filter_insert_rejected (Q : CampaignData → Prop) `{∀ r, Decision (Q r)}
    (t : table) pos r r' :
  t !! pos = Some r → ¬ Q r → ¬ Q r' →
  filter Q (<[pos := r']> t) = filter Q t.
Proof.
  intros Hpos Hr Hr'.
  rewrite insert_take_drop by (by eapply lookup_lt_Some).
  rewrite <- (take_drop_middle t pos r Hpos) at 3.
  rewrite !filter_app, !filter_cons_False; done.
Qed.

(** Rows a filter selects are untouched by an upsert under a key the filter
    excludes. *)
Lemma upsert_filter_other (Q : CampaignData → Prop) `{∀ r, Decision (Q r)}
    i p c name d bt bv imp clk sp conv now t :
  (∀ r, Q r → key_of r ≠ (i, p, c, d, bt, bv)) →
  filter Q (upsert i p c name d bt bv imp clk sp conv now t) = filter Q t.
Proof.
  intros HQ.
  destruct (upsert_cases i p c name d bt bv imp clk sp conv now t)
    as [(pos & r & Hpos & Hk & ->)|[_ ->]].
  - apply filter_insert_rejected with r; [done| |].
    + intros HQr. by apply HQ in HQr.
    + intros HQr. apply HQ in HQr. by rewrite key_of_overwrite in HQr.
  - rewrite filter_app, filter_cons_False, filter_nil, app_nil_r; [done|].
    intros HQr. apply HQ in HQr. by rewrite key_of_fresh in HQr.
Qed.

Lemma upsert_unique_keys i p c name d bt bv imp clk sp conv now t :
  unique_keys t → unique_keys (upsert i p c name d bt bv imp clk sp conv now t).
Proof.
  unfold unique_keys. intros Hu.
  destruct (upsert_cases i p c name d bt bv imp clk sp conv now t)
    as [(pos & r & Hpos & Hk & ->)|[Hnone ->]].
  - rewrite list_fmap_insert, key_of_overwrite, list_insert_id; [done|].
    by rewrite list_lookup_fmap, Hpos.
  - rewrite fmap_app. apply NoDup_app. split_and!; [done| |apply NoDup_singleton].
    intros k' Hin Hk'. apply list_elem_of_singleton in Hk'. subst k'.
    rewrite key_of_fresh in Hin.
    apply list_elem_of_fmap in Hin as (r & Hr & Hin).
    rewrite Forall_forall in Hnone. by apply (Hnone r).
Qed.

Lemma filter_none {A} (P : A → Prop) `{∀ x, Decision (P x)} (l : list A) :
  Forall (λ x, ¬ P x) l → filter P l = [].
Proof.
  induction 1 as [|x l Hx _ IH]; [done|].
  by rewrite filter_cons_False.
Qed.

(** Under the unique constraint a key selects exactly the row found. *)
Lemma rows_of_unique k (t : table) pos r :
  unique_keys t → t !! pos = Some r → key_of r = k → rows_of k t = [r].
Proof.
  unfold unique_keys, rows_of. intros Hu Hpos Hk.
  rewrite <- (take_drop_middle t pos r Hpos) in Hu |- *.
  rewrite fmap_app, fmap_cons in Hu.
  apply NoDup_app in Hu as (_ & Hl & Hr).
  apply NoDup_cons in Hr as [Hr _].
  rewrite filter_app, filter_cons_True by done.
  rewrite !filter_none; [done| |].
  - apply Forall_forall. intros x Hx Hkx. apply Hr.
    apply list_elem_of_fmap. exists x. split; [congruence|done].
  - apply Forall_forall. intros x Hx Hkx. apply (Hl (key_of x)).
    + by apply list_elem_of_fmap_2.
    + rewrite Hkx, <- Hk. left.
Qed.

(** After an upsert the key selects one row, which holds the call's values. *)
Lemma upsert_rows_of i p c name d bt bv imp clk sp conv now t :
  unique_keys t →
  ∃ r, rows_of (i, p, c, d, bt, bv) (upsert i p c name d bt bv imp clk sp conv now t) = [r]
       ∧ carries name imp clk sp conv r.
Proof.
  intros Hu.
  pose proof (upsert_unique_keys i p c name d bt bv imp clk sp conv now t Hu) as Hu'.
  destruct (upsert_cases i p c name d bt bv imp clk sp conv now t)
    as [(pos & r & Hpos & Hk & E)|[Hnone E]]; rewrite E in Hu' |- *.
  - exists (overwrite name imp clk sp conv now r). split; [|apply carries_overwrite].
    apply rows_of_unique with pos; [done| |done].
    apply list_lookup_insert_eq. by eapply lookup_lt_Some.
  - exists (fresh (i, p, c, d, bt, bv) name imp clk sp conv now).
    split; [|apply carries_fresh].
    apply rows_of_unique with (length t); [done| |done].
    by rewrite lookup_app_r, Nat.sub_diag.
Qed.

(** A second call with the same values only moves the update stamp. *)
Lemma upsert_again i p c name d bt bv imp clk sp conv now t r :
  unique_keys t →
  rows_of (i, p, c, d, bt, bv) t = [r] → carries name imp clk sp conv r →
  forget_stamp <$> upsert i p c name d bt bv imp clk sp conv now t = forget_stamp <$> t.
Proof.
  intros Hu Hrows Hc.
  destruct (upsert_cases i p c name d bt bv imp clk sp conv now t)
    as [(pos & r0 & Hpos & Hk & ->)|[Hnone _]].
  - assert (r0 = r) as ->.
    { pose proof (rows_of_unique _ t pos r0 Hu Hpos Hk) as E. congruence. }
    rewrite list_fmap_insert, forget_stamp_overwrite by done.
    apply list_insert_id. by rewrite list_lookup_fmap, Hpos.
  - exfalso. assert (r ∈ rows_of (i, p, c, d, bt, bv) t) as Hin by (rewrite Hrows; left).
    apply list_elem_of_filter in Hin as [Hk Hin].
    rewrite Forall_forall in Hnone. by apply (Hnone r).
Qed.

Lemma upsert_repeat_unique_keys i p c name d bt bv imp clk sp conv nows t :
  unique_keys t →
  unique_keys (upsert_repeat i p c name d bt bv imp clk sp conv nows t).
Proof.
  unfold upsert_repeat. revert t.
  induction nows as [|now nows IH]; intros t Hu; simpl; [done|].
  apply IH. by apply upsert_unique_keys.
Qed.

Lemma upsert_repeat_again i p c name d bt bv imp clk sp conv nows t r :
  unique_keys t →
  rows_of (i, p, c, d, bt, bv) t = [r] → carries name imp clk sp conv r →
  forget_stamp <$> upsert_repeat i p c name d bt bv imp clk sp conv nows t
  = forget_stamp <$> t
  ∧ ∃ r', rows_of (i, p, c, d, bt, bv)
            (upsert_repeat i p c name d bt bv imp clk sp conv nows t) = [r']
          ∧ carries name imp clk sp conv r'.
Proof.
  unfold upsert_repeat. revert t r.
  induction nows as [|now nows IH]; intros t r Hu Hrows Hc; simpl.
  - eauto.
  - destruct (upsert_rows_of i p c name d bt bv imp clk sp conv now t Hu)
      as (r1 & Hrows1 & Hc1).
    destruct (IH _ r1 (upsert_unique_keys i p c name d bt bv imp clk sp conv now t Hu)
                Hrows1 Hc1) as [E Hex].
    split; [|done]. rewrite E. by eapply upsert_again.
Qed.

(** C2.  The upsert is idempotent.  On a table that satisfies the unique
    constraint, calling it N ≥ 1 times with the same key and the same metric
    values (at the clock readings [now :: nows]) leaves what one call leaves,
    the update stamp of the row apart: the key selects exactly one row, that
    row holds the campaign name and the numeric fields of the call, and every
    row of the table agrees with the table after a single call. *)
Theorem upsert_idempotent i p c name d bt bv imp clk sp conv now nows t :
  unique_keys t →
  let once := upsert i p c name d bt bv imp clk sp conv now t in
  let many := upsert_repeat i p c name d bt bv imp clk sp conv (now :: nows) t in
  forget_stamp <$> many = forget_stamp <$> once
  ∧ unique_keys many
  ∧ ∃ r, rows_of (i, p, c, d, bt, bv) many = [r]
         ∧ campaign_name_platform r = name
         ∧ impressions r = imp ∧ clicks r = clk
         ∧ spend r = sp ∧ conversions r = conv.
Proof.
  intros Hu once many.
  destruct (upsert_rows_of i p c name d bt bv imp clk sp conv now t Hu)
    as (r1 & Hrows1 & Hc1).
  pose proof (upsert_unique_keys i p c name d bt bv imp clk sp conv now t Hu) as Hu1.
  destruct (upsert_repeat_again i p c name d bt bv imp clk sp conv nows _ r1
              Hu1 Hrows1 Hc1) as [E (r & Hrows & Hc)].
  split_and!.
  - exact E.
  - by apply (upsert_repeat_unique_keys i p c name d bt bv imp clk sp conv (now :: nows)).
  - exists r. split; [exact Hrows|exact Hc].
Qed.

Lemma upsert_idempotent_on_two_facts :
  unique_keys Samples.two_facts
  ∧ (forget_stamp <$> upsert_repeat 1 GOOGLE_ADS "42" "Brand" Samples.oct_30
                        "device" "mobile" 1000 50 (617 # 50)%Q 3
                        [2000; 2060; 2120] Samples.two_facts
     = forget_stamp <$> upsert 1 GOOGLE_ADS "42" "Brand" Samples.oct_30
                          "device" "mobile" 1000 50 (617 # 50)%Q 3
                          2000 Samples.two_facts)
  ∧ unique_keys (upsert_repeat 1 GOOGLE_ADS "42" "Brand" Samples.oct_30
                   "device" "mobile" 1000 50 (617 # 50)%Q 3
                   [2000; 2060; 2120] Samples.two_facts)
  ∧ ∃ r, rows_of (1, GOOGLE_ADS, "42", Samples.oct_30, "device", "mobile")
           (upsert_repeat 1 GOOGLE_ADS "42" "Brand" Samples.oct_30
              "device" "mobile" 1000 50 (617 # 50)%Q 3
              [2000; 2060; 2120] Samples.two_facts) = [r]
         ∧ campaign_name_platform r = "Brand"
         ∧ impressions r = 1000 ∧ clicks r = 50
         ∧ spend r = (617 # 50)%Q ∧ conversions r = 3.
Proof.
  assert (unique_keys Samples.two_facts) as Hu.
  { apply (bool_decide_unpack _). vm_compute. reflexivity. }
  split; [exact Hu|].
  exact (upsert_idempotent 1 GOOGLE_ADS "42" "Brand" Samples.oct_30
           "device" "mobile" 1000 50 (617 # 50)%Q 3 2000 [2060; 2120]
           Samples.two_facts Hu).
Defined.

(** *** The rollup step *)

Lemma func_sum_default f (l : list CampaignData) :
  l ≠ [] → default 0 (func_sum f l) = total f l.
Proof. by destruct l. Qed.

Lemma func_sum_spend_default (l : list CampaignData) :
  l ≠ [] → default (0#1)%Q (func_sum_spend l) = total_spend_of l.
Proof. by destruct l. Qed.

Lemma recompute_overall_cases i p now c d nm t :
  (device_facts i p c d t = [] ∧ recompute_overall i p now (c, d, nm) t = t)
  ∨ (device_facts i p c d t ≠ []
     ∧ recompute_overall i p now (c, d, nm) t
       = upsert i p c nm d "overall" "N/A"
           (total impressions (device_facts i p c d t))
           (total clicks (device_facts i p c d t))
           (total_spend_of (device_facts i p c d t))
           (total conversions (device_facts i p c d t)) now t).
Proof.
  unfold recompute_overall.
  destruct (device_facts i p c d t) as [|x rows] eqn:E; [by left|right].
  split; [done|]. reflexivity.
Qed.

Lemma recompute_overall_unique_keys i p now e t :
  unique_keys t → unique_keys (recompute_overall i p now e t).
Proof.
  destruct e as [[c d] nm]. intros Hu.
  destruct (recompute_overall_cases i p now c d nm t) as [[_ ->]|[_ ->]]; [done|].
  by apply upsert_unique_keys.
Qed.

(** The rollup writes no device fact. *)
Lemma recompute_overall_device i p now e t i' p' c' d' :
  device_facts i' p' c' d' (recompute_overall i p now e t) = device_facts i' p' c' d' t.
Proof.
  destruct e as [[c d] nm].
  destruct (recompute_overall_cases i p now c d nm t) as [[_ ->]|[_ ->]]; [done|].
  unfold device_facts. apply upsert_filter_other.
  intros r (_ & _ & _ & Hbt & _) Hk.
  unfold key_of in Hk. injection Hk as _ _ _ _ Hbt' _. congruence.
Qed.

(** It writes under one key only. *)
Lemma recompute_overall_other i p now c d nm t i' p' c' d' :
  (i', p', c', d') ≠ (i, p, c, d) →
  overall_facts i' p' c' d' (recompute_overall i p now (c, d, nm) t)
  = overall_facts i' p' c' d' t.
Proof.
  intros Hne.
  destruct (recompute_overall_cases i p now c d nm t) as [[_ ->]|[_ ->]]; [done|].
  unfold overall_facts, rows_of. apply upsert_filter_other.
  intros r Hk Hk'. rewrite Hk in Hk'. congruence.
Qed.

(** And only when the key has device facts. *)
Lemma recompute_overall_skips i p now c d nm t :
  device_facts i p c d t = [] → recompute_overall i p now (c, d, nm) t = t.
Proof.
  intros E. destruct (recompute_overall_cases i p now c d nm t) as [[_ ->]|[Hne _]]; done.
Qed.

Lemma recompute_overall_ok i p now c d nm t :
  unique_keys t → rollup_ok i p c d (recompute_overall i p now (c, d, nm) t).
Proof.
  intros Hu Hdev. rewrite recompute_overall_device in Hdev |- *.
  destruct (recompute_overall_cases i p now c d nm t) as [[? _]|[_ ->]]; [done|].
  edestruct upsert_rows_of as (o & Hrows & Hc); [exact Hu|].
  exists o. split; [exact Hrows|].
  destruct Hc as (_ & -> & -> & -> & ->). done.
Qed.

Lemma rollup_ok_transfer i p c d (t t' : table) :
  device_facts i p c d t' = device_facts i p c d t →
  overall_facts i p c d t' = overall_facts i p c d t →
  rollup_ok i p c d t → rollup_ok i p c d t'.
Proof. unfold rollup_ok. intros -> ->. done. Qed.

End StoreFacts.

(** ** The rollup after a fetch *)

Module FetchFacts.
Import Store Normalizer Fetch StoreFacts.

#[local] Arguments recompute_overall : simpl never.
#[local] Arguments upsert : simpl never.

Lemma frame_mono T T' i p t0 t :
  T ⊆ T' → frame T i p t0 t → frame T' i p t0 t.
Proof.
  intros Hsub (Hu & Ho & Hd). split_and!; [done..|].
  intros i' p' c d Hnt. apply Hd. intros (-> & -> & nm & Hin).
  apply Hnt. split_and!; [done..|]. exists nm. by apply Hsub.
Qed.

Lemma session_frame_mono T T' i p t0 s :
  T ⊆ T' → session_frame T i p t0 s → session_frame T' i p t0 s.
Proof. intros Hsub [??]. split; by eapply frame_mono. Qed.

Lemma frame_begin i p t : unique_keys t → session_frame ∅ i p t (begin t).
Proof. intros Hu. by split; split_and!. Qed.

Lemma session_frame_commit T i p t0 s ok :
  session_frame T i p t0 s → session_frame T i p t0 (try_commit ok s).
Proof. intros [??]. by destruct ok; split. Qed.

Lemma session_frame_rollback T i p t0 s :
  session_frame T i p t0 s → session_frame T i p t0 (rollback s).
Proof. intros [??]. by split. Qed.

(** An upsert of a vendor fact stays within the frame of its (campaign,
    date) pair. *)
Lemma upsert_frame T i p t0 t c nm nm' d bt bv imp clk sp conv now :
  bt ≠ "overall" → (c, d, nm') ∈ T →
  frame T i p t0 t →
  frame T i p t0 (upsert i p c nm d bt bv imp clk sp conv now t).
Proof.
  intros Hbt Hin (Hu & Ho & Hd). split_and!.
  - by apply upsert_unique_keys.
  - intros i' p' c' d'. rewrite <- Ho. unfold overall_facts, rows_of.
    apply upsert_filter_other. intros r Hk Hk'. rewrite Hk in Hk'. congruence.
  - intros i' p' c' d' Hnt. rewrite <- Hd by done. unfold device_facts.
    apply upsert_filter_other. intros r (Hi & Hc & Hdt & _ & Hp) Hk.
    apply Hnt. unfold key_of in Hk. injection Hk as Hi' Hp' Hc' Hd' _ _.
    split_and!; [congruence..|]. exists nm'. congruence.
Qed.

(** An upsert under another dimension than the device touches neither. *)
Lemma upsert_frame_other_dimension T i p t0 t c nm d bt bv imp clk sp conv now :
  bt ≠ "overall" → bt ≠ "device" →
  frame T i p t0 t →
  frame T i p t0 (upsert i p c nm d bt bv imp clk sp conv now t).
Proof.
  intros Hbt Hbt' (Hu & Ho & Hd). split_and!.
  - by apply upsert_unique_keys.
  - intros i' p' c' d'. rewrite <- Ho. unfold overall_facts, rows_of.
    apply upsert_filter_other. intros r Hk Hk'. rewrite Hk in Hk'. congruence.
  - intros i' p' c' d' Hnt. rewrite <- Hd by done. unfold device_facts.
    apply upsert_filter_other. intros r (_ & _ & _ & Hdev & _) Hk.
    unfold key_of in Hk. injection Hk as _ _ _ _ Hb _. congruence.
Qed.

(** *** The rollup loop *)

Lemma recompute_list i p now (l : list campaign_date) t :
  unique_keys t →
  let t' := foldl (λ acc entry, recompute_overall i p now entry acc) t l in
  unique_keys t'
  ∧ (∀ i' p' c d, device_facts i' p' c d t' = device_facts i' p' c d t)
  ∧ (∀ i' p' c d, ¬ (i' = i ∧ p' = p ∧ ∃ nm, (c, d, nm) ∈ l) →
                  overall_facts i' p' c d t' = overall_facts i' p' c d t)
  ∧ (∀ c d nm, (c, d, nm) ∈ l → rollup_ok i p c d t')
  ∧ (∀ i' p' c d, device_facts i' p' c d t = [] →
                  overall_facts i' p' c d t' = overall_facts i' p' c d t).
Proof.
  intros Hu. induction l as [|[[c0 d0] nm0] l IH] using rev_ind; simpl.
  - split_and!; try done. intros c d nm Hin. by apply elem_of_nil in Hin.
  - rewrite foldl_app. simpl.
    destruct IH as (Hu1 & Hdev & Hov & Hok & Hskip).
    set (t1 := foldl (λ acc entry, recompute_overall i p now entry acc) t l) in *.
    split_and!.
    + by apply recompute_overall_unique_keys.
    + intros i' p' c d. by rewrite recompute_overall_device.
    + intros i' p' c d Hnt. rewrite recompute_overall_other.
      * apply Hov. intros (-> & -> & nm & Hin). apply Hnt.
        split_and!; [done..|]. exists nm. apply elem_of_app. by left.
      * intros [= -> -> -> ->]. apply Hnt. split_and!; [done..|].
        exists nm0. apply elem_of_app. right. left.
    + intros c d nm Hin.
      destruct (decide ((c, d) = (c0, d0))) as [[= -> ->]|Hne].
      * by apply recompute_overall_ok.
      * apply elem_of_app in Hin as [Hin|Hin].
        -- apply rollup_ok_transfer with t1; [apply recompute_overall_device| |by eapply Hok].
           apply recompute_overall_other. congruence.
        -- apply list_elem_of_singleton in Hin. congruence.
    + intros i' p' c d Hnone.
      destruct (decide ((i', p', c, d) = (i, p, c0, d0))) as [[= -> -> -> ->]|Hne].
      * rewrite recompute_overall_skips; [by apply Hskip|]. by rewrite Hdev.
      * rewrite recompute_overall_other by done. by apply Hskip.
Qed.

Lemma seen_dec (l : list campaign_date) c d :
  (∃ nm, (c, d, nm) ∈ l) ∨ ¬ (∃ nm, (c, d, nm) ∈ l).
Proof.
  destruct (decide (Exists (λ e : campaign_date, e.1 = (c, d)) l)) as [H|H].
  - left. apply Exists_exists in H as ([[c' d'] nm] & Hin & [= -> ->]). eauto.
  - right. intros [nm Hin]. apply H, Exists_exists. by exists (c, d, nm).
Qed.

(** From a frame, the rollup over the pairs seen restores the invariant. *)
Lemma rollup_establishes T i p now t0 t :
  rollup_invariant t0 → frame T i p t0 t →
  unique_keys (recompute_all i p now T t)
  ∧ rollup_invariant (recompute_all i p now T t)
  ∧ no_rollup_without_device t0 (recompute_all i p now T t).
Proof.
  intros Hinv (Hu & Ho & Hd). unfold recompute_all.
  destruct (recompute_list i p now (elements T) t Hu)
    as (Hu' & Hdev & Hov & Hok & Hskip).
  split_and!; [done| |].
  - intros i' p' c d.
    destruct (decide (i' = i)) as [->|Hi];
      [destruct (decide (p' = p)) as [->|Hp];
        [destruct (seen_dec (elements T) c d) as [[nm Hin]|Hno]|]|].
    + by eapply Hok.
    + apply rollup_ok_transfer with t0; [| |apply Hinv].
      * rewrite Hdev. apply Hd. intros (_ & _ & nm & Hin). apply Hno.
        exists nm. by apply elem_of_elements.
      * rewrite Hov; [apply Ho|]. intros (_ & _ & H). done.
    + apply rollup_ok_transfer with t0; [| |apply Hinv].
      * rewrite Hdev. apply Hd. by intros (_ & ? & _).
      * rewrite Hov; [apply Ho|]. by intros (_ & ? & _).
    + apply rollup_ok_transfer with t0; [| |apply Hinv].
      * rewrite Hdev. apply Hd. by intros (? & _).
      * rewrite Hov; [apply Ho|]. by intros (? & _).
  - intros i' p' c d Hnone. rewrite Hdev in Hnone.
    rewrite Hskip by done. apply Ho.
Qed.

(** Without a rollup, an empty frame changes nothing the invariant reads. *)
Lemma frame_empty_keeps i p t0 t :
  rollup_invariant t0 → frame ∅ i p t0 t →
  unique_keys t ∧ rollup_invariant t ∧ no_rollup_without_device t0 t.
Proof.
  intros Hinv (Hu & Ho & Hd).
  assert (∀ i' p' c d, device_facts i' p' c d t = device_facts i' p' c d t0) as Hd'.
  { intros. apply Hd. intros (_ & _ & nm & Hin). set_solver. }
  split_and!; [done| |].
  - intros i' p' c d. apply rollup_ok_transfer with t0; [apply Hd'|apply Ho|apply Hinv].
  - intros i' p' c d _. apply Ho.
Qed.

(** *** Google Ads: the batch loop stays within its frame *)

Lemma store_google_row_frame T i t0 t now row :
  google_entry row ∈ T →
  frame T i GOOGLE_ADS t0 t →
  frame T i GOOGLE_ADS t0 (store_google_row i now row t).
Proof.
  intros Hin Hf. unfold store_google_row.
  repeat (eapply upsert_frame; [done|exact Hin|]). exact Hf.
Qed.

Lemma google_row_step_frame i now t0 st indexed :
  session_frame (processed_campaign_dates st) i GOOGLE_ADS t0 (sess st) →
  session_frame (processed_campaign_dates (google_row_step i now st indexed))
                i GOOGLE_ADS t0 (sess (google_row_step i now st indexed)).
Proof.
  intros Hf. apply (session_frame_mono _ ({[ google_entry indexed.2 ]}
                      ∪ processed_campaign_dates st)) in Hf; [|set_solver].
  destruct Hf as [Hp Hc]. split; [|exact Hc]. simpl.
  apply store_google_row_frame; [set_solver|exact Hp].
Qed.

Lemma google_rows_frame i now t0 (l : list (nat * GoogleRow)) st :
  session_frame (processed_campaign_dates st) i GOOGLE_ADS t0 (sess st) →
  session_frame (processed_campaign_dates (foldl (google_row_step i now) st l))
                i GOOGLE_ADS t0 (sess (foldl (google_row_step i now) st l)).
Proof.
  revert st. induction l as [|x l IH]; intros st Hf; [done|].
  simpl. apply IH. by apply google_row_step_frame.
Qed.

Lemma google_batches_frame i now t0 events st :
  session_frame (processed_campaign_dates st) i GOOGLE_ADS t0 (sess st) →
  session_frame (processed_campaign_dates (google_batches i now events st).1)
                i GOOGLE_ADS t0 (sess (google_batches i now events st).1).
Proof.
  revert st. induction events as [|[results ok|] events IH]; intros st Hf; [done| |done].
  simpl.
  pose proof (google_rows_frame i now t0 (imap pair results) st Hf) as Hf1.
  destruct (row_count (foldl (google_row_step i now) st (imap pair results)))
    as [n|]; [|done].
  apply IH. destruct (0 <? n)%nat; [|done]. simpl.
  by apply session_frame_commit.
Qed.

(** *** Meta Ads: the breakdown loop stays within its frame *)

Lemma store_meta_item_frame T i t0 t now bt field item t' :
  bt ≠ "overall" →
  (bt = "device" → ∀ e, meta_entry item = Some e → e ∈ T) →
  store_meta_item i now bt field item t = Some t' →
  frame T i META_ADS t0 t → frame T i META_ADS t0 t'.
Proof.
  intros Hbt Hin Hs Hf. unfold store_meta_item in Hs.
  destruct (item_campaign_id item) as [cid|] eqn:Ecid; [|done].
  destruct (item_date_start item) as [dt|] eqn:Edt; [|done].
  simpl in Hs. injection Hs as <-.
  destruct (decide (bt = "device")) as [Hdev|Hdev].
  - eapply upsert_frame; [done| |done].
    apply Hin; [done|]. unfold meta_entry. rewrite Ecid, Edt. reflexivity.
  - by apply upsert_frame_other_dimension.
Qed.

Lemma store_meta_items_frame T i t0 now bt field items : ∀ t t',
  bt ≠ "overall" →
  (bt = "device" → ∀ e, e ∈ omap meta_entry items → e ∈ T) →
  store_meta_items i now bt field items t = Some t' →
  frame T i META_ADS t0 t → frame T i META_ADS t0 t'.
Proof.
  induction items as [|item items IH]; intros t t' Hbt Hin Hs Hf; simpl in Hs.
  - by injection Hs as <-.
  - destruct (store_meta_item i now bt field item t) as [t1|] eqn:E1; [|done].
    simpl in Hs. eapply IH; [done| |exact Hs|].
    + intros Hd e He. apply Hin; [done|]. simpl.
      destruct (meta_entry item); [by right|done].
    + eapply store_meta_item_frame; [done| |exact E1|exact Hf].
      intros Hd e He. apply Hin; [done|]. simpl. rewrite He. left.
Qed.

Lemma process_meta_frame T i t0 now data bt field t flag t' :
  bt ≠ "overall" →
  (bt = "device" → ∀ e, e ∈ omap meta_entry (default [] data) → e ∈ T) →
  _process_and_store_meta_breakdown i now data bt field t = Some (flag, t') →
  frame T i META_ADS t0 t → frame T i META_ADS t0 t'.
Proof.
  intros Hbt Hin Hs Hf. unfold _process_and_store_meta_breakdown in Hs.
  destruct data as [[|item items]|]; try by (injection Hs as _ <-).
  destruct (store_meta_items i now bt field (item :: items) t) as [t1|] eqn:E; [|done].
  simpl in Hs. injection Hs as _ <-.
  eapply store_meta_items_frame; [done|exact Hin|exact E|exact Hf].
Qed.

Lemma config_dimension config :
  config ∈ breakdown_configs →
  db_type config ≠ "overall"
  ∧ (db_type config = "device" → String.eqb (config_name config) "device" = true).
Proof.
  unfold breakdown_configs. intros H.
  repeat (apply elem_of_cons in H as [->|H]; [by split|]).
  by apply elem_of_nil in H.
Qed.

Lemma meta_config_step_frame i now api t0 st config :
  config ∈ breakdown_configs →
  session_frame (processed_overall_campaign_dates st) i META_ADS t0 (meta_sess st) →
  session_frame (processed_overall_campaign_dates (meta_config_step i now api st config))
                i META_ADS t0 (meta_sess (meta_config_step i now api st config)).
Proof.
  intros Hcfg Hf. destruct (config_dimension config Hcfg) as [Hbt Hdev].
  unfold meta_config_step.
  destruct (api (api_param config)) as [|data ok]; [done|].
  destruct (_process_and_store_meta_breakdown i now data (db_type config)
              (api_param config) (pending (meta_sess st)))
    as [[[|] t']|] eqn:E; [| done | by apply session_frame_rollback].
  destruct ok; simpl.
  - set (T' := if String.eqb (config_name config) "device"
               then list_to_set (omap meta_entry (default [] data))
                    ∪ processed_overall_campaign_dates st
               else processed_overall_campaign_dates st).
    assert (processed_overall_campaign_dates st ⊆ T') as Hsub.
    { unfold T'. destruct (String.eqb _ _); set_solver. }
    assert (frame T' i META_ADS t0 t') as Hf'.
    { eapply process_meta_frame; [exact Hbt| |exact E|].
      - intros Hd e He. unfold T'. rewrite (Hdev Hd). set_solver.
      - eapply frame_mono; [exact Hsub|]. apply Hf. }
    by split.
  - destruct Hf as [_ Hc]. by split.
Qed.

Lemma meta_loop_frame i now api t0 (configs : list breakdown_config) st :
  (∀ config, config ∈ configs → config ∈ breakdown_configs) →
  session_frame (processed_overall_campaign_dates st) i META_ADS t0 (meta_sess st) →
  session_frame
    (processed_overall_campaign_dates (foldl (meta_config_step i now api) st configs))
    i META_ADS t0 (meta_sess (foldl (meta_config_step i now api) st configs)).
Proof.
  revert st. induction configs as [|config configs IH]; intros st Hall Hf; [done|].
  simpl. apply IH.
  - intros c Hc. apply Hall. by right.
  - apply meta_config_step_frame; [|done]. apply Hall. left.
Qed.

(** C1 (amended).  Take a table that satisfies the unique constraint and the
    rollup invariant.  After a Google Ads run that ends with its success
    message (the stream raised no vendor error and the final commit went
    through), and after a Meta Ads run whose final commit did not fail, the
    table again satisfies both: every (integration, campaign, date) key with
    at least one device fact has exactly one overall/N/A fact, whose
    impressions, clicks, spend and conversions are the sums over the device
    facts of the key; and no overall fact was created or changed under a key
    without device facts. *)
Theorem rollup_after_completed_run t :
  unique_keys t → rollup_invariant t →
  (∀ integration now events overall_commit_ok,
     let run := google_ads_fetch_data integration now events overall_commit_ok t in
     google_flash run = Google_saved →
     unique_keys (google_stored run)
     ∧ rollup_invariant (google_stored run)
     ∧ no_rollup_without_device t (google_stored run))
  ∧ (∀ integration now api overall_commit_ok,
       let run := meta_ads_fetch_data integration now api overall_commit_ok t in
       meta_flash run ≠ Meta_overall_not_saved →
       unique_keys (meta_stored run)
       ∧ rollup_invariant (meta_stored run)
       ∧ no_rollup_without_device t (meta_stored run)).
Proof.
  intros Hu Hinv. split.
  - intros integration now events ok. unfold google_ads_fetch_data.
    set (st0 := {| sess := begin t; processed_campaign_dates := ∅; row_count := None |}).
    pose proof (google_batches_frame integration now t events st0
                  (frame_begin integration GOOGLE_ADS t Hu)) as [Hp _].
    destruct (google_batches integration now events st0) as [st [[|]|]]; simpl; [done..|].
    destruct ok; [intros _|done]. simpl.
    by apply rollup_establishes.
  - intros integration now api ok. unfold meta_ads_fetch_data.
    set (st0 := {| meta_sess := begin t; processed_overall_campaign_dates := ∅;
                   all_fetches_successful := true |}).
    pose proof (meta_loop_frame integration now api t breakdown_configs st0
                  (λ _ H, H) (frame_begin integration META_ADS t Hu)) as [Hp Hc].
    set (st := foldl (meta_config_step integration now api) st0 breakdown_configs) in *.
    destruct (decide (processed_overall_campaign_dates st = ∅)) as [E|_]; simpl.
    + intros _. rewrite E in Hc. by eapply frame_empty_keeps.
    + destruct ok; [intros _|done]. simpl. by apply rollup_establishes.
Qed.

Lemma rollup_invariant_nil : rollup_invariant [].
Proof. intros i p c d H. by destruct H. Qed.

Lemma rollup_after_completed_sample_runs :
  unique_keys [] ∧ rollup_invariant []
  ∧ rollup_invariant
      (google_stored (google_ads_fetch_data 1 2000 Samples.complete_stream true []))
  ∧ rollup_invariant
      (meta_stored (meta_ads_fetch_data 2 2000 Samples.meta_api true [])).
Proof.
  pose proof (rollup_after_completed_run [] (NoDup_nil_2 : unique_keys [])
                rollup_invariant_nil) as [Hg Hm].
  split_and!.
  - constructor.
  - exact rollup_invariant_nil.
  - apply (Hg 1 2000 Samples.complete_stream true). reflexivity.
  - apply (Hm 2 2000 Samples.meta_api true). vm_compute. discriminate.
Defined.

(** C1, as stated, fails.  From the empty table (unique, invariant holding),
    a Google Ads run whose stream yields one batch of two rows and then the
    vendor's error keeps the committed batch and never reaches the rollup:
    the key (1, GoogleAds, "42", 2026-10-30) has two device facts and no
    overall fact. *)
Lemma rollup_missing_after_vendor_error :
  unique_keys [] ∧ rollup_invariant []
  ∧ google_flash (google_ads_fetch_data 1 2000 Samples.interrupted_stream true [])
    = Google_api_error
  ∧ length (device_facts 1 GOOGLE_ADS "42" Samples.oct_30
              (google_stored
                 (google_ads_fetch_data 1 2000 Samples.interrupted_stream true [])))
    = 2%nat
  ∧ overall_facts 1 GOOGLE_ADS "42" Samples.oct_30
      (google_stored (google_ads_fetch_data 1 2000 Samples.interrupted_stream true []))
    = []
  ∧ ¬ rollup_invariant
        (google_stored (google_ads_fetch_data 1 2000 Samples.interrupted_stream true [])).
Proof.
  split_and!.
  - constructor.
  - exact rollup_invariant_nil.
  - reflexivity.
  - vm_compute. reflexivity.
  - vm_compute. reflexivity.
  - intros Hinv. specialize (Hinv 1 GOOGLE_ADS "42" Samples.oct_30).
    destruct Hinv as (o & Ho & _).
    + vm_compute. discriminate.
    + vm_compute in Ho. discriminate.
Qed.

(** *** The trailing window *)

(** C4 (amended).  The Meta route reads the clock once and asks for the
    range from seven days before that day to that day, both bounds included:
    eight dates, today among them.  The Google route reads [date.today()]
    twice, first for the upper bound and then for the lower one: the
    literals it sends are the day of the first reading and the day seven
    days before the second reading.  When both readings fall on the same day
    that is the same eight dates; when midnight passes between them it is
    the seven dates before the day of the second reading, which is not among
    them. *)
Theorem window_follows_the_clock_readings :
  (∀ first second,
     range_text (google_date_range first second)
     = (isoformat (second - 7), isoformat first)
     ∧ (∀ d, covers (google_date_range first second) d ↔ second - 7 ≤ d ≤ first))
  ∧ (∀ today,
       days_of (google_date_range today today) = eight_days_to today
       ∧ covers (google_date_range today today) today)
  ∧ (∀ today,
       days_of (google_date_range today (today + 1)) = seven_days_before (today + 1)
       ∧ ¬ covers (google_date_range today (today + 1)) (today + 1))
  ∧ (∀ utc_today,
       range_text (meta_date_range utc_today)
       = (isoformat (utc_today - 7), isoformat utc_today)
       ∧ (∀ d, covers (meta_date_range utc_today) d ↔ utc_today - 7 ≤ d ≤ utc_today)
       ∧ days_of (meta_date_range utc_today) = eight_days_to utc_today
       ∧ covers (meta_date_range utc_today) utc_today)
  ∧ (∀ today,
       length (eight_days_to today) = 8%nat
       ∧ today ∈ eight_days_to today
       ∧ length (seven_days_before today) = 7%nat
       ∧ today ∉ seven_days_before today).
Proof.
  split_and!.
  - intros first second. split; [reflexivity|]. intros d. unfold covers. simpl. lia.
  - intros today. split; [|unfold covers; simpl; lia].
    unfold days_of, eight_days_to. simpl.
    by replace (today - (today - 7) + 1) with 8 by lia.
  - intros today. split; [|unfold covers; simpl; lia].
    unfold days_of, seven_days_before. simpl.
    by replace (today - (today + 1 - 7) + 1) with 7 by lia.
  - intros utc_today. split; [reflexivity|]. split; [intros d; unfold covers; simpl; lia|].
    split; [|unfold covers; simpl; lia].
    unfold days_of, eight_days_to. simpl.
    by replace (utc_today - (utc_today - 7) + 1) with 8 by lia.
  - intros today. split; [reflexivity|]. split.
    + apply list_elem_of_fmap. exists 7%nat. split; [lia|].
      apply elem_of_seq. lia.
    + split; [reflexivity|].
      intros (k & Hk & Hin)%list_elem_of_fmap. apply elem_of_seq in Hin. lia.
Qed.

(** C4, as stated, fails: on 2026-11-03, with both readings of the clock on
    that day, both routes ask for the range '2026-10-27' .. '2026-11-03',
    which contains today and is not the seven days before it. *)
Lemma window_contains_today :
  range_text (google_date_range Samples.nov_3 Samples.nov_3)
  = pair "2026-10-27" "2026-11-03"
  ∧ range_text (meta_date_range Samples.nov_3) = pair "2026-10-27" "2026-11-03"
  ∧ covers (google_date_range Samples.nov_3 Samples.nov_3) Samples.nov_3
  ∧ covers (meta_date_range Samples.nov_3) Samples.nov_3
  ∧ (Samples.nov_3 ∉ seven_days_before Samples.nov_3)
  ∧ days_of (google_date_range Samples.nov_3 Samples.nov_3)
    ≠ seven_days_before Samples.nov_3
  ∧ days_of (meta_date_range Samples.nov_3) ≠ seven_days_before Samples.nov_3.
Proof.
  split_and!.
  - vm_compute. reflexivity.
  - vm_compute. reflexivity.
  - unfold covers. simpl. unfold Samples.nov_3. lia.
  - unfold covers. simpl. unfold Samples.nov_3. lia.
  - apply (bool_decide_unpack _). vm_compute. reflexivity.
  - vm_compute. discriminate.
  - vm_compute. discriminate.
Qed.

(** The request that midnight divides: the first reading on 2026-11-03, the
    second on 2026-11-04. *)
Lemma window_across_midnight :
  range_text (google_date_range Samples.nov_3 (Samples.nov_3 + 1))
  = pair "2026-10-28" "2026-11-03".
Proof. vm_compute. reflexivity. Qed.

End FetchFacts.

(** ** Breakdown normalisation *)

Module NormalizerFacts.
Import PyStr Normalizer.

Lemma prefix_empty s : String.prefix "" s = true.
Proof. by destruct s. Qed.

Lemma contains_here needle s : String.prefix needle s = true → contains needle s = true.
Proof. intros H. destruct s; cbn [contains]; by rewrite H. Qed.

Lemma contains_later needle ch s :
  contains needle s = true → contains needle (String ch s) = true.
Proof. intros H. cbn [contains]. rewrite H. by destruct (String.prefix _ _). Qed.

Lemma last_segment_later ch s :
  contains "/" s = true → last_segment (String ch s) = last_segment s.
Proof. intros H. cbn [last_segment]. by rewrite H. Qed.

Lemma last_segment_slash s :
  contains "/" s = false → last_segment (String "/" s) = s.
Proof. intros H. cbn [last_segment]. by rewrite H. Qed.

Lemma google_country_code code :
  contains "/" code = false → google_country ("countries/" +:+ code) = code.
Proof.
  intros Hcode. unfold google_country.
  change ("countries/" +:+ code) with
    (String "c" (String "o" (String "u" (String "n" (String "t" (String "r"
      (String "i" (String "e" (String "s" (String "/" code)))))))))).
  assert (contains "/" (String "/" code) = true) as Hs
    by (apply contains_here; cbn; apply prefix_empty).
  rewrite contains_here by (cbn; apply prefix_empty).
  cbn [String.eqb negb andb Ascii.eqb Bool.eqb].
  rewrite !last_segment_later by (repeat first [exact Hs | apply contains_later]).
  by apply last_segment_slash.
Qed.

Lemma google_country_unknown resource :
  contains "countries/" resource = false → google_country resource = "unknown".
Proof.
  intros H. unfold google_country. rewrite H. by rewrite andb_false_r.
Qed.

Lemma google_device_canonical e :
  canonical Dim_device (google_device e)
  ∧ (google_device e = "unknown" ↔ e ∉ [MOBILE; DESKTOP; TABLET; CONNECTED_TV]).
Proof.
  assert (canonical Dim_device (google_device e)) as Hc.
  { destruct e; simpl; unfold canonical_device; set_solver. }
  split; [exact Hc|].
  destruct e; split; intros H; try done;
    try (exfalso; apply H; set_solver);
    rewrite !elem_of_cons, elem_of_nil; naive_solver.
Qed.

Lemma google_age_canonical e :
  canonical Dim_age_range (google_age e)
  ∧ (google_age e = "unknown"
     ↔ e ∉ [AGE_RANGE_18_24; AGE_RANGE_25_34; AGE_RANGE_65_UP]).
Proof.
  assert (canonical Dim_age_range (google_age e)) as Hc.
  { destruct e; simpl; unfold canonical_age; set_solver. }
  split; [exact Hc|].
  destruct e; split; intros H; try done;
    try (exfalso; apply H; set_solver);
    rewrite !elem_of_cons, elem_of_nil; naive_solver.
Qed.

Lemma google_gender_canonical e :
  canonical Dim_gender (google_gender e)
  ∧ (google_gender e = "unknown" ↔ e ∉ [FEMALE; MALE; UNDETERMINED]).
Proof.
  assert (canonical Dim_gender (google_gender e)) as Hc.
  { destruct e; simpl; unfold canonical_gender; set_solver. }
  split; [exact Hc|].
  destruct e; split; intros H; try done;
    try (exfalso; apply H; set_solver);
    rewrite !elem_of_cons, elem_of_nil; naive_solver.
Qed.

Lemma meta_device_value v :
  meta_breakdown_value "device" (Some v)
  = if contains "mobile" (lower v) then "mobile"
    else if contains "desktop" (lower v) then "desktop"
    else if contains "tablet" (lower v) then "tablet"
    else v.
Proof. reflexivity. Qed.

Lemma meta_other_value dim field :
  dim ≠ Dim_device →
  meta_breakdown_value (dimension_name dim) field = default "unknown" field.
Proof. by destruct dim. Qed.

(** C5 (amended).  On Google Ads the device, age-range and gender
    normalisers are total, return a value of the canonical set of their
    dimension and return "unknown" exactly on the enum members they do not
    name (the age normaliser names three buckets: 18-24, 25-34, 65+); the
    country normaliser turns "countries/XX" into XX and a resource name
    without "countries/" into "unknown".  On Meta Ads an absent field is
    "unknown"; a device value that contains "mobile", "desktop" or "tablet"
    (tested in this order, letter case ignored) becomes that word; every
    other value, of any dimension, is kept as the vendor sent it. *)
Theorem normalizer_behaviour :
  (∀ e, canonical Dim_device (google_device e)
        ∧ (google_device e = "unknown" ↔ e ∉ [MOBILE; DESKTOP; TABLET; CONNECTED_TV]))
  ∧ (∀ e, canonical Dim_age_range (google_age e)
          ∧ (google_age e = "unknown"
             ↔ e ∉ [AGE_RANGE_18_24; AGE_RANGE_25_34; AGE_RANGE_65_UP]))
  ∧ (∀ e, canonical Dim_gender (google_gender e)
          ∧ (google_gender e = "unknown" ↔ e ∉ [FEMALE; MALE; UNDETERMINED]))
  ∧ (∀ code, contains "/" code = false →
             google_country ("countries/" +:+ code) = code)
  ∧ (∀ resource, contains "countries/" resource = false →
                 google_country resource = "unknown")
  ∧ (∀ dim, meta_breakdown_value (dimension_name dim) None = "unknown")
  ∧ (∀ v, meta_breakdown_value (dimension_name Dim_device) (Some v)
          = if contains "mobile" (lower v) then "mobile"
            else if contains "desktop" (lower v) then "desktop"
            else if contains "tablet" (lower v) then "tablet"
            else v)
  ∧ (∀ dim v, dim ≠ Dim_device →
              meta_breakdown_value (dimension_name dim) (Some v) = v).
Proof.
  split_and!.
  - apply google_device_canonical.
  - apply google_age_canonical.
  - apply google_gender_canonical.
  - apply google_country_code.
  - apply google_country_unknown.
  - by intros [].
  - apply meta_device_value.
  - intros dim v Hdim. by rewrite meta_other_value.
Qed.

Lemma normalizer_behaviour_on_samples :
  google_country "countries/US" = "US"
  ∧ google_country "geoTargetConstants/2840" = "unknown"
  ∧ meta_breakdown_value "country" (Some "IT") = "IT".
Proof.
  destruct normalizer_behaviour as (_ & _ & _ & Hcode & Hunknown & _ & _ & Hother).
  split_and!.
  - apply (Hcode "US"). reflexivity.
  - apply (Hunknown "geoTargetConstants/2840"). reflexivity.
  - apply (Hother Dim_country "IT"). discriminate.
Defined.

(** C5, as stated, fails on Meta Ads: a device value the route does not
    recognise is stored as it came, and is neither canonical nor
    "unknown"; the other three dimensions are not rewritten at all. *)
Lemma meta_value_not_canonical :
  meta_breakdown_value (dimension_name Dim_device) (Some "wearable") = "wearable"
  ∧ ¬ canonical Dim_device
        (meta_breakdown_value (dimension_name Dim_device) (Some "wearable"))
  ∧ meta_breakdown_value (dimension_name Dim_gender) (Some "Nonbinary") = "Nonbinary"
  ∧ ¬ canonical Dim_gender
        (meta_breakdown_value (dimension_name Dim_gender) (Some "Nonbinary")).
Proof.
  split_and!; [reflexivity| |reflexivity|];
    simpl; unfold canonical_device, canonical_gender;
    rewrite !elem_of_cons, elem_of_nil; intros H;
    repeat (destruct H as [H|H]; [discriminate H|]); exact H.
Qed.

End NormalizerFacts.

(** ** The billing webhook *)

Module BillingFacts.
Import PyStr Billing.

(** The constructor call of the checkout handler names [stripe_customer_id],
    which the mapped class does not have. *)
Lemma checkout_constructor_raises row :
  new_UserSubscription
    ["user_id"; "plan_id"; "stripe_subscription_id"; "status"; "start_date";
     "end_date"; "stripe_customer_id"] row = None.
Proof. reflexivity. Qed.

Lemma subscriptions_set_customer customer pk db :
  subscriptions (set_customer customer pk db) = subscriptions db.
Proof. reflexivity. Qed.

(** No delivery of [checkout.session.completed] changes the subscription
    table. *)
Lemma checkout_keeps_subscriptions env session db :
  subscriptions (handle_checkout env session db).2 = subscriptions db.
Proof.
  unfold handle_checkout.
  destruct (client_reference_id session) as [uid|]; [|done].
  destruct (truthy_str (session_subscription session)) as [sid|]; [|done].
  destruct (truthy_str (session_customer session)) as [cust|]; [|done].
  destruct (list_find _ (users db)) as [[? user]|]; [|done].
  set (modified := bool_decide _).
  destruct (find_subscription sid _) as [?|].
  - simpl. by destruct modified, (commit_ok env).
  - destruct (session_line_items env) as [|[|price ?]]; [done..|].
    destruct (list_find _ (plans _)) as [[? plan]|]; [|done].
    destruct (subscription_retrieve env); [|done].
    by rewrite checkout_constructor_raises.
Qed.

(** C6: the code at the failing input.  A well-formed checkout event for an
    existing user and plan, with Stripe answering and the database accepting
    commits, ends in an unhandled exception: the row constructor is called
    with a keyword ([stripe_customer_id]) that the mapped class does not
    have.  Nothing is committed, so after one delivery and after any replay
    there is no subscription row for the provider subscription id, where the
    claim expects exactly one; no checkout delivery ever changes the
    subscription table. *)
Theorem checkout_never_creates_the_row :
  (stripe_webhook Samples.cooperative Samples.checkout_delivery
     Samples.new_customer_db).1 = Unhandled_exception
  ∧ rows_with_id "sub_123"
      (replay [Samples.cooperative] Samples.checkout_delivery
         Samples.new_customer_db) = []
  ∧ rows_with_id "sub_123"
      (replay [Samples.cooperative; Samples.cooperative; Samples.cooperative]
         Samples.checkout_delivery Samples.new_customer_db) = []
  ∧ (∀ env session db,
       subscriptions
         (stripe_webhook env (Event (checkout_session_completed session)) db).2
       = subscriptions db).
Proof.
  split_and!; [reflexivity..|].
  intros env session db. apply checkout_keeps_subscriptions.
Qed.

(** *** A cancelled subscription stays cancelled *)

Lemma sync_plan_cancelled subscription_data plans_ us r :
  sync_plan subscription_data plans_ us = Some r →
  status r.1 = status us ∧ stripe_subscription_id r.1 = stripe_subscription_id us.
Proof.
  unfold sync_plan. intros H.
  destruct (sub_items subscription_data) as [| |price]; [by simplify_eq|done|].
  destruct (list_find (λ p, plan_pk p = plan_id us) plans_) as [[? plan]|];
    simpl in H; [|done].
  destruct (bool_decide _); [|by simplify_eq].
  destruct (list_find _ plans_) as [[? new_plan]|]; by simplify_eq.
Qed.

Lemma sync_status_cancelled subscription_data us r :
  status us = CANCELLED →
  sync_status subscription_data us = Some r →
  status r.1 = CANCELLED ∧ stripe_subscription_id r.1 = stripe_subscription_id us.
Proof.
  unfold sync_status. intros Hc H.
  destruct (sub_status subscription_data) as [str|]; simpl in H; [|done].
  destruct (from_stripe_status str) as [new|]; [|by simplify_eq].
  destruct (bool_decide (status us ≠ new)) eqn:E1; [|by simplify_eq].
  destruct (bool_decide (status us = CANCELLED ∧ new ≠ CANCELLED)) eqn:E2;
    [by simplify_eq|].
  simplify_eq. simpl. split; [|done].
  apply bool_decide_eq_true in E1. apply bool_decide_eq_false in E2.
  destruct (decide (new = CANCELLED)) as [->|Hne]; [done|].
  exfalso. by apply E2.
Qed.

Lemma sync_trial_cancelled subscription_data npe us :
  status us = CANCELLED →
  (sync_trial subscription_data npe us).1 = us.
Proof.
  unfold sync_trial. intros Hc.
  rewrite bool_decide_eq_false_2; [done|]. by rewrite Hc.
Qed.

Lemma find_subscription_lookup sid subs pos us :
  find_subscription sid subs = Some (pos, us) → subs !! pos = Some us.
Proof. unfold find_subscription. intros H. by apply list_find_Some in H as (? & _). Qed.

Lemma commit_if_cases changed env failure db' db :
  (commit_if changed env failure db' db).2 = db
  ∨ (commit_if changed env failure db' db).2 = db'.
Proof. unfold commit_if. destruct changed, (commit_ok env); auto. Qed.

Lemma handle_update_cancelled env subscription_data db pos s :
  subscriptions db !! pos = Some s → status s = CANCELLED →
  ∃ s', subscriptions (handle_update env subscription_data db).2 !! pos = Some s'
        ∧ stays_cancelled s s'.
Proof.
  intros Hpos Hc. unfold handle_update.
  destruct (find_subscription _ _) as [[pos' us]|] eqn:Ef; [|by exists s].
  apply find_subscription_lookup in Ef.
  set (step1 := if bool_decide _ then _ else _).
  destruct (sync_plan subscription_data (plans db) step1.1) as [step2|] eqn:E2;
    [|by exists s].
  destruct (sync_status subscription_data step2.1) as [step3|] eqn:E3;
    [|by exists s].
  destruct (commit_if_cases
              (step1.2 || step2.2 || step3.2
               || (sync_trial subscription_data (current_period_end subscription_data)
                     step3.1).2)%bool
              env "Error updating subscription from general update event"
              (store_subscription pos'
                 (sync_trial subscription_data (current_period_end subscription_data)
                    step3.1).1 db) db)
    as [->| ->]; [by exists s|].
  simpl. destruct (decide (pos' = pos)) as [->|Hne].
  - assert (us = s) as -> by congruence.
    assert (status step1.1 = CANCELLED
            ∧ stripe_subscription_id step1.1 = stripe_subscription_id s) as [H1 H1'].
    { unfold step1. by destruct (bool_decide _). }
    destruct (sync_plan_cancelled _ _ _ _ E2) as [H2 H2'].
    assert (status step2.1 = CANCELLED) as H2c by congruence.
    destruct (sync_status_cancelled _ _ _ H2c E3) as [H3 H3'].
    rewrite sync_trial_cancelled by done.
    exists step3.1. split.
    + apply list_lookup_insert_eq. by eapply lookup_lt_Some.
    + split; congruence.
  - exists s. split; [|done]. by rewrite list_lookup_insert_ne.
Qed.

Lemma handle_cancellation_cancelled env deleted subscription_data db pos s :
  subscriptions db !! pos = Some s → status s = CANCELLED →
  ∃ s', subscriptions (handle_cancellation env deleted subscription_data db).2 !! pos
        = Some s'
        ∧ stays_cancelled s s'.
Proof.
  intros Hpos Hc. unfold handle_cancellation.
  destruct (find_subscription _ _) as [[pos' us]|] eqn:Ef; [|by exists s].
  apply find_subscription_lookup in Ef.
  destruct (bool_decide (status us = CANCELLED)) eqn:E; [by exists s|].
  apply bool_decide_eq_false in E.
  match goal with |- context [commit_if ?c ?e ?f ?d' ?d] =>
    destruct (commit_if_cases c e f d' d) as [->| ->] end; [by exists s|].
  simpl. exists s. split; [|done].
  rewrite list_lookup_insert_ne; [done|]. intros ->. congruence.
Qed.

(** C7.  Whatever a [customer.subscription.updated] event carries (any
    status, with or without [cancel_at_period_end], under any answers of
    Stripe and of the database), a stored subscription whose status is
    cancelled is still stored, under the same provider id, with status
    cancelled after the event has been processed. *)
Theorem cancelled_survives_update env subscription_data db pos s :
  subscriptions db !! pos = Some s →
  status s = CANCELLED →
  ∃ s', subscriptions
          (stripe_webhook env (Event (customer_subscription_updated subscription_data))
             db).2 !! pos = Some s'
        ∧ status s' = CANCELLED
        ∧ stripe_subscription_id s' = stripe_subscription_id s.
Proof.
  intros Hpos Hc. simpl.
  destruct (cancel_at_period_end subscription_data) as [[|]|].
  - by apply handle_cancellation_cancelled.
  - by apply handle_update_cancelled.
  - by apply handle_update_cancelled.
Qed.

Lemma cancelled_survives_active_update :
  subscriptions Samples.cancelled_db !! 0%nat = Some Samples.cancelled_row
  ∧ status Samples.cancelled_row = CANCELLED
  ∧ ∃ s', subscriptions
            (stripe_webhook Samples.cooperative
               (Event (customer_subscription_updated (Samples.stripe_sub "active")))
               Samples.cancelled_db).2 !! 0%nat = Some s'
          ∧ status s' = CANCELLED
          ∧ stripe_subscription_id s' = stripe_subscription_id Samples.cancelled_row.
Proof.
  split; [reflexivity|]. split; [reflexivity|].
  exact (cancelled_survives_update Samples.cooperative (Samples.stripe_sub "active")
           Samples.cancelled_db 0%nat Samples.cancelled_row eq_refl eq_refl).
Defined.

End BillingFacts.

(** ** The spend anomaly detector *)

Module AnomalyFacts.
Import Anomaly.

Local Open Scope float_scope.

Lemma flat_baseline_mean : np_mean Samples.flat_baseline = 100.
Proof. vm_compute. reflexivity. Qed.

Lemma flat_baseline_std : np_std Samples.flat_baseline = 0.
Proof. vm_compute. reflexivity. Qed.

Lemma flat_baseline_verdict np_round recent campaign_name_ platform_name check_date :
  analyze_campaign_spend_for_anomalies np_round Samples.flat_baseline recent
    campaign_name_ platform_name check_date
  = if recent <? 10
    then Some {| campaign_name := campaign_name_;
                 platform := platform_name;
                 anomaly_date := check_date;
                 value := recent;
                 mean := np_round 100 2%Z;
                 stddev := np_round 0 2%Z;
                 anomaly_direction := low;
                 anomaly_message := Spend_dropped_significantly |}
    else None.
Proof.
  unfold analyze_campaign_spend_for_anomalies.
  rewrite flat_baseline_mean, flat_baseline_std.
  change (length Samples.flat_baseline <? 7)%nat with false.
  change (100 * 0.05 <? 0) with false.
  change (100 =? 0) with false.
  change (10 <? 100) with true.
  change (100 * 0.1) with 10.
  cbn [orb andb]. by destruct (recent <? 10).
Qed.

(** C3 (amended).  On the baseline of seven days at 100 (mean 100, standard
    deviation 0) the detector answers through the significant-drop branch
    alone: a "low" anomaly exactly when the recent value is below 10, which
    is what 0.1 times the mean evaluates to, and no anomaly otherwise. *)
Theorem flat_baseline_drop np_round recent campaign_name_ platform_name check_date :
  analyze_campaign_spend_for_anomalies np_round Samples.flat_baseline recent
    campaign_name_ platform_name check_date
  = if recent <? 10
    then Some {| campaign_name := campaign_name_;
                 platform := platform_name;
                 anomaly_date := check_date;
                 value := recent;
                 mean := np_round 100 2%Z;
                 stddev := np_round 0 2%Z;
                 anomaly_direction := low;
                 anomaly_message := Spend_dropped_significantly |}
    else None.
Proof. apply flat_baseline_verdict. Qed.

(** C3, as stated, fails: 0.1 times 100 is 10 in binary64, the recent value
    10 is not below it, and the detector reports nothing. *)
Lemma no_anomaly_at_ten :
  100 * 0.1 = 10
  ∧ (10 <? 100 * 0.1) = false
  ∧ (∀ np_round campaign_name_ platform_name check_date,
       analyze_campaign_spend_for_anomalies np_round Samples.flat_baseline 10
         campaign_name_ platform_name check_date = None).
Proof.
  split; [reflexivity|]. split; [reflexivity|].
  intros. by rewrite flat_baseline_verdict.
Qed.

End AnomalyFacts.

(** ** The budget simulator *)

Module BudgetFacts.
Import PyFloat Budget.

Lemma get_or_None_Some key fields v :
  get_or_None key fields = Some v → get key fields = Some v ∧ v ≠ JNull.
Proof.
  unfold get_or_None. destruct (get key fields) as [[]|]; intros H; by simplify_eq.
Qed.

Lemma get_number key fields v n m :
  get_or_None key fields = Some v → as_number v = Some n →
  get key fields ≫= as_number = Some m → m = n.
Proof.
  intros Hg Hn Hm. apply get_or_None_Some in Hg as [Hg _].
  rewrite Hg in Hm. simpl in Hm. congruence.
Qed.

(** Each of the three defects ends in a 400. *)
Lemma defect_refused fields :
  cpc_not_positive fields ∨ cvr_out_of_range fields ∨ some_budget_not_positive fields →
  ∃ error, budget_simulator_api (JObj fields) = Bad_request error.
Proof.
  intros H. unfold budget_simulator_api.
  destruct (truthy (JObj fields)); cbn [negb]; [|by eexists].
  destruct (get_or_None "current_cpc" fields) as [cv|] eqn:Ecpc; [|by eexists].
  destruct (get_or_None "current_cvr_clicks" fields) as [rv|] eqn:Ecvr; [|by eexists].
  destruct (as_number cv) as [cpc|] eqn:Encpc; [|by eexists].
  destruct (as_number rv) as [cvr|] eqn:Encvr; [|by eexists].
  destruct (get "budget_scenarios" fields) as [[| | | |[|first others]|]|] eqn:Eb;
    try by eexists.
  cbv zeta.
  destruct (forallb positive_number (first :: others)) eqn:Ef; cbn [negb];
    [|by eexists].
  destruct (le_const cpc 0) eqn:Ecl; [by eexists|].
  destruct (ge_const cvr 0 && le_const cvr 1)%bool eqn:Er; cbn [negb]; [|by eexists].
  exfalso. destruct H as [(n & Hn & Hle)|[(n & Hn & Hr)|(l & b & Hl & Hb & Hp)]].
  - rewrite (get_number _ _ _ _ _ Ecpc Encpc Hn) in Hle. congruence.
  - rewrite (get_number _ _ _ _ _ Ecvr Encvr Hn) in Hr. congruence.
  - rewrite Eb in Hl. injection Hl as <-.
    rewrite forallb_forall in Ef. apply list_elem_of_In in Hb.
    specialize (Ef b Hb). congruence.
Qed.

(** C8.  For current_cpc = 2.0, current_cvr_clicks = 0.05 and the budget
    scenario 100 the simulator returns one scenario with
    projected_clicks = 50, projected_conversions = 2.5, projected_spend = 100
    and projected_cpa = 40.0.  Every request object whose current_cpc is a
    number not above zero, or whose current_cvr_clicks is a number outside
    [0, 1], or one of whose budget scenarios is not a positive number, is
    answered with HTTP 400 and an error message, and no scenario. *)
Theorem simulator_example_and_refusals :
  budget_simulator_api
    (Samples.simulator_request (Float 2) (Float 0.05) [JNum (Int 100)])
  = Scenarios [ {| budget := Int 100;
                   projected_clicks := Float 50;
                   projected_spend := Int 100;
                   projected_conversions := Float 2.5;
                   projected_cpa := Float 40 |} ]
  ∧ (∀ fields,
       cpc_not_positive fields ∨ cvr_out_of_range fields
       ∨ some_budget_not_positive fields →
       ∃ error, budget_simulator_api (JObj fields) = Bad_request error
                ∧ status_code (budget_simulator_api (JObj fields)) = 400).
Proof.
  split; [vm_compute; reflexivity|].
  intros fields H. destruct (defect_refused fields H) as [error E].
  exists error. by rewrite E.
Qed.

Lemma simulator_refuses_zero_cpc :
  cpc_not_positive [ ("current_cpc", JNum (Int 0));
                     ("current_cvr_clicks", JNum (Float 0.05));
                     ("budget_scenarios", JArr [JNum (Int 100)]) ]
  ∧ ∃ error,
      budget_simulator_api (Samples.simulator_request (Int 0) (Float 0.05)
                              [JNum (Int 100)]) = Bad_request error
      ∧ status_code (budget_simulator_api
                       (Samples.simulator_request (Int 0) (Float 0.05)
                          [JNum (Int 100)])) = 400.
Proof.
  assert (cpc_not_positive [ ("current_cpc", JNum (Int 0));
                             ("current_cvr_clicks", JNum (Float 0.05));
                             ("budget_scenarios", JArr [JNum (Int 100)]) ]) as Hd.
  { exists (Int 0). split; reflexivity. }
  split; [exact Hd|].
  exact (proj2 simulator_example_and_refusals _ (or_introl Hd)).
Defined.

(** *** Rounding for display only *)

Lemma project_shape current_cpc current_cvr_clicks budget_ s :
  project current_cpc current_cvr_clicks budget_ = Some s →
  ∃ clicks conversions_,
    truediv budget_ current_cpc = Some clicks
    ∧ mul_float clicks current_cvr_clicks = Some conversions_
    ∧ projected_clicks s = Float (round_float clicks 0)
    ∧ projected_conversions s = Float (round_float conversions_ 2)
    ∧ (PrimFloat.ltb 0 conversions_ = true →
       ∃ cpa, truediv budget_ (Float conversions_) = Some cpa
              ∧ projected_cpa s = Float (round_float cpa 2)).
Proof.
  unfold project. intros H.
  destruct (truediv budget_ current_cpc) as [clicks|] eqn:Eclicks; simpl in H; [|done].
  destruct (mul_float clicks current_cvr_clicks) as [conv|] eqn:Econv;
    simpl in H; [|done].
  exists clicks, conv. split; [done|]. split; [done|].
  destruct (PrimFloat.ltb 0 conv) eqn:Epos.
  - destruct (truediv budget_ (Float conv)) as [cpa|] eqn:Ecpa; simpl in H; [|done].
    injection H as <-. simpl. do 2 (split; [done|]). intros _. by exists cpa.
  - simpl in H. injection H as <-. simpl. do 2 (split; [done|]). done.
Qed.

(** C10.  Every scenario reports the click count [budget / current_cpc]
    rounded to a whole number, and computes the conversions and the CPA from
    the unrounded count.  For cpc = 3, cvr = 0.05 and budget 100 the
    scenario shows 33 clicks and 1.67 conversions, while 33 times 0.05 is
    1.65. *)
Theorem conversions_from_unrounded_clicks :
  (∀ current_cpc current_cvr_clicks budget_ s,
     project current_cpc current_cvr_clicks budget_ = Some s →
     ∃ clicks conversions_,
       truediv budget_ current_cpc = Some clicks
       ∧ mul_float clicks current_cvr_clicks = Some conversions_
       ∧ projected_clicks s = Float (round_float clicks 0)
       ∧ projected_conversions s = Float (round_float conversions_ 2)
       ∧ (PrimFloat.ltb 0 conversions_ = true →
          ∃ cpa, truediv budget_ (Float conversions_) = Some cpa
                 ∧ projected_cpa s = Float (round_float cpa 2)))
  ∧ budget_simulator_api
      (Samples.simulator_request (Int 3) (Float 0.05) [JNum (Int 100)])
    = Scenarios [ {| budget := Int 100;
                     projected_clicks := Float 33;
                     projected_spend := Int 100;
                     projected_conversions := Float 1.67;
                     projected_cpa := Float 60 |} ]
  ∧ mul_float 33 (Float 0.05) = Some 1.6500000000000001%float
  ∧ round_float (33 * 0.05) 2 = 1.65%float
  ∧ PrimFloat.eqb 1.67 (33 * 0.05) = false
  ∧ PrimFloat.eqb 1.67 1.65 = false.
Proof.
  split; [apply project_shape|].
  split_and!; vm_compute; reflexivity.
Qed.

Lemma conversions_from_unrounded_clicks_sample :
  project (Int 3) (Float 0.05) (Int 100)
  = Some {| budget := Int 100;
            projected_clicks := Float 33;
            projected_spend := Int 100;
            projected_conversions := Float 1.67;
            projected_cpa := Float 60 |}
  ∧ ∃ clicks conversions_,
      truediv (Int 100) (Int 3) = Some clicks
      ∧ mul_float clicks (Float 0.05) = Some conversions_
      ∧ Float 33 = Float (round_float clicks 0)
      ∧ Float 1.67 = Float (round_float conversions_ 2)
      ∧ (PrimFloat.ltb 0 conversions_ = true →
         ∃ cpa, truediv (Int 100) (Float conversions_) = Some cpa
                ∧ Float 60 = Float (round_float cpa 2)).
Proof.
  assert (project (Int 3) (Float 0.05) (Int 100)
          = Some {| budget := Int 100;
                    projected_clicks := Float 33;
                    projected_spend := Int 100;
                    projected_conversions := Float 1.67;
                    projected_cpa := Float 60 |}) as E
    by (vm_compute; reflexivity).
  split; [exact E|].
  exact (proj1 conversions_from_unrounded_clicks _ _ _ _ E).
Defined.

End BudgetFacts.

(** ** Metric changes and top movers *)

Module MoversFacts.
Import Movers.

(** *** The order of binary64 comparisons *)

Lemma compare_cont_Eq m1 m2 :
  PosDef.Pos.compare_cont Eq m1 m2 = (m1 ?= m2)%positive.
Proof. reflexivity. Qed.

Ltac order_cases :=
  repeat match goal with
  | H : context [(?a ?= ?b)%Z] |- _ => destruct (Z.compare_spec a b); simpl in H
  | |- context [(?a ?= ?b)%Z] => destruct (Z.compare_spec a b); simpl
  | H : context [(?a ?= ?b)%positive] |- _ =>
      destruct (Pos.compare_spec a b); simpl in H
  | |- context [(?a ?= ?b)%positive] => destruct (Pos.compare_spec a b); simpl
  end.

Lemma SFleb_key x y :
  SFleb x y = true
  ↔ ∃ a b, SFkey x = Some a ∧ SFkey y = Some b ∧ key_le a b.
Proof.
  unfold SFleb, key_le. split.
  - intros H.
    destruct x as [s1|s1| |s1 m1 e1], y as [s2|s2| |s2 m2 e2]; simpl in H; try done;
      (eexists _, _; split; [reflexivity|]; split; [reflexivity|]);
      try destruct s1; try destruct s2; simpl in *; try done; try lia;
      rewrite compare_cont_Eq in H; order_cases; try done; lia.
  - intros (a & b & Ha & Hb & Hle).
    destruct x as [s1|s1| |s1 m1 e1], y as [s2|s2| |s2 m2 e2]; simpl in *;
      try done; simplify_eq; simpl in Hle;
      try destruct s1; try destruct s2; simpl in *; try done; try lia;
      rewrite compare_cont_Eq; order_cases; try done; lia.
Qed.

Lemma key_le_trans a b c : key_le a b → key_le b c → key_le a c.
Proof. unfold key_le. lia. Qed.

Lemma key_le_total a b : key_le a b ∨ key_le b a.
Proof. unfold key_le. lia. Qed.

Lemma leb_trans (x y z : float) :
  (x <=? y)%float = true → (y <=? z)%float = true → (x <=? z)%float = true.
Proof.
  rewrite !FloatAxioms.leb_spec, !SFleb_key.
  intros (a & b & Ha & Hb & Hab) (b' & c & Hb' & Hc & Hbc). simplify_eq.
  exists a, c. eauto using key_le_trans.
Qed.

Lemma is_nan_number (x : float) :
  PrimFloat.is_nan x = false ↔ a_number (Prim2SF x).
Proof.
  unfold PrimFloat.is_nan. rewrite negb_false_iff, FloatAxioms.eqb_spec.
  unfold SFeqb, a_number.
  destruct (Prim2SF x) as [s|s| |s m e]; simpl; try done.
  - by destruct s.
  - destruct s; simpl; rewrite Z.compare_refl, compare_cont_Eq, Pos.compare_refl; done.
Qed.

Lemma is_finite_finite (x : float) :
  PrimFloat.is_finite x = true → is_finite_SF (Prim2SF x).
Proof.
  unfold PrimFloat.is_finite, PrimFloat.is_infinity.
  rewrite negb_true_iff, orb_false_iff. intros [Hn Hi].
  apply is_nan_number in Hn.
  rewrite FloatAxioms.eqb_spec, FloatAxioms.abs_spec in Hi.
  destruct (Prim2SF x) as [s|s| |s m e]; try done.
Qed.

Lemma leb_total (x y : float) :
  PrimFloat.is_nan x = false → PrimFloat.is_nan y = false →
  (x <=? y)%float = false → (y <=? x)%float = true.
Proof.
  rewrite !is_nan_number, !FloatAxioms.leb_spec. intros Hx Hy Hxy.
  assert (∃ a, SFkey (Prim2SF x) = Some a) as [a Ha]
    by (destruct (Prim2SF x); simpl; eauto; done).
  assert (∃ b, SFkey (Prim2SF y) = Some b) as [b Hb]
    by (destruct (Prim2SF y); simpl; eauto; done).
  destruct (key_le_total a b) as [H|H].
  - assert (SFleb (Prim2SF x) (Prim2SF y) = true) by (apply SFleb_key; eauto).
    congruence.
  - apply SFleb_key; eauto.
Qed.

(** *** No NaN from finite totals *)

Lemma shr_1_not_negative mrs : (0 ≤ shr_m mrs)%Z → (0 ≤ shr_m (shr_1 mrs))%Z.
Proof. destruct mrs as [[|[p|p|]|[p|p|]] r s]; simpl; lia. Qed.

Lemma iter_pos_keeps {A} (f : A → A) (P : A → Prop) n x :
  (∀ y, P y → P (f y)) → P x → P (SpecFloat.iter_pos f n x).
Proof.
  intros Hf. revert x. induction n as [n IH|n IH|]; intros x Hx; simpl; auto.
Qed.

Lemma shr_fexp_not_negative prec emax m e l :
  (0 ≤ m)%Z → (0 ≤ shr_m (shr_fexp prec emax m e l).1)%Z.
Proof.
  intros Hm. unfold shr_fexp, shr.
  assert (0 ≤ shr_m (shr_record_of_loc m l))%Z as H0 by (by destruct l as [|[]]).
  destruct (fexp prec emax (Zdigits2 m + e) - e)%Z; simpl; try done.
  apply (iter_pos_keeps shr_1 (λ mrs, 0 ≤ shr_m mrs)%Z); [apply shr_1_not_negative|done].
Qed.

Lemma round_nearest_even_not_negative m l :
  (0 ≤ m)%Z → (0 ≤ round_nearest_even m l)%Z.
Proof.
  intros Hm. unfold round_nearest_even.
  destruct l as [|[]]; try lia. destruct (Z.even m); lia.
Qed.

Lemma round_aux_number prec emax s m e l :
  (0 ≤ m)%Z → a_number (binary_round_aux prec emax s m e l).
Proof.
  intros Hm. unfold binary_round_aux.
  pose proof (shr_fexp_not_negative prec emax m e l Hm) as H1.
  destruct (shr_fexp prec emax m e l) as [mrs' e']. simpl in H1.
  pose proof (shr_fexp_not_negative prec emax
                (round_nearest_even (shr_m mrs') (loc_of_shr_record mrs')) e' loc_Exact
                (round_nearest_even_not_negative _ _ H1)) as H2.
  destruct (shr_fexp prec emax _ e' loc_Exact) as [mrs'' e'']. simpl in H2.
  destruct (shr_m mrs''); [done| |lia]. by destruct (e'' <=? emax - prec)%Z.
Qed.

Lemma binary_round_number prec emax s m e :
  a_number (binary_round prec emax s m e).
Proof.
  unfold binary_round. destruct (shl_align _ _ _) as [mz ez].
  by apply round_aux_number.
Qed.

Lemma binary_normalize_number prec emax m e szero :
  a_number (binary_normalize prec emax m e szero).
Proof. destruct m; simpl; [done|apply binary_round_number..]. Qed.

Lemma sub_number (x y : float) :
  is_finite_SF (Prim2SF x) → is_finite_SF (Prim2SF y) → a_number (Prim2SF (x - y)).
Proof.
  rewrite FloatAxioms.sub_spec. unfold SF64sub, SFsub.
  destruct (Prim2SF x) as [sx|sx| |sx mx ex], (Prim2SF y) as [sy|sy| |sy my ey];
    try done; intros _ _.
  - by destruct sx, sy.
  - apply binary_normalize_number.
Qed.

Lemma opp_number (x : float) : a_number (Prim2SF x) → a_number (Prim2SF (- x)).
Proof. rewrite FloatAxioms.opp_spec. by destruct (Prim2SF x). Qed.

Lemma ldexp_number (x : float) e :
  a_number (Prim2SF x) → a_number (Prim2SF (Z.ldexp x e)).
Proof.
  rewrite Z_ldexp_spec. unfold SFldexp.
  destruct (Prim2SF x); try done. intros _. apply binary_round_number.
Qed.

Lemma nearest_pos_number a b : a_number (Prim2SF (PyFloat.nearest_pos a b)).
Proof.
  unfold PyFloat.nearest_pos.
  destruct (PyFloat.scaled a b _) as [n1 d1].
  destruct (PyFloat.scaled a b _) as [n d].
  apply ldexp_number. rewrite FloatAxioms.of_uint63_spec.
  apply binary_normalize_number.
Qed.

Lemma nearest_number a b : a_number (Prim2SF (PyFloat.nearest a b)).
Proof.
  unfold PyFloat.nearest. destruct (a ?= 0)%Z.
  - done.
  - apply opp_number, nearest_pos_number.
  - apply nearest_pos_number.
Qed.

Lemma round_float_number (x : float) ndigits :
  a_number (Prim2SF x) → a_number (Prim2SF (PyFloat.round_float x ndigits)).
Proof.
  intros Hx. unfold PyFloat.round_float.
  destruct (PyFloat.exact x) as [[n d]|]; [|exact Hx].
  destruct (PyFloat.is_negative x); [apply opp_number|]; apply nearest_number.
Qed.


(** *** The stable sort *)

Section Sorting.
Context {A : Type} (before : A → A → bool) (fine : A → Prop).
Hypothesis before_total :
  ∀ a b, fine a → fine b → before a b = false → before b a = true.
Hypothesis before_trans :
  ∀ a b c, before a b = true → before b c = true → before a c = true.

Lemma insert_sorted_perm x l : insert_sorted before x l ≡ₚ x :: l.
Proof.
  induction l as [|y l IH]; simpl; [done|].
  destruct (before x y); [done|]. rewrite IH. apply Permutation_swap.
Qed.

Lemma sorted_perm l : sorted before l ≡ₚ l.
Proof.
  induction l as [|x l IH]; simpl; [done|].
  by rewrite insert_sorted_perm, IH.
Qed.

Lemma insert_sorted_ordered x l :
  fine x → Forall fine l →
  StronglySorted (λ a b, before a b = true) l →
  StronglySorted (λ a b, before a b = true) (insert_sorted before x l).
Proof.
  intros Hx Hl. induction 1 as [|y l Hs IH Hy]; simpl.
  - by repeat constructor.
  - apply Forall_cons in Hl as [Hfy Hl]. destruct (before x y) eqn:E.
    + constructor; [by constructor|]. constructor; [done|].
      eapply Forall_impl; [exact Hy|]. intros z Hz. by eapply before_trans.
    + constructor; [by apply IH|]. rewrite insert_sorted_perm.
      constructor; [by apply before_total|done].
Qed.

Lemma sorted_ordered l :
  Forall fine l → StronglySorted (λ a b, before a b = true) (sorted before l).
Proof.
  induction 1 as [|x l Hx Hl IH]; simpl; [constructor|].
  apply insert_sorted_ordered; [done| |done]. by rewrite sorted_perm.
Qed.

Lemma filter_ordered (keep : A → bool) l :
  StronglySorted (λ a b, before a b = true) l →
  StronglySorted (λ a b, before a b = true) (List.filter keep l).
Proof.
  induction 1 as [|y l Hs IH Hy]; simpl; [constructor|].
  destruct (keep y); [|done]. constructor; [done|].
  apply Forall_forall. intros z Hz. apply list_elem_of_In, filter_In in Hz as [Hz _].
  rewrite Forall_forall in Hy. by apply Hy, list_elem_of_In.
Qed.

End Sorting.

Lemma filter_perm {A} (keep : A → bool) (l k : list A) :
  l ≡ₚ k → List.filter keep l ≡ₚ List.filter keep k.
Proof.
  induction 1 as [|x l k _ IH|x y l|l k m _ IH1 _ IH2]; simpl.
  - done.
  - destruct (keep x); by rewrite IH.
  - destruct (keep x), (keep y); try done. apply Permutation_swap.
  - by rewrite IH1.
Qed.

Lemma filter_keeps {A} (keep : A → bool) (P : A → Prop) (l : list A) :
  Forall P l → Forall P (List.filter keep l).
Proof.
  induction 1 as [|x l Hx Hl IH]; simpl; [constructor|].
  destruct (keep x); [by constructor|done].
Qed.

Lemma descending_total a b :
  comparable a → comparable b → descending a b = false → descending b a = true.
Proof. unfold comparable, descending. intros Ha Hb. by apply leb_total. Qed.

Lemma descending_trans a b c :
  descending a b = true → descending b c = true → descending a c = true.
Proof. unfold descending. intros H1 H2. by eapply leb_trans. Qed.

Lemma ascending_total a b :
  comparable a → comparable b → ascending a b = false → ascending b a = true.
Proof. unfold comparable, ascending. intros Ha Hb. by apply leb_total. Qed.

Lemma ascending_trans a b c :
  ascending a b = true → ascending b c = true → ascending a c = true.
Proof. unfold ascending. intros H1 H2. by eapply leb_trans. Qed.

Lemma gainers_ranked changes :
  Forall comparable changes →
  ∃ ranked,
    ranked ≡ₚ List.filter (λ c, 0 <? sort_key c)%float changes
    ∧ StronglySorted (λ a b, (sort_key b <=? sort_key a)%float = true) ranked
    ∧ gainers changes = take 5 ranked.
Proof.
  intros Hc. exists (List.filter is_gain (sorted descending changes)). split_and!.
  - apply (filter_perm is_gain), sorted_perm.
  - apply filter_ordered, (sorted_ordered descending comparable);
      [apply descending_total|apply descending_trans|done].
  - reflexivity.
Qed.

Lemma decliners_ranked changes :
  Forall comparable changes →
  ∃ ranked,
    ranked ≡ₚ List.filter (λ c, sort_key c <? 0)%float changes
    ∧ StronglySorted (λ a b, (sort_key a <=? sort_key b)%float = true) ranked
    ∧ decliners changes = take 5 ranked.
Proof.
  intros Hc.
  exists (sorted ascending (List.filter is_decline (sorted descending changes))).
  split_and!.
  - rewrite sorted_perm. apply (filter_perm is_decline), sorted_perm.
  - apply (sorted_ordered ascending comparable);
      [apply ascending_total|apply ascending_trans|].
    apply filter_keeps. by rewrite sorted_perm.
  - reflexivity.
Qed.

(** *** One change record *)

Lemma total_in_cases m key :
  (m !! key = None ∧ total_in m key = PyFloat.Int 0)
  ∨ (∃ entry, m !! key = Some entry ∧ total_in m key = PyFloat.Float (total entry)).
Proof. unfold total_in. destruct (m !! key) as [entry|]; eauto. Qed.

Lemma total_in_finite m key :
  finite_totals m → is_finite_SF (Prim2SF (as_float (total_in m key))).
Proof.
  intros Hm. destruct (total_in_cases m key) as [[_ ->]|(entry & He & ->)].
  - exact I.
  - simpl. apply is_finite_finite. exact (Hm key entry He).
Qed.

Lemma minus_number a b :
  is_finite_SF (Prim2SF (as_float a)) → is_finite_SF (Prim2SF (as_float b)) →
  a_number (Prim2SF (as_float (PyFloat.round (minus a b) 2))).
Proof.
  intros Ha Hb. destruct a as [x|x], b as [y|y]; simpl;
    first [apply nearest_number | by apply round_float_number, sub_number].
Qed.

Lemma change_comparable current_data_map prev_data_map metric_ key :
  finite_totals current_data_map → finite_totals prev_data_map →
  comparable (change_of current_data_map prev_data_map metric_ key).
Proof.
  intros Hc Hp. unfold comparable, sort_key, change_of. cbn [absolute_change].
  apply is_nan_number, minus_number; by apply total_in_finite.
Qed.

Lemma change_of_fields current_data_map prev_data_map metric_ key :
  let current_val := total_in current_data_map key in
  let prev_val := total_in prev_data_map key in
  let c := change_of current_data_map prev_data_map metric_ key in
  current_value c = PyFloat.round current_val 2
  ∧ previous_value c = PyFloat.round prev_val 2
  ∧ absolute_change c = PyFloat.round (minus current_val prev_val) 2
  ∧ (nonzero prev_val = true →
     percentage_change c
     = PyFloat.round_float
         (as_float (minus current_val prev_val) / as_float prev_val * 100) 1)
  ∧ (nonzero prev_val = false → nonzero current_val = true →
     percentage_change c = 100%float)
  ∧ (nonzero prev_val = false → nonzero current_val = false →
     percentage_change c = 0%float).
Proof.
  intros current_val prev_val c. unfold c, change_of.
  cbn [current_value previous_value absolute_change percentage_change].
  fold current_val prev_val.
  split; [reflexivity|]. split; [reflexivity|]. split; [reflexivity|]. split_and!.
  - by intros ->.
  - intros -> ->. vm_compute. reflexivity.
  - intros -> ->. vm_compute. reflexivity.
Qed.

(** C9 (amended).  Period totals are binary64 floats, the total of an absent
    key is the integer 0, and [round] is Python's.  For every key the
    reported current_value and previous_value are the totals rounded to two
    decimals, the reported absolute_change is current − previous rounded to
    two decimals, and the reported percentage_change is
    (current − previous)/previous·100 rounded to one decimal when previous is
    not 0, else 100.0 when current is not 0, else 0.0.  When the totals are
    finite no reported absolute_change is a NaN; and when none is, the
    gainers are the first five, by reported absolute_change in descending
    order, of the records whose reported absolute_change is above 0, the
    decliners the first five in ascending order of those whose reported
    absolute_change is below 0. *)
Theorem reported_changes_and_top_movers :
  (∀ current_data_map prev_data_map metric_ key,
     let current_val := total_in current_data_map key in
     let prev_val := total_in prev_data_map key in
     let c := change_of current_data_map prev_data_map metric_ key in
     current_value c = PyFloat.round current_val 2
     ∧ previous_value c = PyFloat.round prev_val 2
     ∧ absolute_change c = PyFloat.round (minus current_val prev_val) 2
     ∧ (nonzero prev_val = true →
        percentage_change c
        = PyFloat.round_float
            (as_float (minus current_val prev_val) / as_float prev_val * 100) 1)
     ∧ (nonzero prev_val = false → nonzero current_val = true →
        percentage_change c = 100%float)
     ∧ (nonzero prev_val = false → nonzero current_val = false →
        percentage_change c = 0%float))
  ∧ (∀ m key,
       (m !! key = None ∧ total_in m key = PyFloat.Int 0)
       ∨ (∃ entry, m !! key = Some entry
                   ∧ total_in m key = PyFloat.Float (total entry)))
  ∧ (∀ x y : float,
       minus (PyFloat.Float x) (PyFloat.Float y) = PyFloat.Float (x - y)
       ∧ minus (PyFloat.Float x) (PyFloat.Int 0) = PyFloat.Float (x - 0)
       ∧ minus (PyFloat.Int 0) (PyFloat.Float y) = PyFloat.Float (0 - y)
       ∧ minus (PyFloat.Int 0) (PyFloat.Int 0) = PyFloat.Int 0)
  ∧ (∀ all_campaign_keys current_data_map prev_data_map metric_,
       finite_totals current_data_map → finite_totals prev_data_map →
       Forall comparable
         (calculate_metric_changes all_campaign_keys current_data_map prev_data_map
            metric_))
  ∧ (∀ changes,
       Forall comparable changes →
       ∃ ranked,
         ranked ≡ₚ List.filter (λ c, 0 <? sort_key c)%float changes
         ∧ StronglySorted (λ a b, (sort_key b <=? sort_key a)%float = true) ranked
         ∧ gainers changes = take 5 ranked)
  ∧ (∀ changes,
       Forall comparable changes →
       ∃ ranked,
         ranked ≡ₚ List.filter (λ c, sort_key c <? 0)%float changes
         ∧ StronglySorted (λ a b, (sort_key a <=? sort_key b)%float = true) ranked
         ∧ decliners changes = take 5 ranked).
Proof.
  split_and!.
  - intros. apply change_of_fields.
  - apply total_in_cases.
  - intros x y. by split_and!.
  - intros keys cur prev metric_ Hc Hp. unfold calculate_metric_changes.
    apply Forall_fmap, Forall_forall. intros key _. by apply change_comparable.
  - apply gainers_ranked.
  - apply decliners_ranked.
Qed.

Lemma reported_changes_on_sample :
  nonzero (total_in Samples.previous_totals ("a", "GoogleAds")) = true
  ∧ percentage_change
      (change_of Samples.current_totals Samples.previous_totals "spend"
         ("a", "GoogleAds")) = 50%float
  ∧ finite_totals Samples.current_totals ∧ finite_totals Samples.previous_totals
  ∧ Forall comparable
      (calculate_metric_changes Samples.mover_keys Samples.current_totals
         Samples.previous_totals "spend")
  ∧ absolute_change
    <$> gainers (calculate_metric_changes Samples.mover_keys Samples.current_totals
                   Samples.previous_totals "spend")
    = [PyFloat.Float 50; PyFloat.Float 7]
  ∧ absolute_change
    <$> decliners (calculate_metric_changes Samples.mover_keys Samples.current_totals
                     Samples.previous_totals "spend")
    = [PyFloat.Float (-50)]
  ∧ (∃ ranked,
       ranked ≡ₚ List.filter (λ c, sort_key c <? 0)%float
                   (calculate_metric_changes Samples.mover_keys Samples.current_totals
                      Samples.previous_totals "spend")
       ∧ StronglySorted (λ a b, (sort_key a <=? sort_key b)%float = true) ranked
       ∧ decliners (calculate_metric_changes Samples.mover_keys Samples.current_totals
                      Samples.previous_totals "spend") = take 5 ranked).
Proof.
  assert (nonzero (total_in Samples.previous_totals ("a", "GoogleAds")) = true)
    as Hp by (vm_compute; reflexivity).
  assert (finite_totals Samples.current_totals) as Hfc
    by (apply (bool_decide_unpack _); vm_compute; reflexivity).
  assert (finite_totals Samples.previous_totals) as Hfp
    by (apply (bool_decide_unpack _); vm_compute; reflexivity).
  pose proof reported_changes_and_top_movers as (Hfields & _ & _ & Hcmp & _ & Hdecl).
  pose proof (Hcmp Samples.mover_keys Samples.current_totals Samples.previous_totals
                "spend" Hfc Hfp) as Hc.
  split; [exact Hp|]. split.
  { destruct (Hfields Samples.current_totals Samples.previous_totals "spend"
                ("a", "GoogleAds")) as (_ & _ & _ & Hpct & _).
    rewrite (Hpct Hp). vm_compute. reflexivity. }
  split; [exact Hfc|]. split; [exact Hfp|]. split; [exact Hc|].
  split; [vm_compute; reflexivity|]. split; [vm_compute; reflexivity|].
  exact (Hdecl _ Hc).
Defined.

(** C9, as stated, fails: the record carries rounded values.  With
    current = 1 and previous = 3 the reported percentage_change is -66.7,
    not 100·(1 − 3)/3; with current = 0.004 and no previous total the
    reported absolute_change is 0.0, not 0.004, and the key, whose total did
    grow, is no gainer. *)
Lemma reported_change_is_rounded :
  percentage_change
    (change_of (Samples.totals [("a", 1%float)]) (Samples.totals [("a", 3%float)])
       "spend" ("a", "GoogleAds")) = (-66.7)%float
  ∧ (-66.7 =? 100 * (1 - 3) / 3)%float = false
  ∧ (-66.7 =? (1 - 3) / 3 * 100)%float = false
  ∧ absolute_change
      (change_of (Samples.totals [("b", 0.004%float)]) ∅ "spend" ("b", "GoogleAds"))
    = PyFloat.Float 0
  ∧ (0 =? 0.004 - 0)%float = false
  ∧ (0 <? 0.004 - 0)%float = true
  ∧ gainers (calculate_metric_changes [("b", "GoogleAds")]
               (Samples.totals [("b", 0.004%float)]) ∅ "spend") = [].
Proof. repeat split; vm_compute; reflexivity. Qed.

(** The tie of the decimal expansion is not a tie of the float: from 2000 to
    2001 the quotient 1/2000·100 is a float just above 0.05 and is reported
    as 0.1. *)
Lemma reported_change_above_the_tie :
  percentage_change
    (change_of (Samples.totals [("a", 2001%float)]) (Samples.totals [("a", 2000%float)])
       "spend" ("a", "GoogleAds")) = 0.1%float.
Proof. vm_compute. reflexivity. Qed.

End MoversFacts.

(** ** Lookup after upsert *)

Module LookupFacts.
Import Store StoreFacts.

#[local] Arguments upsert : simpl never.

Lemma query_first_insert_other k (t : table) pos r r' :
  t !! pos = Some r → key_of r ≠ k → key_of r' ≠ k →
  query_first k (<[pos := r']> t) = query_first k t.
Proof.
  intros Hpos Hr Hr'. unfold query_first.
  destruct (list_find (λ r, key_of r = k) t) as [[j x]|] eqn:E.
  - apply list_find_Some in E as (Hj & Hx & Hfirst). apply list_find_Some.
    assert (j ≠ pos) by (intros ->; congruence). split_and!; [|done|].
    + by rewrite list_lookup_insert_ne.
    + intros j' y Hj' Hlt. destruct (decide (j' = pos)) as [->|].
      * rewrite list_lookup_insert_eq in Hj' by (by eapply lookup_lt_Some).
        by simplify_eq.
      * rewrite list_lookup_insert_ne in Hj' by done. by eapply Hfirst.
  - apply list_find_None in E. apply list_find_None.
    apply Forall_forall. intros y Hy.
    apply list_elem_of_lookup in Hy as [j Hj].
    destruct (decide (j = pos)) as [->|].
    + rewrite list_lookup_insert_eq in Hj by (by eapply lookup_lt_Some).
      by simplify_eq.
    + rewrite list_lookup_insert_ne in Hj by done.
      rewrite Forall_forall in E. apply E. by eapply list_elem_of_lookup_2.
Qed.

(** X1.  Lookup after upsert: the key of the call finds a row that holds the
    values of the call, stamped with the clock reading, and created when the
    first row under the key was (now, when there was none); every other key
    finds what it found before. *)
Theorem upsert_then_lookup i p c name d bt bv imp clk sp conv now t :
  let t' := upsert i p c name d bt bv imp clk sp conv now t in
  (∃ pos r, query_first (i, p, c, d, bt, bv) t' = Some (pos, r)
            ∧ carries name imp clk sp conv r
            ∧ updated_at r = now
            ∧ created_at r = match query_first (i, p, c, d, bt, bv) t with
                             | Some (_, existing_entry) => created_at existing_entry
                             | None => now
                             end
            ∧ pos = match query_first (i, p, c, d, bt, bv) t with
                    | Some (pos0, _) => pos0
                    | None => length t
                    end)
  ∧ (∀ k, k ≠ (i, p, c, d, bt, bv) → query_first k t' = query_first k t)
  ∧ length t' = match query_first (i, p, c, d, bt, bv) t with
                | Some _ => length t
                | None => S (length t)
                end.
Proof.
  cbv zeta. unfold upsert.
  destruct (query_first (i, p, c, d, bt, bv) t) as [[pos r]|] eqn:E.
  - unfold query_first in E. pose proof E as E'.
    apply list_find_Some in E' as (Hpos & Hk & Hfirst). split_and!.
    + exists pos, (overwrite name imp clk sp conv now r).
      split; [|split; [apply carries_overwrite|done]].
      apply list_find_Some. split_and!.
      * apply list_lookup_insert_eq. by eapply lookup_lt_Some.
      * by rewrite key_of_overwrite.
      * intros j y Hj Hlt. rewrite list_lookup_insert_ne in Hj by lia.
        by eapply Hfirst.
    + intros k Hne. apply query_first_insert_other with r; [done|congruence|].
      rewrite key_of_overwrite. congruence.
    + by rewrite length_insert.
  - unfold query_first in E. pose proof E as E'. apply list_find_None in E'.
    split_and!.
    + exists (length t), (fresh (i, p, c, d, bt, bv) name imp clk sp conv now).
      split; [|split; [apply carries_fresh|done]].
      apply list_find_Some. split_and!.
      * by rewrite lookup_app_r, Nat.sub_diag.
      * apply key_of_fresh.
      * intros j y Hj Hlt. rewrite lookup_app_l in Hj by done.
        rewrite Forall_forall in E'. apply E'. by eapply list_elem_of_lookup_2.
    + intros k Hne. unfold query_first.
      destruct (list_find (λ r, key_of r = k) t) as [[j x]|] eqn:E2.
      * by apply list_find_app_l.
      * rewrite list_find_app_r by done. simpl.
        rewrite decide_False; [done|]. unfold key_of. simpl. congruence.
    + rewrite length_app. simpl. lia.
Qed.

End LookupFacts.

(** ** What a run may touch *)

Module ConfinementFacts.
Import Store Fetch Confinement StoreFacts.

#[local] Arguments upsert : simpl never.
#[local] Arguments recompute_overall : simpl never.

Section Kept.
Context (i : Z) (p : PlatformNameEnum) (P : table → Prop).
Hypothesis P_upsert : kept_by_upserts i p P.

Lemma both_begin t : P t → both P (begin t).
Proof. by split. Qed.

Lemma both_commit ok s : both P s → both P (try_commit ok s).
Proof. intros [??]. by destruct ok; split. Qed.

Lemma both_rollback s : both P s → both P (rollback s).
Proof. intros [??]. by split. Qed.

Lemma both_on_pending f s :
  (∀ t, P t → P (f t)) → both P s → both P (on_pending f s).
Proof. intros Hf [??]. split; [by apply Hf|done]. Qed.

Lemma kept_recompute_overall now entry t : P t → P (recompute_overall i p now entry t).
Proof.
  intros H. destruct entry as [[c d] nm].
  destruct (recompute_overall_cases i p now c d nm t) as [[_ ->]|[_ ->]].
  - exact H.
  - by apply P_upsert.
Qed.

Lemma kept_recompute_all now T t : P t → P (recompute_all i p now T t).
Proof.
  unfold recompute_all.
  match goal with |- context [foldl _ _ ?l] => generalize l end. intros l. revert t.
  induction l as [|e l IH]; intros t H; simpl; [done|].
  by apply IH, kept_recompute_overall.
Qed.

End Kept.

Section KeptGoogle.
Context (i : Z) (P : table → Prop).
Hypothesis P_upsert : kept_by_upserts i GOOGLE_ADS P.

Lemma kept_store_google_row now row t : P t → P (store_google_row i now row t).
Proof. intros H. unfold store_google_row. by repeat apply P_upsert. Qed.

Lemma kept_google_rows now (l : list (nat * GoogleRow)) st :
  both P (sess st) → both P (sess (foldl (google_row_step i now) st l)).
Proof.
  revert st. induction l as [|x l IH]; intros st H; [done|].
  simpl. apply IH. simpl. apply both_on_pending; [|done].
  intros t. apply kept_store_google_row.
Qed.

Lemma kept_google_batches now events st :
  both P (sess st) → both P (sess (google_batches i now events st).1).
Proof.
  revert st. induction events as [|[results ok|] events IH]; intros st H; [done| |done].
  simpl. pose proof (kept_google_rows now (imap pair results) st H) as H1.
  destruct (row_count _) as [n|]; [|done].
  apply IH. destruct (0 <? n)%nat; [|done]. simpl. by apply both_commit.
Qed.

Lemma kept_google_run now events ok t :
  P t → P (google_stored (google_ads_fetch_data i now events ok t)).
Proof.
  intros H. unfold google_ads_fetch_data.
  match goal with |- context [google_batches i now events ?st0] =>
    pose proof (kept_google_batches now events st0 (both_begin P t H)) as [Hp Hc];
    destruct (google_batches i now events st0) as [st [[|]|]] end; simpl in *;
    [done..|].
  destruct ok; simpl; [|done]. by apply (kept_recompute_all i GOOGLE_ADS P).
Qed.

End KeptGoogle.

Section KeptMeta.
Context (i : Z) (P : table → Prop).
Hypothesis P_upsert : kept_by_upserts i META_ADS P.

Lemma kept_store_meta_items now bt field items : ∀ t t',
  store_meta_items i now bt field items t = Some t' → P t → P t'.
Proof.
  induction items as [|item items IH]; intros t t' Hs H; simpl in Hs.
  - by simplify_eq.
  - destruct (store_meta_item i now bt field item t) as [t1|] eqn:E1; [|done].
    simpl in Hs. eapply IH; [exact Hs|].
    unfold store_meta_item in E1.
    destruct (item_campaign_id item); [|done].
    destruct (item_date_start item); [|done].
    simpl in E1. simplify_eq. by apply P_upsert.
Qed.

Lemma kept_process_meta now data bt field t flag t' :
  _process_and_store_meta_breakdown i now data bt field t = Some (flag, t') →
  P t → P t'.
Proof.
  intros Hs H. unfold _process_and_store_meta_breakdown in Hs.
  destruct data as [[|item items]|]; try by simplify_eq.
  destruct (store_meta_items _ _ _ _ _ _) as [t1|] eqn:E; [|done].
  simpl in Hs. simplify_eq. by eapply kept_store_meta_items.
Qed.

Lemma kept_meta_config_step now api st config :
  both P (meta_sess st) → both P (meta_sess (meta_config_step i now api st config)).
Proof.
  intros H. unfold meta_config_step.
  destruct (api (api_param config)) as [|data ok]; [done|].
  destruct (_process_and_store_meta_breakdown _ _ _ _ _ _) as [[[|] t']|] eqn:E;
    [|done|by apply both_rollback].
  assert (both P (on_pending (λ _, t') (meta_sess st))) as H'.
  { destruct H as [Hp Hc]. split; [|done]. simpl. by eapply kept_process_meta. }
  destruct ok; cbn [meta_sess]; by apply (both_commit P).
Qed.

Lemma kept_meta_loop now api (configs : list breakdown_config) st :
  both P (meta_sess st) →
  both P (meta_sess (foldl (meta_config_step i now api) st configs)).
Proof.
  revert st. induction configs as [|config configs IH]; intros st H; [done|].
  simpl. by apply IH, kept_meta_config_step.
Qed.

Lemma kept_meta_run now api ok t :
  P t → P (meta_stored (meta_ads_fetch_data i now api ok t)).
Proof.
  intros H. unfold meta_ads_fetch_data.
  match goal with |- context [foldl _ ?st0 breakdown_configs] =>
    pose proof (kept_meta_loop now api breakdown_configs st0 (both_begin P t H))
      as [Hp Hc] end.
  destruct (decide _); simpl; [done|].
  destruct ok; simpl; [|done]. by apply (kept_recompute_all i META_ADS P).
Qed.

End KeptMeta.

(** *** The unique constraint *)

Lemma unique_keys_kept i p : kept_by_upserts i p unique_keys.
Proof. intros c name d bt bv imp clk sp conv now t. apply upsert_unique_keys. Qed.

(** X2.  Whatever the vendor streams and whichever commits the database
    refuses, a Google Ads or Meta Ads run that starts from a table satisfying
    the unique constraint leaves a table that satisfies it. *)
Theorem runs_keep_unique_keys t :
  unique_keys t →
  (∀ i now events ok, unique_keys (google_stored (google_ads_fetch_data i now events ok t)))
  ∧ (∀ i now api ok, unique_keys (meta_stored (meta_ads_fetch_data i now api ok t))).
Proof.
  intros Hu. split; intros i now x ok.
  - by apply kept_google_run; [apply unique_keys_kept|].
  - by apply kept_meta_run; [apply unique_keys_kept|].
Qed.

Lemma sample_runs_keep_unique_keys :
  unique_keys Samples.two_facts
  ∧ unique_keys (google_stored
                   (google_ads_fetch_data 1 2000 Samples.interrupted_stream true
                      Samples.two_facts))
  ∧ unique_keys (meta_stored
                   (meta_ads_fetch_data 2 2000 Samples.meta_api true Samples.two_facts)).
Proof.
  assert (unique_keys Samples.two_facts) as H.
  { apply (bool_decide_unpack _). vm_compute. reflexivity. }
  split; [exact H|].
  destruct (runs_keep_unique_keys Samples.two_facts H) as [Hg Hm].
  split; [apply Hg|apply Hm].
Defined.

(** *** Confinement *)

Lemma grown_refl i p t : grown i p t t.
Proof. split; [|congruence]. intros pos r0 H. by exists r0. Qed.

Lemma grown_kept i p t0 : kept_by_upserts i p (grown i p t0).
Proof.
  intros c name d bt bv imp clk sp conv now t [Hold Hnew].
  destruct (upsert_cases i p c name d bt bv imp clk sp conv now t)
    as [(pos & r & Hpos & Hk & ->)|[_ ->]].
  - split.
    + intros pos' r0 H0. destruct (Hold pos' r0 H0) as (r' & Hl & Hk' & Hc & Hsame).
      destruct (decide (pos' = pos)) as [->|Hne].
      * assert (r' = r) as -> by congruence.
        exists (overwrite name imp clk sp conv now r). split_and!.
        -- apply list_lookup_insert_eq. by eapply lookup_lt_Some.
        -- by rewrite key_of_overwrite.
        -- done.
        -- intros Hown. exfalso. apply Hown.
           rewrite Hk in Hk'. unfold key_of in Hk'. unfold own. by simplify_eq.
      * exists r'. by rewrite list_lookup_insert_ne.
    + intros pos' r' Hl H0. destruct (decide (pos' = pos)) as [->|Hne].
      * rewrite list_lookup_insert_eq in Hl by (by eapply lookup_lt_Some).
        simplify_eq. unfold key_of in Hk. unfold own. simpl. by simplify_eq.
      * rewrite list_lookup_insert_ne in Hl by done. by eapply Hnew.
  - split.
    + intros pos' r0 H0. destruct (Hold pos' r0 H0) as (r' & Hl & Hrest).
      exists r'. split; [|done]. by apply lookup_app_l_Some.
    + intros pos' r' Hl H0. apply lookup_app_Some in Hl as [Hl|[_ Hl]].
      * by eapply Hnew.
      * apply list_lookup_singleton_Some in Hl as [_ <-]. by split.
Qed.

(** X3.  A run writes only the facts of its own integration on its own
    platform: every row stored before the run is still in its place, under
    its key and with its creation stamp, the rows of other integrations and
    platforms are unchanged, and every row added is an own row.  No run
    deletes a row. *)
Theorem runs_are_confined t :
  (∀ i now events ok,
     grown i GOOGLE_ADS t (google_stored (google_ads_fetch_data i now events ok t)))
  ∧ (∀ i now api ok,
       grown i META_ADS t (meta_stored (meta_ads_fetch_data i now api ok t))).
Proof.
  split; intros i now x ok.
  - apply kept_google_run; [apply grown_kept|apply grown_refl].
  - apply kept_meta_run; [apply grown_kept|apply grown_refl].
Qed.


(** *** Nothing is kept without a commit *)

Lemma google_rows_committed i now (l : list (nat * GoogleRow)) st :
  committed (sess (foldl (google_row_step i now) st l)) = committed (sess st).
Proof. revert st. induction l as [|x l IH]; intros st; [done|]. simpl. by rewrite IH. Qed.

Lemma google_batches_committed i now events st :
  (∀ results ok, Batch results ok ∈ events → ok = false) →
  committed (sess (google_batches i now events st).1) = committed (sess st).
Proof.
  revert st. induction events as [|[results ok|] events IH]; intros st Hall; [done| |done].
  simpl. pose proof (google_rows_committed i now (imap pair results) st) as H1.
  destruct (row_count _) as [n|]; [|done].
  rewrite IH by (intros ???; apply (Hall results0); by right).
  destruct (0 <? n)%nat; [|done]. simpl.
  rewrite (Hall results ok) by left. done.
Qed.

Lemma meta_config_step_committed i now api st config :
  (∀ param data ok, api param = Reply data ok → ok = false) →
  committed (meta_sess (meta_config_step i now api st config))
  = committed (meta_sess st).
Proof.
  intros Hall. unfold meta_config_step.
  destruct (api (api_param config)) as [|data ok] eqn:Ea; [done|].
  rewrite (Hall _ _ _ Ea).
  by destruct (_process_and_store_meta_breakdown _ _ _ _ _ _) as [[[|] t']|].
Qed.

Lemma meta_loop_committed i now api (configs : list breakdown_config) st :
  (∀ param data ok, api param = Reply data ok → ok = false) →
  committed (meta_sess (foldl (meta_config_step i now api) st configs))
  = committed (meta_sess st).
Proof.
  intros Hall. revert st. induction configs as [|config configs IH]; intros st; [done|].
  simpl. by rewrite IH, meta_config_step_committed.
Qed.

(** X4.  A run none of whose commits the database accepts leaves the
    stored table as it was. *)
Theorem nothing_stored_without_a_commit t :
  (∀ i now events,
     (∀ results ok, Batch results ok ∈ events → ok = false) →
     google_stored (google_ads_fetch_data i now events false t) = t)
  ∧ (∀ i now api,
       (∀ param data ok, api param = Reply data ok → ok = false) →
       meta_stored (meta_ads_fetch_data i now api false t) = t).
Proof.
  split.
  - intros i now events Hall. unfold google_ads_fetch_data.
    match goal with |- context [google_batches i now events ?st0] =>
      pose proof (google_batches_committed i now events st0 Hall) as Hc;
      destruct (google_batches i now events st0) as [st [[|]|]] end; by simpl in *.
  - intros i now api Hall. unfold meta_ads_fetch_data.
    match goal with |- context [foldl _ ?st0 breakdown_configs] =>
      pose proof (meta_loop_committed i now api breakdown_configs st0 Hall) as Hc end.
    by destruct (decide _).
Qed.

Lemma nothing_stored_on_refused_commits :
  google_stored (google_ads_fetch_data 1 2000
                   [Batch [Samples.row_mobile; Samples.row_desktop] false]
                   false Samples.two_facts)
  = Samples.two_facts.
Proof.
  apply (proj1 (nothing_stored_without_a_commit Samples.two_facts)).
  intros results ok [= _ <-]%list_elem_of_singleton. reflexivity.
Defined.

(** *** The batch commit of the Google Ads route *)

(** X5.  The commit after a batch of the Google Ads stream is guarded by
    [row_count > 0], the index of the last row.  So a stream that opens with
    an empty batch ends in the unexpected-error flash with nothing stored
    ([row_count] is unbound); a batch of one row is not committed, and is
    lost when the vendor's error follows; a batch of two rows or more whose
    commit is accepted stays stored when the vendor's error follows. *)
Theorem google_batch_commit_guard i now t :
  (∀ ok rest overall_ok,
     let run := google_ads_fetch_data i now (Batch [] ok :: rest) overall_ok t in
     google_flash run = Google_unexpected_error ∧ google_stored run = t)
  ∧ (∀ row ok overall_ok,
       let run := google_ads_fetch_data i now [Batch [row] ok; GoogleAdsException]
                    overall_ok t in
       google_flash run = Google_api_error ∧ google_stored run = t)
  ∧ (∀ row1 row2 rows overall_ok,
       let run := google_ads_fetch_data i now
                    [Batch (row1 :: row2 :: rows) true; GoogleAdsException]
                    overall_ok t in
       google_flash run = Google_api_error
       ∧ google_stored run
         = foldl (λ acc row, store_google_row i now row acc) t (row1 :: row2 :: rows)).
Proof.
  split_and!.
  - done.
  - done.
  - intros row1 row2 rows overall_ok. cbv zeta. unfold google_ads_fetch_data.
    cbn [google_batches].
    set (st0 := {| sess := begin t; processed_campaign_dates := ∅; row_count := None |}).
    assert (∀ (l : list GoogleRow) (k : nat) st,
              (pending (sess (foldl (google_row_step i now) st (imap (λ j, pair (k + j)%nat) l)))
               = foldl (λ acc row, store_google_row i now row acc) (pending (sess st)) l)
              ∧ (l ≠ [] →
                 row_count (foldl (google_row_step i now) st (imap (λ j, pair (k + j)%nat) l))
                 = Some (k + length l - 1)%nat)) as Hloop.
    { induction l as [|row l IH]; intros k st; [done|].
      simpl. destruct (IH (S k) (google_row_step i now st (k + 0, row)%nat)) as [IH1 IH2].
      assert (imap (λ j, pair (k + S j)%nat) l = imap (λ j, pair (S k + j)%nat) l) as E.
      { apply imap_ext. intros j x _. f_equal. lia. }
      unfold compose. rewrite E. split.
      - by rewrite IH1.
      - intros _. destruct l as [|row' l]; [simpl; f_equal; lia|].
        rewrite IH2 by done. f_equal. simpl. lia. }
    destruct (Hloop (row1 :: row2 :: rows) 0%nat st0) as [Hp Hr].
    change (imap (λ j, pair (0 + j)%nat) (row1 :: row2 :: rows))
      with (imap pair (row1 :: row2 :: rows)) in Hp, Hr.
    set (st1 := foldl (google_row_step i now) st0 (imap pair (row1 :: row2 :: rows)))
      in *.
    rewrite Hr by done.
    replace (0 <? 0 + length (row1 :: row2 :: rows) - 1)%nat with true
      by (symmetry; apply Nat.ltb_lt; simpl; lia).
    cbn -[st1]. by rewrite Hp.
Qed.


(** *** One Google Ads row, four facts *)

Lemma upsert_other_rows_of k i p c name d bt bv imp clk sp conv now t :
  k ≠ (i, p, c, d, bt, bv) →
  rows_of k (upsert i p c name d bt bv imp clk sp conv now t) = rows_of k t.
Proof.
  intros Hk. unfold rows_of. apply upsert_filter_other. intros r -> E. done.
Qed.

Lemma stored_upsert i p c name d bt bv imp clk sp conv now t :
  unique_keys t →
  stored_under (i, p, c, d, bt, bv) name imp clk sp conv
    (upsert i p c name d bt bv imp clk sp conv now t).
Proof. apply upsert_rows_of. Qed.

Lemma stored_other k name' imp' clk' sp' conv' i p c name d bt bv imp clk sp conv now t :
  k ≠ (i, p, c, d, bt, bv) →
  stored_under k name' imp' clk' sp' conv' t →
  stored_under k name' imp' clk' sp' conv'
    (upsert i p c name d bt bv imp clk sp conv now t).
Proof. intros Hk. unfold stored_under. by rewrite upsert_other_rows_of. Qed.

Lemma stored_counts k name imp clk sp conv t :
  stored_under k name imp clk sp conv t → counts_stored_under k name imp clk conv t.
Proof. intros (r & Hr & Hn & Hi & Hc & _ & Hv). by exists r. Qed.

(** X6.  On a table satisfying the unique constraint, one row of the
    Google Ads answer is stored as four facts, one per breakdown (device,
    country, age range, gender): under each of the four keys there is
    exactly one row, and it holds the campaign name, the impressions and the
    clicks of the API row and its conversions truncated to an integer.  (The
    spend, which passes through a float division and the two-decimal column,
    is left out.) *)
Theorem google_row_stored_four_times i now row t :
  unique_keys t →
  let fact bt bv :=
    counts_stored_under
      (i, GOOGLE_ADS, pretty (campaign_id row), metrics_date row, bt, bv)
      (campaign_name row) (metrics_impressions row) (metrics_clicks row)
      (int_of (metrics_conversions row))
      (store_google_row i now row t) in
  fact "device" (Normalizer.google_device (segments_device row))
  ∧ fact "country" (Normalizer.google_country (segments_geo_target_country row))
  ∧ fact "age_range" (Normalizer.google_age (segments_age_range_type row))
  ∧ fact "gender" (Normalizer.google_gender (segments_gender_type row)).
Proof.
  intros Hu. cbv zeta. unfold store_google_row. split_and!;
    apply (stored_counts _ _ _ _ (metrics_cost_micros row # 1000000)%Q).
  - do 3 (apply stored_other; [congruence|]). by apply stored_upsert.
  - do 2 (apply stored_other; [congruence|]).
    by apply stored_upsert, upsert_unique_keys.
  - apply stored_other; [congruence|].
    by apply stored_upsert, upsert_unique_keys, upsert_unique_keys.
  - by apply stored_upsert, upsert_unique_keys, upsert_unique_keys, upsert_unique_keys.
Qed.

Lemma google_row_stored_four_times_on_sample :
  unique_keys Samples.two_facts
  ∧ counts_stored_under
      (1, GOOGLE_ADS, "42", Samples.oct_30, "device", "mobile")
      "Brand" 1000 50 3
      (store_google_row 1 2000 Samples.row_mobile Samples.two_facts)
  ∧ counts_stored_under
      (1, GOOGLE_ADS, "42", Samples.oct_30, "country", "US")
      "Brand" 1000 50 3
      (store_google_row 1 2000 Samples.row_mobile Samples.two_facts).
Proof.
  assert (unique_keys Samples.two_facts) as H.
  { apply (bool_decide_unpack _). vm_compute. reflexivity. }
  split; [exact H|].
  pose proof (google_row_stored_four_times 1 2000 Samples.row_mobile
                Samples.two_facts H) as (Hd & Hc & _).
  split; [exact Hd|exact Hc].
Defined.

(** *** Meta Ads: one breakdown is stored whole or not at all *)

Lemma store_meta_items_raises i now bt field items t :
  Exists (λ item, item_campaign_id item = None ∨ item_date_start item = None) items →
  store_meta_items i now bt field items t = None.
Proof.
  intros H. revert t. induction H as [item items Hbad|item items _ IH]; intros t; simpl.
  - unfold store_meta_item. destruct Hbad as [-> | ->]; [done|].
    by destruct (item_campaign_id item).
  - destruct (store_meta_item i now bt field item t) as [t1|]; [|done].
    simpl. apply IH.
Qed.

(** X7.  A breakdown of the Meta Ads run is stored whole or not at all:
    when one item of the answer lacks its campaign id or its start date, the
    step rolls the session back to what was committed, adds no campaign date
    for the rollup and marks the run as not fully successful. *)
Theorem meta_breakdown_is_all_or_nothing i now api st config items ok :
  api (api_param config) = Reply (Some items) ok →
  Exists (λ item, item_campaign_id item = None ∨ item_date_start item = None) items →
  meta_config_step i now api st config
  = {| meta_sess := rollback (meta_sess st);
       processed_overall_campaign_dates := processed_overall_campaign_dates st;
       all_fetches_successful := false |}.
Proof.
  intros Ha Hbad. unfold meta_config_step. rewrite Ha.
  unfold _process_and_store_meta_breakdown.
  destruct items as [|item items]; [by apply Exists_nil in Hbad|].
  by rewrite store_meta_items_raises.
Qed.

Lemma undated_item_discards_the_breakdown :
  meta_config_step 2 2000 MoreSamples.meta_api_undated
    {| meta_sess := begin Samples.two_facts;
       processed_overall_campaign_dates := ∅;
       all_fetches_successful := true |}
    {| config_name := "device"; api_param := "device_platform"; db_type := "device" |}
  = {| meta_sess := rollback (begin Samples.two_facts);
       processed_overall_campaign_dates := ∅;
       all_fetches_successful := false |}.
Proof.
  apply (meta_breakdown_is_all_or_nothing 2 2000 MoreSamples.meta_api_undated
           {| meta_sess := begin Samples.two_facts;
              processed_overall_campaign_dates := ∅;
              all_fetches_successful := true |}
           {| config_name := "device"; api_param := "device_platform";
              db_type := "device" |}
           [Samples.meta_item "desktop" 300; MoreSamples.undated_item] true).
  - reflexivity.
  - apply Exists_cons_tl, Exists_cons_hd. right. reflexivity.
Defined.

(** *** Meta Ads: no rollup without the device breakdown *)

Lemma meta_config_step_without_device i now api st config :
  api (api_param config) = RequestException
  ∨ String.eqb (config_name config) "device" = false →
  processed_overall_campaign_dates (meta_config_step i now api st config)
  = processed_overall_campaign_dates st.
Proof.
  intros H. unfold meta_config_step.
  destruct (api (api_param config)) as [|data ok]; [done|].
  destruct H as [?|Hn]; [done|].
  destruct (_process_and_store_meta_breakdown _ _ _ _ _ _) as [[[|] t']|]; try done.
  destruct ok; simpl; [|done]. by rewrite Hn.
Qed.

Lemma meta_config_step_stays_failed i now api st config :
  all_fetches_successful st = false →
  all_fetches_successful (meta_config_step i now api st config) = false.
Proof.
  intros H. unfold meta_config_step.
  destruct (api (api_param config)) as [|data ok]; [done|].
  destruct (_process_and_store_meta_breakdown _ _ _ _ _ _) as [[[|] t']|]; try done.
  by destruct ok.
Qed.

(** X8.  When the device call of a Meta Ads run fails with a request
    error, the run ends in the danger flash and leaves every device fact and
    every overall fact as it was, whatever the other three calls return. *)
Theorem meta_device_call_fails i now api ok t :
  unique_keys t →
  api "device_platform" = RequestException →
  let run := meta_ads_fetch_data i now api ok t in
  meta_flash run = Meta_issues
  ∧ (∀ i' p' c d, device_facts i' p' c d (meta_stored run) = device_facts i' p' c d t)
  ∧ (∀ i' p' c d, overall_facts i' p' c d (meta_stored run) = overall_facts i' p' c d t).
Proof.
  intros Hu Hdev. cbv zeta. unfold meta_ads_fetch_data.
  set (st0 := {| meta_sess := begin t; processed_overall_campaign_dates := ∅;
                 all_fetches_successful := true |}).
  pose proof (FetchFacts.meta_loop_frame i now api t breakdown_configs st0
                (λ _ H, H) (FetchFacts.frame_begin i META_ADS t Hu)) as [_ Hc].
  set (st := foldl (meta_config_step i now api) st0 breakdown_configs) in *.
  assert (processed_overall_campaign_dates st = ∅ ∧ all_fetches_successful st = false)
    as [Hset Hfail].
  { unfold st, breakdown_configs. cbn [foldl]. split.
    - rewrite !meta_config_step_without_device; [done|by left|by right..].
    - do 3 apply meta_config_step_stays_failed.
      unfold meta_config_step. cbn [api_param]. by rewrite Hdev. }
  rewrite Hset in Hc |- *. rewrite decide_True by done. cbn [meta_flash meta_stored].
  rewrite Hfail. destruct Hc as (_ & Ho & Hd). split_and!; [done| |done].
  intros i' p' c d. apply Hd. intros (_ & _ & nm & Hin). set_solver.
Qed.

Lemma failed_device_call_on_sample :
  unique_keys Samples.two_facts
  ∧ MoreSamples.meta_api_no_device "device_platform" = RequestException
  ∧ meta_flash (meta_ads_fetch_data 2 2000 MoreSamples.meta_api_no_device true Samples.two_facts)
    = Meta_issues
  ∧ overall_facts 2 META_ADS "777" Samples.oct_30
      (meta_stored (meta_ads_fetch_data 2 2000 MoreSamples.meta_api_no_device true Samples.two_facts))
    = overall_facts 2 META_ADS "777" Samples.oct_30 Samples.two_facts.
Proof.
  assert (unique_keys Samples.two_facts) as H.
  { apply (bool_decide_unpack _). vm_compute. reflexivity. }
  split; [exact H|]. split; [reflexivity|].
  pose proof (meta_device_call_fails 2 2000 MoreSamples.meta_api_no_device true
                Samples.two_facts H eq_refl) as (Hf & _ & Ho).
  split; [exact Hf|apply Ho].
Defined.

(** *** Meta Ads: which actions count as conversions *)

Lemma prefix_contains a b s :
  String.prefix (a +:+ b) s = true → PyStr.contains b s = true.
Proof.
  revert s. induction a as [|x a IH]; intros s H.
  - by apply NormalizerFacts.contains_here.
  - destruct s as [|y s]; [done|].
    change (String x a +:+ b) with (String x (a +:+ b)) in H. simpl in H.
    destruct (Ascii.ascii_dec x y); [|done].
    by apply NormalizerFacts.contains_later, IH.
Qed.

Lemma contains_longer a b s :
  PyStr.contains (a +:+ b) s = true → PyStr.contains b s = true.
Proof.
  induction s as [|y s IH]; intros H; cbn [PyStr.contains] in H.
  - destruct (String.prefix (a +:+ b) "") eqn:E; [|done].
    by apply (prefix_contains a b "").
  - destruct (String.prefix (a +:+ b) (String y s)) eqn:E.
    + by apply (prefix_contains a b).
    + by apply NormalizerFacts.contains_later, IH.
Qed.

(** X9.  The conversions of a Meta Ads item are the sum of the values of
    the actions whose type contains [purchase]: the three other substrings
    the code tests for contain it, so they select nothing more. *)
Theorem purchase_actions_are_counted :
  (∀ action_type, is_purchase action_type = PyStr.contains "purchase" action_type)
  ∧ (∀ item,
       count_conversions item
       = foldr (λ action total, action_value action + total) 0
           (List.filter (λ action, PyStr.contains "purchase" (action_type action))
              (default [] (item_actions item)))).
Proof.
  assert (∀ action_type, is_purchase action_type = PyStr.contains "purchase" action_type)
    as Hp.
  { intros ty. unfold is_purchase.
    destruct (PyStr.contains "purchase" ty) eqn:E; [done|]. simpl.
    destruct (PyStr.contains "offsite_conversion.fb_pixel_purchase" ty) eqn:E1.
    { apply (contains_longer "offsite_conversion.fb_pixel_" "purchase") in E1. congruence. }
    destruct (PyStr.contains "omni_purchase" ty) eqn:E2.
    { apply (contains_longer "omni_" "purchase") in E2. congruence. }
    destruct (PyStr.contains "website_purchase" ty) eqn:E3; [|done].
    apply (contains_longer "website_" "purchase") in E3. congruence. }
  split; [exact Hp|].
  intros item. unfold count_conversions.
  generalize (default [] (item_actions item)). intros l.
  assert (∀ acc,
            foldl (λ n action, if is_purchase (action_type action)
                               then n + action_value action else n) acc l
            = acc + foldr (λ action total, action_value action + total) 0
                      (List.filter (λ action, PyStr.contains "purchase"
                                                (action_type action)) l)) as H.
  { induction l as [|a l IH]; intros acc; simpl; [lia|].
    rewrite IH, Hp. destruct (PyStr.contains "purchase" (action_type a)); simpl; lia. }
  by rewrite H.
Qed.

End ConfinementFacts.

(** ** Failed and redelivered webhook events *)

Module BillingReplay.
Import PyStr Billing BillingRows BillingFacts.

Lemma commit_if_failed changed env failure db' db :
  commit_ok env = false → (commit_if changed env failure db' db).2 = db.
Proof. unfold commit_if. intros ->. by destruct changed. Qed.

Lemma commit_ok_failed env : commit_result env ≠ Committed → commit_ok env = false.
Proof. unfold commit_ok. by destruct (commit_result env). Qed.

Lemma handle_checkout_failed env session db :
  commit_ok env = false → (handle_checkout env session db).2 = db.
Proof.
  intros Hc. unfold handle_checkout.
  destruct (client_reference_id session) as [uid|]; [|done].
  destruct (truthy_str (session_subscription session)) as [sid|]; [|done].
  destruct (truthy_str (session_customer session)) as [cust|]; [|done].
  destruct (list_find _ (users db)) as [[? user]|]; [|done].
  set (modified := bool_decide _).
  destruct (find_subscription sid _) as [?|].
  - simpl. rewrite Hc. by destruct modified.
  - destruct (session_line_items env) as [|[|price ?]]; [done..|].
    destruct (list_find _ (plans _)) as [[? plan]|]; [|done].
    destruct (subscription_retrieve env); [|done].
    by rewrite checkout_constructor_raises.
Qed.

Lemma handle_payment_succeeded_failed env invoice db :
  commit_ok env = false → (handle_payment_succeeded env invoice db).2 = db.
Proof.
  intros Hc. unfold handle_payment_succeeded.
  destruct (truthy_str _) as [sid|]; [|done].
  destruct (find_subscription _ _) as [[pos us]|]; [|done].
  destruct (subscription_retrieve env); [|done].
  by apply commit_if_failed.
Qed.

Lemma handle_cancellation_failed env deleted subscription_data db :
  commit_ok env = false → (handle_cancellation env deleted subscription_data db).2 = db.
Proof.
  intros Hc. unfold handle_cancellation.
  destruct (find_subscription _ _) as [[pos us]|]; [|done].
  destruct (bool_decide _); [done|]. by apply commit_if_failed.
Qed.

Lemma handle_payment_failed_failed env invoice db :
  commit_ok env = false → (handle_payment_failed env invoice db).2 = db.
Proof.
  intros Hc. unfold handle_payment_failed.
  destruct (truthy_str _) as [sid|]; [|done].
  destruct (find_subscription _ _) as [[pos us]|]; [|done].
  by apply commit_if_failed.
Qed.

Lemma handle_update_failed env subscription_data db :
  commit_ok env = false → (handle_update env subscription_data db).2 = db.
Proof.
  intros Hc. unfold handle_update.
  destruct (find_subscription _ _) as [[pos us]|]; [|done].
  destruct (sync_plan _ _ _) as [step2|]; [|done].
  destruct (sync_status _ _) as [step3|]; [|done].
  by apply commit_if_failed.
Qed.

(** X10.  A delivery whose commit fails leaves the database as it was. *)
Theorem failed_commit_changes_nothing env d db :
  commit_result env ≠ Committed → (stripe_webhook env d db).2 = db.
Proof.
  intros Hc%commit_ok_failed. destruct d as [| | |[session|invoice|sd|sd|invoice|ty]];
    try done; simpl.
  - by apply handle_checkout_failed.
  - by apply handle_payment_succeeded_failed.
  - by apply handle_cancellation_failed.
  - destruct (cancel_at_period_end sd) as [[|]|];
      by first [apply handle_cancellation_failed | apply handle_update_failed].
  - by apply handle_payment_failed_failed.
Qed.

Lemma failed_commit_on_cancellation :
  commit_result MoreSamples.refusing ≠ Committed
  ∧ (stripe_webhook MoreSamples.refusing
       (Event (customer_subscription_deleted (Samples.stripe_sub "canceled")))
       MoreSamples.active_db).2 = MoreSamples.active_db.
Proof.
  assert (commit_result MoreSamples.refusing ≠ Committed) as H by (vm_compute; discriminate).
  split; [exact H|].
  exact (failed_commit_changes_nothing MoreSamples.refusing
           (Event (customer_subscription_deleted (Samples.stripe_sub "canceled")))
           MoreSamples.active_db H).
Defined.


(** *** What no delivery touches *)

Lemma store_same_projection {B} (f : UserSubscription → B) pos us us' db :
  subscriptions db !! pos = Some us → f us' = f us →
  f <$> subscriptions (store_subscription pos us' db) = f <$> subscriptions db.
Proof.
  intros Hpos Hf. simpl. rewrite list_fmap_insert, Hf.
  apply list_insert_id. by rewrite list_lookup_fmap, Hpos.
Qed.

Lemma commit_if_projection {A} (g : database → A) changed env failure db' db :
  g db' = g db → g (commit_if changed env failure db' db).2 = g db.
Proof. intros H. by destruct (commit_if_cases changed env failure db' db) as [->| ->]. Qed.

Lemma sync_plan_keeps subscription_data plans_ us r :
  sync_plan subscription_data plans_ us = Some r →
  user_id r.1 = user_id us ∧ start_date r.1 = start_date us
  ∧ stripe_subscription_id r.1 = stripe_subscription_id us
  ∧ status r.1 = status us ∧ end_date r.1 = end_date us.
Proof.
  unfold sync_plan. intros H.
  destruct (sub_items subscription_data) as [| |price]; [by simplify_eq|done|].
  destruct (list_find (λ p, plan_pk p = plan_id us) plans_) as [[? plan]|];
    simpl in H; [|done].
  destruct (bool_decide _); [|by simplify_eq].
  destruct (list_find _ plans_) as [[? new_plan]|]; by simplify_eq.
Qed.

Lemma sync_status_keeps subscription_data us r :
  sync_status subscription_data us = Some r →
  user_id r.1 = user_id us ∧ start_date r.1 = start_date us
  ∧ stripe_subscription_id r.1 = stripe_subscription_id us
  ∧ plan_id r.1 = plan_id us ∧ end_date r.1 = end_date us.
Proof.
  unfold sync_status. intros H.
  destruct (sub_status subscription_data) as [str|]; simpl in H; [|done].
  destruct (from_stripe_status str) as [new|]; [|by simplify_eq].
  destruct (bool_decide (status us ≠ new)); [|by simplify_eq].
  destruct (bool_decide _); by simplify_eq.
Qed.

Lemma sync_trial_keeps subscription_data npe us :
  let r := sync_trial subscription_data npe us in
  user_id r.1 = user_id us ∧ start_date r.1 = start_date us
  ∧ stripe_subscription_id r.1 = stripe_subscription_id us
  ∧ plan_id r.1 = plan_id us.
Proof.
  unfold sync_trial. destruct (bool_decide _); [|done].
  destruct (truthy_ts _); [|done]. by destruct (bool_decide _).
Qed.

Lemma handle_payment_succeeded_identity env invoice db :
  row_identity <$> subscriptions (handle_payment_succeeded env invoice db).2
  = row_identity <$> subscriptions db.
Proof.
  unfold handle_payment_succeeded.
  destruct (truthy_str _) as [sid|]; [|done].
  destruct (find_subscription _ _) as [[pos us]|] eqn:Ef; [|done].
  apply find_subscription_lookup in Ef.
  destruct (subscription_retrieve env) as [sd|]; [|done].
  apply (commit_if_projection (λ db, row_identity <$> subscriptions db)).
  apply store_same_projection with us; [done|].
  repeat (destruct (bool_decide _); simpl); reflexivity.
Qed.

Lemma handle_cancellation_identity env deleted subscription_data db :
  row_identity <$> subscriptions (handle_cancellation env deleted subscription_data db).2
  = row_identity <$> subscriptions db.
Proof.
  unfold handle_cancellation.
  destruct (find_subscription _ _) as [[pos us]|] eqn:Ef; [|done].
  apply find_subscription_lookup in Ef.
  destruct (bool_decide _); [done|].
  apply (commit_if_projection (λ db, row_identity <$> subscriptions db)).
  apply store_same_projection with us; [done|].
  by destruct (truthy_ts _).
Qed.

Lemma handle_payment_failed_identity env invoice db :
  row_identity <$> subscriptions (handle_payment_failed env invoice db).2
  = row_identity <$> subscriptions db.
Proof.
  unfold handle_payment_failed.
  destruct (truthy_str _) as [sid|]; [|done].
  destruct (find_subscription _ _) as [[pos us]|] eqn:Ef; [|done].
  apply find_subscription_lookup in Ef.
  apply (commit_if_projection (λ db, row_identity <$> subscriptions db)).
  by apply store_same_projection with us.
Qed.

Lemma handle_update_identity env subscription_data db :
  row_identity <$> subscriptions (handle_update env subscription_data db).2
  = row_identity <$> subscriptions db.
Proof.
  unfold handle_update.
  destruct (find_subscription _ _) as [[pos us]|] eqn:Ef; [|done].
  apply find_subscription_lookup in Ef.
  set (step1 := if bool_decide _ then _ else _).
  assert (row_identity step1.1 = row_identity us) as H1
    by (unfold step1; by destruct (bool_decide _)).
  destruct (sync_plan _ _ _) as [step2|] eqn:E2; [|done].
  destruct (sync_status _ _) as [step3|] eqn:E3; [|done].
  apply (commit_if_projection (λ db, row_identity <$> subscriptions db)).
  apply store_same_projection with us; [done|].
  destruct (sync_plan_keeps _ _ _ _ E2) as (?&?&?&_).
  destruct (sync_status_keeps _ _ _ E3) as (?&?&?&_).
  destruct (sync_trial_keeps subscription_data (current_period_end subscription_data)
              step3.1) as (?&?&?&_).
  unfold row_identity in *. congruence.
Qed.

Lemma handle_checkout_users env session db :
  user_pk <$> users (handle_checkout env session db).2 = user_pk <$> users db
  ∧ plans (handle_checkout env session db).2 = plans db.
Proof.
  assert (∀ customer pk, user_pk <$> users (set_customer customer pk db)
                         = user_pk <$> users db) as Hset.
  { intros customer pk. simpl. rewrite <- list_fmap_compose.
    apply list_fmap_ext. intros ? u _. simpl. by destruct (decide _). }
  unfold handle_checkout.
  destruct (client_reference_id session) as [uid|]; [|done].
  destruct (truthy_str (session_subscription session)) as [sid|]; [|done].
  destruct (truthy_str (session_customer session)) as [cust|]; [|done].
  destruct (list_find _ (users db)) as [[? user]|]; [|done].
  set (modified := bool_decide _).
  destruct (find_subscription sid _) as [?|].
  - destruct modified, (commit_ok env); cbn [snd andb]; (split; [|done]);
      first [done | apply Hset].
  - destruct (session_line_items env) as [|[|price ?]]; [done..|].
    destruct (list_find _ (plans _)) as [[? plan]|]; [|done].
    destruct (subscription_retrieve env); [|done].
    by rewrite checkout_constructor_raises.
Qed.

Lemma commit_if_users changed env failure pos us db :
  users (commit_if changed env failure (store_subscription pos us db) db).2 = users db
  ∧ plans (commit_if changed env failure (store_subscription pos us db) db).2 = plans db.
Proof. by destruct (commit_if_cases changed env failure (store_subscription pos us db) db)
         as [->| ->]. Qed.

Lemma other_handlers_users env d db :
  (∀ session, d ≠ Event (checkout_session_completed session)) →
  users (stripe_webhook env d db).2 = users db
  ∧ plans (stripe_webhook env d db).2 = plans db.
Proof.
  intros Hd. destruct d as [| | |[session|invoice|sd|sd|invoice|ty]]; try done; simpl.
  - by destruct (Hd session).
  - unfold handle_payment_succeeded.
    destruct (truthy_str _) as [sid|]; [|done].
    destruct (find_subscription _ _) as [[pos us]|]; [|done].
    destruct (subscription_retrieve env); [|done]. apply commit_if_users.
  - unfold handle_cancellation.
    destruct (find_subscription _ _) as [[pos us]|]; [|done].
    destruct (bool_decide _); [done|]. apply commit_if_users.
  - assert (users (handle_cancellation env false sd db).2 = users db
            ∧ plans (handle_cancellation env false sd db).2 = plans db) as Hcan.
    { unfold handle_cancellation.
      destruct (find_subscription _ _) as [[pos us]|]; [|done].
      destruct (bool_decide _); [done|]. apply commit_if_users. }
    assert (users (handle_update env sd db).2 = users db
            ∧ plans (handle_update env sd db).2 = plans db) as Hup.
    { unfold handle_update.
      destruct (find_subscription _ _) as [[pos us]|]; [|done].
      destruct (sync_plan _ _ _) as [step2|]; [|done].
      destruct (sync_status _ _) as [step3|]; [|done]. apply commit_if_users. }
    by destruct (cancel_at_period_end sd) as [[|]|].
  - unfold handle_payment_failed.
    destruct (truthy_str _) as [sid|]; [|done].
    destruct (find_subscription _ _) as [[pos us]|]; [|done]. apply commit_if_users.
Qed.

Lemma webhook_users_plans env d db :
  user_pk <$> users (stripe_webhook env d db).2 = user_pk <$> users db
  ∧ plans (stripe_webhook env d db).2 = plans db.
Proof.
  destruct d as [| | |[session|invoice|sd|sd|invoice|ty]]; try done;
    [apply handle_checkout_users|..];
    match goal with |- context [stripe_webhook env ?d db] =>
      destruct (other_handlers_users env d db) as [H1 H2];
        [intros session; discriminate|by rewrite H1, H2]
    end.
Qed.

(** X11.  No delivery adds or removes a user, a plan or a subscription
    row, and none changes which user a subscription row belongs to, when it
    started or its provider id; only [checkout.session.completed] writes to
    the users, and there only the customer id. *)
Theorem webhook_keeps_rows env d db :
  let db' := (stripe_webhook env d db).2 in
  user_pk <$> users db' = user_pk <$> users db
  ∧ plans db' = plans db
  ∧ row_identity <$> subscriptions db' = row_identity <$> subscriptions db
  ∧ ((∀ session, d ≠ Event (checkout_session_completed session)) →
     users db' = users db).
Proof.
  cbv zeta. split; [apply webhook_users_plans|]. split; [apply webhook_users_plans|].
  split; [|intros Hd; by apply other_handlers_users].
  destruct d as [| | |[session|invoice|sd|sd|invoice|ty]]; try done; simpl.
  - by rewrite checkout_keeps_subscriptions.
  - apply handle_payment_succeeded_identity.
  - apply handle_cancellation_identity.
  - destruct (cancel_at_period_end sd) as [[|]|];
      by first [apply handle_cancellation_identity | apply handle_update_identity].
  - apply handle_payment_failed_identity.
Qed.


(** *** Replays *)

Lemma find_subscription_store sid db pos us us' :
  find_subscription sid (subscriptions db) = Some (pos, us) →
  stripe_subscription_id us' = stripe_subscription_id us →
  find_subscription sid (subscriptions (store_subscription pos us' db))
  = Some (pos, us').
Proof.
  unfold find_subscription. intros (Hl & HP & Hfirst)%list_find_Some Hsid.
  apply list_find_Some. simpl. split_and!.
  - apply list_lookup_insert_eq. by eapply lookup_lt_Some.
  - congruence.
  - intros j y Hj Hlt. rewrite list_lookup_insert_ne in Hj by lia. by eapply Hfirst.
Qed.

Lemma store_again pos us us' db :
  store_subscription pos us (store_subscription pos us' db)
  = store_subscription pos us db.
Proof. unfold store_subscription, with_subscriptions. simpl. by rewrite list_insert_insert_eq. Qed.

Lemma store_found sid pos us db :
  find_subscription sid (subscriptions db) = Some (pos, us) →
  store_subscription pos us db = db.
Proof.
  intros H%find_subscription_lookup. destruct db as [us_ ps ss].
  unfold store_subscription, with_subscriptions. simpl in *. f_equal.
  by apply list_insert_id.
Qed.

(** Once a row is stored, a handler that would store the same row again
    changes nothing, whether its commit goes through or not. *)
Lemma commit_if_stored changed env failure pos us db :
  (commit_if changed env failure
     (store_subscription pos us (store_subscription pos us db))
     (store_subscription pos us db)).2
  = store_subscription pos us db.
Proof.
  match goal with |- context [commit_if ?c ?e ?f ?d' ?d] =>
    destruct (commit_if_cases c e f d' d) as [->| ->] end; [done|apply store_again].
Qed.

Lemma replay_unchanged {A} (h : database → A * database) db :
  (h db).2 = db → (h (h db).2).2 = (h db).2.
Proof. intros H. by rewrite !H. Qed.

Lemma handle_payment_failed_replay env invoice db :
  (handle_payment_failed env invoice (handle_payment_failed env invoice db).2).2
  = (handle_payment_failed env invoice db).2.
Proof.
  assert ((handle_payment_failed env invoice db).2 = db
          ∨ ∃ sid pos us,
              truthy_str (invoice_subscription invoice) = Some sid
              ∧ find_subscription sid (subscriptions db) = Some (pos, us)
              ∧ (handle_payment_failed env invoice db).2
                = store_subscription pos (set_status PAST_DUE us) db) as [H|H].
  { unfold handle_payment_failed.
    destruct (truthy_str _) as [sid|]; [|by left].
    destruct (find_subscription _ _) as [[pos us]|] eqn:Ef; [|by left].
    match goal with |- context [commit_if ?c ?e ?f ?d' ?d] =>
      destruct (commit_if_cases c e f d' d) as [->| ->] end; [by left|].
    right. by exists sid, pos, us. }
  - by apply (replay_unchanged (handle_payment_failed env invoice)).
  - destruct H as (sid & pos & us & Es & Ef & ->).
    unfold handle_payment_failed at 1. rewrite Es.
    rewrite (find_subscription_store sid db pos us (set_status PAST_DUE us) Ef eq_refl).
    apply commit_if_stored.
Qed.

Lemma handle_cancellation_replay env deleted subscription_data db :
  (handle_cancellation env deleted subscription_data
     (handle_cancellation env deleted subscription_data db).2).2
  = (handle_cancellation env deleted subscription_data db).2.
Proof.
  assert ((handle_cancellation env deleted subscription_data db).2 = db
          ∨ ∃ pos us us',
              find_subscription (sub_id subscription_data) (subscriptions db)
              = Some (pos, us)
              ∧ stripe_subscription_id us' = stripe_subscription_id us
              ∧ status us' = CANCELLED
              ∧ (handle_cancellation env deleted subscription_data db).2
                = store_subscription pos us' db) as [H|H].
  { unfold handle_cancellation.
    destruct (find_subscription _ _) as [[pos us]|] eqn:Ef; [|by left].
    destruct (bool_decide _); [by left|].
    match goal with |- context [commit_if ?c ?e ?f ?d' ?d] =>
      destruct (commit_if_cases c e f d' d) as [->| ->] end; [by left|].
    right. eexists pos, us, _. split; [done|]. split; [|split; [|done]];
      by destruct (truthy_ts _). }
  - by apply (replay_unchanged (handle_cancellation env deleted subscription_data)).
  - destruct H as (pos & us & us' & Ef & Hsid & Hst & ->).
    unfold handle_cancellation at 1.
    rewrite (find_subscription_store _ db pos us us' Ef Hsid).
    by rewrite bool_decide_eq_true_2.
Qed.

Lemma handle_payment_succeeded_replay env invoice db :
  (handle_payment_succeeded env invoice (handle_payment_succeeded env invoice db).2).2
  = (handle_payment_succeeded env invoice db).2.
Proof.
  assert ((handle_payment_succeeded env invoice db).2 = db
          ∨ ∃ sid pos us us' sd,
              truthy_str (invoice_subscription invoice) = Some sid
              ∧ find_subscription sid (subscriptions db) = Some (pos, us)
              ∧ subscription_retrieve env = Some sd
              ∧ stripe_subscription_id us' = stripe_subscription_id us
              ∧ ¬ (status us' = TRIALING ∧ billing_reason invoice = "subscription_cycle")
              ∧ status us' ≠ PAST_DUE
              ∧ end_date us' = Some (current_period_end sd)
              ∧ (handle_payment_succeeded env invoice db).2
                = store_subscription pos us' db) as [H|H].
  { unfold handle_payment_succeeded.
    destruct (truthy_str _) as [sid|]; [|by left].
    destruct (find_subscription _ _) as [[pos us]|] eqn:Ef; [|by left].
    destruct (subscription_retrieve env) as [sd|] eqn:Er; [|by left].
    destruct (bool_decide (status us = TRIALING ∧ _)) eqn:E1; cbn [fst snd];
      (destruct (bool_decide (status _ = PAST_DUE)) eqn:E2; cbn [fst snd]);
      (destruct (bool_decide (end_date _ ≠ _)) eqn:E3; cbn [fst snd]);
      (match goal with |- context [commit_if ?c ?e ?f ?d' ?d] =>
         destruct (commit_if_cases c e f d' d) as [->| ->] end; [by left|]);
      right;
      (match goal with |- context [store_subscription pos ?r db] =>
         exists sid, pos, us, r, sd end);
      (split; [done|]); (split; [done|]); (split; [done|]);
      repeat match goal with
             | H : bool_decide _ = true |- _ => apply bool_decide_eq_true in H
             | H : bool_decide _ = false |- _ => apply bool_decide_eq_false in H
             end;
      simpl in *; split_and!; try done; try naive_solver;
      by destruct (decide (end_date us = Some (current_period_end sd))). }
  - by apply (replay_unchanged (handle_payment_succeeded env invoice)).
  - destruct H as (sid & pos & us & us' & sd & Es & Ef & Er & Hsid & H1 & H2 & H3 & ->).
    unfold handle_payment_succeeded at 1. rewrite Es.
    rewrite (find_subscription_store sid db pos us us' Ef Hsid), Er.
    rewrite (bool_decide_eq_false_2 _ H1). cbn [fst snd].
    rewrite (bool_decide_eq_false_2 _ H2). cbn [fst snd].
    rewrite bool_decide_eq_false_2 by (intros ?; congruence). done.
Qed.


Lemma sync_plan_result sd plans_ us r :
  sync_plan sd plans_ us = Some r → r.1 = set_plan_id (plan_id r.1) us.
Proof.
  unfold sync_plan. intros H.
  assert (us = set_plan_id (plan_id us) us) as Hus by (by destruct us).
  destruct (sub_items sd) as [| |price]; [by simplify_eq|done|].
  destruct (list_find (λ p, plan_pk p = plan_id us) plans_) as [[? plan]|];
    simpl in H; [|done].
  destruct (bool_decide _); [|by simplify_eq].
  destruct (list_find _ plans_) as [[? new_plan]|]; simplify_eq; [|done].
  by destruct us.
Qed.

(** The plan a row ends up with is a fixed point of the plan step. *)
Lemma sync_plan_again sd plans_ us us2 r r2 :
  sync_plan sd plans_ us = Some r → plan_id us2 = plan_id r.1 →
  sync_plan sd plans_ us2 = Some r2 → plan_id r2.1 = plan_id r.1.
Proof.
  unfold sync_plan. intros H Hp H2.
  destruct (sub_items sd) as [| |price]; [by simplify_eq|done|].
  destruct (list_find (λ p, plan_pk p = plan_id us) plans_) as [[? plan]|] eqn:Eu;
    simpl in H; [|done].
  destruct (bool_decide (plan_stripe_price_id plan ≠ _)) eqn:Eb.
  - destruct (list_find (λ p, plan_stripe_price_id p = Some price) plans_)
      as [[? new_plan]|] eqn:En; apply (inj Some) in H; subst r; simpl in *.
    + destruct (list_find (λ p, plan_pk p = plan_id us2) plans_) as [[? plan2]|];
        simpl in H2; [|done].
      destruct (bool_decide (plan_stripe_price_id plan2 ≠ _));
        apply (inj Some) in H2; subst r2; simpl; congruence.
    + rewrite Hp, Eu in H2. simpl in H2. rewrite Eb in H2.
      apply (inj Some) in H2. by subst r2.
  - apply (inj Some) in H; subst r. simpl in *.
    rewrite Hp, Eu in H2. simpl in H2. rewrite Eb in H2.
    apply (inj Some) in H2. by subst r2.
Qed.

Lemma row_ext (a b : UserSubscription) :
  user_id a = user_id b → plan_id a = plan_id b → start_date a = start_date b →
  end_date a = end_date b → status a = status b →
  stripe_subscription_id a = stripe_subscription_id b → a = b.
Proof. destruct a, b. simpl. by intros -> -> -> -> -> ->. Qed.

Lemma sync_status_status sd us r :
  sync_status sd us = Some r →
  ∃ str, sub_status sd = Some str
         ∧ status r.1 = match from_stripe_status str with
                        | Some new => if bool_decide (status us = CANCELLED)
                                      then CANCELLED else new
                        | None => status us
                        end.
Proof.
  unfold sync_status. intros H.
  destruct (sub_status sd) as [str|]; simpl in H; [|done].
  exists str. split; [done|].
  destruct (from_stripe_status str) as [new|]; [|by simplify_eq].
  destruct (bool_decide (status us ≠ new)) eqn:E1.
  - destruct (bool_decide (status us = CANCELLED ∧ new ≠ CANCELLED)) eqn:E2;
      apply (inj Some) in H; subst r; simpl.
    + apply bool_decide_eq_true in E2 as [-> _]. done.
    + apply bool_decide_eq_false in E2. apply bool_decide_eq_true in E1.
      case_bool_decide as Hc; [|done]. destruct (decide (new = CANCELLED)); naive_solver.
  - apply (inj Some) in H; subst r; simpl. apply bool_decide_eq_false in E1.
    destruct (decide (status us = new)) as [->|]; [|done].
    by case_bool_decide.
Qed.

Lemma sync_trial_status_end sd npe us :
  end_date us = Some npe →
  let r := (sync_trial sd npe us).1 in
  status r = (if bool_decide (status us = TRIALING)
              then match truthy_ts (trial_end sd) with
                   | Some _ => TRIALING
                   | None => ACTIVE
                   end
              else status us)
  ∧ end_date r = (if bool_decide (status us = TRIALING)
                  then Some (default npe (truthy_ts (trial_end sd)))
                  else Some npe).
Proof.
  intros He. unfold sync_trial. case_bool_decide as Hs; [|done].
  destruct (truthy_ts (trial_end sd)) as [t|]; [|done].
  case_bool_decide as Ht; simpl; [done|]. split; [done|].
  by destruct (decide (end_date us = Some t)).
Qed.

Lemma update_row_again sd plans_ us r2 r3 r2' r3' :
  let npe := current_period_end sd in
  let step1 x :=
    if bool_decide (end_date x ≠ Some npe)
    then (set_end_date (Some npe) x, true) else (x, false) in
  sync_plan sd plans_ (step1 us).1 = Some r2 →
  sync_status sd r2.1 = Some r3 →
  let us1 := (sync_trial sd npe r3.1).1 in
  sync_plan sd plans_ (step1 us1).1 = Some r2' →
  sync_status sd r2'.1 = Some r3' →
  (sync_trial sd npe r3'.1).1 = us1.
Proof.
  intros npe step1 E2 E3 us1 E2' E3'.
  assert (∀ x, (step1 x).1 = set_end_date (Some npe) x) as Hstep1.
  { intros [u p st e s i]. unfold step1. case_bool_decide as He; [done|].
    simpl. unfold set_end_date. simpl. f_equal.
    by destruct (decide (e = Some npe)). }
  rewrite Hstep1 in E2, E2'.
  destruct (sync_plan_keeps _ _ _ _ E2) as (Hu2 & Hs2 & Hi2 & Hst2 & He2).
  destruct (sync_plan_keeps _ _ _ _ E2') as (Hu2' & Hs2' & Hi2' & Hst2' & He2').
  destruct (sync_status_keeps _ _ _ E3) as (Hu3 & Hs3 & Hi3 & Hp3 & He3).
  destruct (sync_status_keeps _ _ _ E3') as (Hu3' & Hs3' & Hi3' & Hp3' & He3').
  destruct (sync_trial_keeps sd npe r3.1) as (Hu4 & Hs4 & Hi4 & Hp4).
  destruct (sync_trial_keeps sd npe r3'.1) as (Hu4' & Hs4' & Hi4' & Hp4').
  fold us1 in Hu4, Hs4, Hi4, Hp4.
  simpl in Hu2, Hs2, Hi2, Hst2, He2, Hu2', Hs2', Hi2', Hst2', He2'.
  assert (plan_id r2'.1 = plan_id r2.1) as Hp.
  { apply (λ H, sync_plan_again _ _ _ _ _ _ E2 H E2'). simpl. congruence. }
  destruct (sync_status_status _ _ _ E3) as (str & Hstr & Hst3).
  destruct (sync_status_status _ _ _ E3') as (str' & Hstr' & Hst3').
  assert (str' = str) as -> by congruence.
  destruct (sync_trial_status_end sd npe r3.1 ltac:(congruence)) as [Hst4 He4].
  destruct (sync_trial_status_end sd npe r3'.1 ltac:(congruence)) as [Hst4' He4'].
  fold us1 in Hst4, He4.
  apply row_ext; try congruence.
  - rewrite He4', He4, Hst3', Hst3, Hst2', Hst2, Hst4, Hst3, Hst2.
    destruct (status us), (from_stripe_status str) as [[]|],
      (truthy_ts (trial_end sd)); reflexivity.
  - rewrite Hst4', Hst4, Hst3', Hst3, Hst2', Hst2, Hst4, Hst3, Hst2.
    destruct (status us), (from_stripe_status str) as [[]|],
      (truthy_ts (trial_end sd)); reflexivity.
Qed.

Lemma handle_update_replay env subscription_data db :
  (handle_update env subscription_data (handle_update env subscription_data db).2).2
  = (handle_update env subscription_data db).2.
Proof.
  set (npe := current_period_end subscription_data).
  assert ((handle_update env subscription_data db).2 = db
          ∨ ∃ pos us r2 r3,
              find_subscription (sub_id subscription_data) (subscriptions db)
              = Some (pos, us)
              ∧ sync_plan subscription_data (plans db)
                  (if bool_decide (end_date us ≠ Some npe)
                   then (set_end_date (Some npe) us, true) else (us, false)).1
                = Some r2
              ∧ sync_status subscription_data r2.1 = Some r3
              ∧ (handle_update env subscription_data db).2
                = store_subscription pos (sync_trial subscription_data npe r3.1).1 db)
    as [H|H].
  { unfold handle_update.
    destruct (find_subscription _ _) as [[pos us]|] eqn:Ef; [|by left].
    destruct (sync_plan _ _ _) as [r2|] eqn:E2; [|by left].
    destruct (sync_status _ _) as [r3|] eqn:E3; [|by left].
    match goal with |- context [commit_if ?c ?e ?f ?d' ?d] =>
      destruct (commit_if_cases c e f d' d) as [->| ->] end; [by left|].
    right. by exists pos, us, r2, r3. }
  - by apply (replay_unchanged (handle_update env subscription_data)).
  - destruct H as (pos & us & r2 & r3 & Ef & E2 & E3 & ->). subst npe.
    assert (stripe_subscription_id
              (sync_trial subscription_data (current_period_end subscription_data)
                 r3.1).1
            = stripe_subscription_id us) as Hsid.
    { destruct (sync_trial_keeps subscription_data
                  (current_period_end subscription_data) r3.1) as (_ & _ & H4 & _).
      destruct (sync_status_keeps _ _ _ E3) as (_ & _ & H3 & _).
      destruct (sync_plan_keeps _ _ _ _ E2) as (_ & _ & H2 & _).
      rewrite H4, H3, H2. by destruct (bool_decide _). }
    unfold handle_update at 1.
    rewrite (find_subscription_store _ db pos us _ Ef Hsid).
    change (plans (store_subscription pos ?r db)) with (plans db).
    match goal with |- context [sync_plan ?a ?b ?c] =>
      destruct (sync_plan a b c) as [r2'|] eqn:E2' end; [|done].
    destruct (sync_status subscription_data r2'.1) as [r3'|] eqn:E3'; [|done].
    pose proof (update_row_again subscription_data (plans db) us r2 r3 r2' r3'
                  E2 E3 E2' E3') as Hfix.
    cbv zeta in Hfix. rewrite Hfix. apply commit_if_stored.
Qed.

Lemma find_user_set_customer customer pk db pos user :
  list_find (λ u, user_pk u = pk) (users db) = Some (pos, user) →
  list_find (λ u, user_pk u = pk) (users (set_customer customer pk db))
  = Some (pos, {| user_pk := pk; user_stripe_customer_id := Some customer |}).
Proof.
  intros (Hl & HP & Hfirst)%list_find_Some. apply list_find_Some. simpl. split_and!.
  - rewrite list_lookup_fmap, Hl. simpl. by rewrite decide_True.
  - done.
  - intros j y Hj Hlt. rewrite list_lookup_fmap in Hj.
    destruct (users db !! j) as [u|] eqn:Eu; [|done]. simpl in Hj.
    specialize (Hfirst j u Eu Hlt). rewrite decide_False in Hj by done.
    by simplify_eq.
Qed.

Lemma truthy_str_Some o s : truthy_str o = Some s → o = Some s ∧ truthy_str (Some s) = Some s.
Proof.
  unfold truthy_str. destruct o as [s'|]; [|done].
  destruct (String.eqb s' "") eqn:E; [done|]. intros [= ->]. by rewrite E.
Qed.

Lemma handle_checkout_replay env session db :
  (handle_checkout env session (handle_checkout env session db).2).2
  = (handle_checkout env session db).2.
Proof.
  assert ((handle_checkout env session db).2 = db
          ∨ ∃ uid sid cust pos user found,
              client_reference_id session = Some uid
              ∧ truthy_str (session_subscription session) = Some sid
              ∧ truthy_str (session_customer session) = Some cust
              ∧ list_find (λ u, user_pk u = uid) (users db) = Some (pos, user)
              ∧ find_subscription sid (subscriptions db) = Some found
              ∧ (handle_checkout env session db).2 = set_customer cust uid db)
    as [H|H].
  { unfold handle_checkout.
    destruct (client_reference_id session) as [uid|]; [|by left].
    destruct (truthy_str (session_subscription session)) as [sid|]; [|by left].
    destruct (truthy_str (session_customer session)) as [cust|]; [|by left].
    destruct (list_find _ (users db)) as [[pos user]|] eqn:Eu; [|by left].
    set (modified := bool_decide _).
    destruct (find_subscription sid _) as [found|] eqn:Ef.
    - destruct modified eqn:Em; [|by left].
      destruct (commit_ok env); [|by left].
      right. by exists uid, sid, cust, pos, user, found.
    - left. destruct (session_line_items env) as [|[|price ?]]; [done..|].
      destruct (list_find _ (plans _)) as [[? plan]|]; [|done].
      destruct (subscription_retrieve env); [|done].
      by rewrite checkout_constructor_raises. }
  - by apply (replay_unchanged (handle_checkout env session)).
  - destruct H as (uid & sid & cust & pos & user & found & Eu & Es & Ec & El & Ef & ->).
    unfold handle_checkout at 1. rewrite Eu, Es, Ec.
    rewrite (find_user_set_customer cust uid db pos user El).
    cbn [user_stripe_customer_id].
    destruct (truthy_str_Some _ _ Ec) as [_ ->].
    rewrite (bool_decide_eq_false_2 (Some cust = None ∨ Some cust ≠ Some cust))
      by (intros [?|?]; done).
    rewrite subscriptions_set_customer, Ef. done.
Qed.

(** Processing the same delivery again, with Stripe and the database
    answering as they did the first time, leaves the database as the first
    processing left it. *)
Lemma stripe_webhook_replay env d db :
  (stripe_webhook env d (stripe_webhook env d db).2).2 = (stripe_webhook env d db).2.
Proof.
  destruct d as [| | |[session|invoice|sd|sd|invoice|ty]]; try done; simpl.
  - apply handle_checkout_replay.
  - apply handle_payment_succeeded_replay.
  - apply handle_cancellation_replay.
  - destruct (cancel_at_period_end sd) as [[|]|];
      first [apply handle_cancellation_replay | apply handle_update_replay].
  - apply handle_payment_failed_replay.
Qed.

(** X12.  Redelivery is harmless: the same delivery processed any number
    of times in a row, under the same answers of Stripe and of the database,
    leaves the database the first processing left. *)
Theorem replays_change_nothing_more env d db n :
  replay (replicate (S n) env) d db = (stripe_webhook env d db).2.
Proof.
  revert db. induction n as [|n IH]; intros db; [done|].
  change (replay (replicate (S (S n)) env) d db)
    with (replay (replicate (S n) env) d (stripe_webhook env d db).2).
  rewrite IH. apply stripe_webhook_replay.
Qed.

(** *** Cancelled subscriptions and the other events *)

Lemma handle_payment_succeeded_cancelled env invoice db pos s :
  subscriptions db !! pos = Some s → status s = CANCELLED →
  ∃ s', subscriptions (handle_payment_succeeded env invoice db).2 !! pos = Some s'
        ∧ stays_cancelled s s'.
Proof.
  intros Hpos Hc. unfold handle_payment_succeeded.
  destruct (truthy_str _) as [sid|]; [|by exists s].
  destruct (find_subscription _ _) as [[pos' us]|] eqn:Ef; [|by exists s].
  apply find_subscription_lookup in Ef.
  destruct (subscription_retrieve env) as [sd|]; [|by exists s].
  match goal with |- context [commit_if ?c ?e ?f ?d' ?d] =>
    destruct (commit_if_cases c e f d' d) as [->| ->] end; [by exists s|].
  simpl. destruct (decide (pos' = pos)) as [->|Hne].
  - assert (us = s) as -> by congruence.
    rewrite list_lookup_insert_eq by (by eapply lookup_lt_Some).
    eexists. split; [done|].
    rewrite (bool_decide_eq_false_2 (status s = TRIALING ∧ _)) by (rewrite Hc; intros [? _]; done).
    cbn [fst snd]. rewrite (bool_decide_eq_false_2 (status s = PAST_DUE)) by (by rewrite Hc).
    cbn [fst snd]. by destruct (bool_decide _).
  - exists s. split; [|done]. by rewrite list_lookup_insert_ne.
Qed.

(** X13.  Every event but [invoice.payment_failed] leaves a cancelled
    subscription cancelled; [invoice.payment_failed] sets the subscription of
    its invoice to PAST_DUE whatever its status was. *)
Theorem cancelled_until_a_payment_fails :
  (∀ env d db pos s,
     subscriptions db !! pos = Some s → status s = CANCELLED →
     (∀ invoice, d ≠ Event (invoice_payment_failed invoice)) →
     ∃ s', subscriptions (stripe_webhook env d db).2 !! pos = Some s'
           ∧ status s' = CANCELLED)
  ∧ (∀ env invoice db sid pos s,
       truthy_str (invoice_subscription invoice) = Some sid →
       find_subscription sid (subscriptions db) = Some (pos, s) →
       commit_result env = Committed →
       subscriptions (stripe_webhook env (Event (invoice_payment_failed invoice)) db).2
         !! pos = Some (set_status PAST_DUE s)).
Proof.
  split.
  - intros env d db pos s Hpos Hc Hd.
    assert (∀ db', (∃ s', subscriptions db' !! pos = Some s' ∧ stays_cancelled s s') →
                   ∃ s', subscriptions db' !! pos = Some s' ∧ status s' = CANCELLED)
      as Hweak by (intros db' (s' & ? & ? & _); by exists s').
    destruct d as [| | |[session|invoice|sd|sd|invoice|ty]];
      try (by exists s); simpl.
    + rewrite checkout_keeps_subscriptions. by exists s.
    + by apply Hweak, handle_payment_succeeded_cancelled.
    + by apply Hweak, handle_cancellation_cancelled.
    + destruct (cancel_at_period_end sd) as [[|]|]; apply Hweak;
        by first [apply handle_cancellation_cancelled | apply handle_update_cancelled].
    + by destruct (Hd invoice).
  - intros env invoice db sid pos s Es Ef Hc. simpl. unfold handle_payment_failed.
    rewrite Es, Ef. unfold commit_if, commit_ok. rewrite Hc.
    pose proof (find_subscription_lookup _ _ _ _ Ef) as Hl.
    case_bool_decide as Hst; simpl.
    + apply list_lookup_insert_eq. by eapply lookup_lt_Some.
    + rewrite Hl. f_equal. destruct s as [u p st e s i]. simpl in *.
      assert (s = PAST_DUE) as -> by (by destruct (decide (s = PAST_DUE))).
      reflexivity.
Qed.

Lemma cancelled_until_a_payment_fails_on_samples :
  (∃ s', subscriptions
           (stripe_webhook Samples.cooperative
              (Event (invoice_payment_succeeded MoreSamples.unpaid_invoice))
              Samples.cancelled_db).2 !! 0%nat = Some s'
         ∧ status s' = CANCELLED)
  ∧ subscriptions
      (stripe_webhook Samples.cooperative (Event (invoice_payment_failed MoreSamples.unpaid_invoice))
         Samples.cancelled_db).2 !! 0%nat
    = Some (set_status PAST_DUE Samples.cancelled_row).
Proof.
  split.
  - apply (proj1 cancelled_until_a_payment_fails Samples.cooperative
             (Event (invoice_payment_succeeded MoreSamples.unpaid_invoice)) Samples.cancelled_db
             0%nat Samples.cancelled_row); [reflexivity|reflexivity|].
    intros invoice. discriminate.
  - apply (proj2 cancelled_until_a_payment_fails Samples.cooperative
             MoreSamples.unpaid_invoice Samples.cancelled_db "sub_123" 0%nat Samples.cancelled_row);
      reflexivity.
Defined.

End BillingReplay.

(** ** Answers of the webhook *)

Module BillingAnswers.
Import PyStr Billing BillingRows BillingFacts.

Lemma commit_if_refused changed env failure db' db :
  refused (commit_if changed env failure db' db).1 →
  (commit_if changed env failure db' db).2 = db.
Proof.
  unfold commit_if, refused. destruct changed; [|done].
  destruct (commit_ok env); [|done]. intros H. by destruct (H "Success").
Qed.

(** X14.  A delivery that is not answered with status 200 leaves the database
    as it was: what the provider sends again finds the state it found the
    first time. *)
Theorem refused_delivery_changes_nothing env d db :
  refused (stripe_webhook env d db).1 → (stripe_webhook env d db).2 = db.
Proof.
  destruct d as [| | |[session|invoice|sd|sd|invoice|ty]]; try done;
    cbn [stripe_webhook].
  - unfold handle_checkout.
    destruct (client_reference_id session) as [uid|]; [|done].
    destruct (truthy_str (session_subscription session)) as [sid|]; [|done].
    destruct (truthy_str (session_customer session)) as [cust|]; [|done].
    destruct (list_find _ (users db)) as [[? user]|]; [|done].
    set (modified := bool_decide _).
    destruct (find_subscription sid _) as [?|].
    + intros H. by destruct (H "Acknowledged: Subscription already processed").
    + destruct (session_line_items env) as [|[|price ?]]; [done..|].
      destruct (list_find _ (plans _)) as [[? plan]|]; [|done].
      destruct (subscription_retrieve env); [|done].
      by rewrite checkout_constructor_raises.
  - unfold handle_payment_succeeded.
    destruct (truthy_str _) as [sid|]; [|done].
    destruct (find_subscription _ _) as [[pos us]|]; [|done].
    destruct (subscription_retrieve env); [|done].
    apply commit_if_refused.
  - unfold handle_cancellation.
    destruct (find_subscription _ _) as [[pos us]|]; [|done].
    destruct (bool_decide _); [done|]. apply commit_if_refused.
  - destruct (cancel_at_period_end sd) as [[|]|].
    + unfold handle_cancellation.
      destruct (find_subscription _ _) as [[pos us]|]; [|done].
      destruct (bool_decide _); [done|]. apply commit_if_refused.
    + unfold handle_update.
      destruct (find_subscription _ _) as [[pos us]|]; [|done].
      destruct (sync_plan _ _ _) as [step2|]; [|done].
      destruct (sync_status _ _) as [step3|]; [|done].
      apply commit_if_refused.
    + unfold handle_update.
      destruct (find_subscription _ _) as [[pos us]|]; [|done].
      destruct (sync_plan _ _ _) as [step2|]; [|done].
      destruct (sync_status _ _) as [step3|]; [|done].
      apply commit_if_refused.
  - unfold handle_payment_failed.
    destruct (truthy_str _) as [sid|]; [|done].
    destruct (find_subscription _ _) as [[pos us]|]; [|done].
    apply commit_if_refused.
Qed.

Lemma refused_cancellation_changes_nothing :
  refused
    (stripe_webhook MoreSamples.refusing
       (Event (customer_subscription_deleted (Samples.stripe_sub "canceled")))
       MoreSamples.active_db).1
  ∧ (stripe_webhook MoreSamples.refusing
       (Event (customer_subscription_deleted (Samples.stripe_sub "canceled")))
       MoreSamples.active_db).2 = MoreSamples.active_db.
Proof.
  assert (refused
    (stripe_webhook MoreSamples.refusing
       (Event (customer_subscription_deleted (Samples.stripe_sub "canceled")))
       MoreSamples.active_db).1) as H by (vm_compute; intros body; discriminate).
  split; [exact H|].
  exact (refused_delivery_changes_nothing _ _ _ H).
Defined.

End BillingAnswers.

(** ** Signs of binary64 numbers *)

Module FloatSignFacts.
Import FloatSign.

Lemma Prim2SF_zero : Prim2SF 0 = S754_zero false.
Proof. reflexivity. Qed.

Lemma eqb_zero (x : float) : PrimFloat.eqb x 0 = true ↔ is_zero (Prim2SF x).
Proof.
  rewrite FloatAxioms.eqb_spec, Prim2SF_zero. unfold SFeqb.
  destruct (Prim2SF x) as [s|[]| |[] m e]; simpl; split; done.
Qed.

Lemma ltb_zero_positive (x : float) :
  PrimFloat.ltb 0 x = true →
  PrimFloat.eqb x 0 = false ∧ PrimFloat.leb x 0 = false.
Proof.
  rewrite FloatAxioms.ltb_spec, FloatAxioms.eqb_spec, FloatAxioms.leb_spec, Prim2SF_zero.
  unfold SFltb, SFeqb, SFleb.
  by destruct (Prim2SF x) as [s|[]| |[] m e].
Qed.

Lemma round_sign prec emax s m e l :
  match binary_round_aux prec emax s m e l with
  | S754_infinity s' | S754_finite s' _ _ => s' = s
  | _ => True
  end.
Proof.
  unfold binary_round_aux.
  destruct (shr_fexp prec emax m e l) as [mrs' e'].
  destruct (shr_fexp prec emax _ e' loc_Exact) as [mrs'' e''].
  destruct (shr_m mrs''); [done| |done]. by destruct (e'' <=? emax - prec).
Qed.

(** A product with a zero is a zero or not a number. *)
Lemma mul_zero_right (x y : float) :
  PrimFloat.eqb y 0 = true → PrimFloat.ltb 0 (x * y) = false.
Proof.
  intros Hy%eqb_zero.
  rewrite FloatAxioms.ltb_spec, FloatAxioms.mul_spec, Prim2SF_zero.
  unfold SF64mul, SFmul, SFltb.
  destruct (Prim2SF y) as [sy| | |]; try done.
  by destruct (Prim2SF x) as [sx|sx| |sx mx ex].
Qed.

Lemma mul_not_negative (x y : float) :
  not_negative (Prim2SF x) → not_negative (Prim2SF y) →
  not_negative (Prim2SF (x * y)).
Proof.
  rewrite FloatAxioms.mul_spec. unfold SF64mul, SFmul.
  destruct (Prim2SF x) as [sx|sx| |sx mx ex], (Prim2SF y) as [sy|sy| |sy my ey];
    simpl; try done; try (by intros -> ->).
  intros -> ->. simpl.
  pose proof (round_sign prec emax false (Z.pos (mx * my)) (ex + ey) loc_Exact) as H.
  by destruct (binary_round_aux _ _ _ _ _ _).
Qed.

Lemma abs_not_negative (x : float) : not_negative (Prim2SF (abs x)).
Proof. rewrite FloatAxioms.abs_spec. by destruct (Prim2SF x). Qed.

Lemma opp_not_positive (x : float) :
  not_negative (Prim2SF x) → not_positive (Prim2SF (- x)).
Proof. rewrite FloatAxioms.opp_spec. destruct (Prim2SF x); simpl; try done; by intros ->. Qed.

(** Above something that is not negative is above zero. *)
Lemma ltb_above (y x : float) :
  not_negative (Prim2SF y) → PrimFloat.ltb y x = true → PrimFloat.ltb 0 x = true.
Proof.
  rewrite !FloatAxioms.ltb_spec, Prim2SF_zero. unfold SFltb.
  destruct (Prim2SF y) as [sy|sy| |sy my ey], (Prim2SF x) as [sx|sx| |sx mx ex];
    simpl; try done; try (intros ->); try (by destruct sx); try (by destruct sy).
Qed.

Lemma ltb_below (y x : float) :
  not_positive (Prim2SF y) → PrimFloat.ltb x y = true → PrimFloat.ltb x 0 = true.
Proof.
  rewrite !FloatAxioms.ltb_spec, Prim2SF_zero. unfold SFltb.
  destruct (Prim2SF y) as [sy|sy| |sy my ey], (Prim2SF x) as [sx|sx| |sx mx ex];
    simpl; try done; try (intros ->); try (by destruct sx); try (by destruct sy).
Qed.

End FloatSignFacts.

(** ** The budget simulator on floats *)

Module BudgetFloatsFacts.
Import PyFloat Budget BudgetFloats FloatSignFacts.

Lemma project_floats current_cpc current_cvr_clicks budget_ :
  PrimFloat.ltb 0 current_cpc = true →
  project (Float current_cpc) (Float current_cvr_clicks) (Float budget_)
  = Some (float_scenario current_cpc current_cvr_clicks budget_).
Proof.
  intros [Hcpc _]%ltb_zero_positive. unfold project, float_scenario, truediv, mul_float.
  cbn [to_float mbind option_bind]. rewrite Hcpc. cbn [mbind option_bind].
  destruct (PrimFloat.ltb 0 (budget_ / current_cpc * current_cvr_clicks)) eqn:E.
  - apply ltb_zero_positive in E as [E _]. rewrite E. reflexivity.
  - reflexivity.
Qed.

Lemma simulator_floats current_cpc current_cvr_clicks budgets :
  acceptable current_cpc current_cvr_clicks budgets →
  budget_simulator_api (float_request current_cpc current_cvr_clicks budgets)
  = Scenarios (float_scenario current_cpc current_cvr_clicks <$> budgets).
Proof.
  intros (Hne & Hpos & Hcpc & Hlo & Hhi).
  destruct budgets as [|b budgets]; [done|].
  unfold budget_simulator_api, float_request.
  cbn [truthy negb get get_or_None String.eqb Ascii.eqb Bool.eqb as_number fmap list_fmap].
  assert (forallb positive_number
            (JNum (Float b) :: ((λ b, JNum (Float b)) <$> budgets)) = true) as ->.
  { apply forallb_forall. intros v Hv. apply list_elem_of_In in Hv.
    change (v ∈ (λ b, JNum (Float b)) <$> (b :: budgets)) in Hv.
    apply list_elem_of_fmap in Hv as (x & -> & Hx).
    rewrite Forall_forall in Hpos. exact (Hpos x Hx). }
  cbn [negb]. unfold le_const, ge_const.
  change (nearest 0 1) with 0%float. change (nearest 1 1) with 1%float.
  rewrite (proj2 (ltb_zero_positive _ Hcpc)), Hlo, Hhi. cbn [andb negb].
  change (omap as_number (JNum (Float b) :: ((λ b, JNum (Float b)) <$> budgets)))
    with (omap as_number ((λ b, JNum (Float b)) <$> (b :: budgets))).
  assert (∀ l : list float,
            omap as_number ((λ b, JNum (Float b)) <$> l) = Float <$> l) as ->.
  { induction l as [|x l IH]; [done|]. csimpl. by rewrite IH. }
  assert (mapM (project (Float current_cpc) (Float current_cvr_clicks))
            (Float <$> (b :: budgets))
          = Some (float_scenario current_cpc current_cvr_clicks <$> (b :: budgets)))
    as ->; [|done].
  apply mapM_Some. apply Forall2_fmap. apply Forall_Forall2_diag.
  apply Forall_forall. intros x _. by apply project_floats.
Qed.

(** X15.  On float inputs that pass its checks the simulator never fails: it
    answers with one scenario per budget, in the order given, and each
    scenario spends its whole budget. *)
Theorem simulator_answers_every_float_request current_cpc current_cvr_clicks budgets :
  acceptable current_cpc current_cvr_clicks budgets →
  ∃ results,
    budget_simulator_api (float_request current_cpc current_cvr_clicks budgets)
    = Scenarios results
    ∧ length results = length budgets
    ∧ ∀ k b, budgets !! k = Some b →
        ∃ s, results !! k = Some s
             ∧ budget s = Float (round_float b 2)
             ∧ projected_spend s = budget s
             ∧ projected_clicks s = Float (round_float (b / current_cpc) 0).
Proof.
  intros H. eexists. split; [by apply simulator_floats|].
  split; [by rewrite length_fmap|].
  intros k b Hk. eexists. split; [by rewrite list_lookup_fmap, Hk|]. done.
Qed.

Lemma simulator_answers_sample_floats :
  acceptable 0.5 0.1 [100; 250]%float
  ∧ ∃ results,
      budget_simulator_api (float_request 0.5 0.1 [100; 250]%float)
      = Scenarios results
      ∧ length results = 2%nat.
Proof.
  assert (acceptable 0.5 0.1 [100; 250]%float) as H.
  { split; [discriminate|]. split; [|by vm_compute].
    repeat constructor. }
  split; [exact H|].
  destruct (simulator_answers_every_float_request _ _ _ H)
    as (results & Hr & Hl & _).
  exists results. split; [exact Hr|exact Hl].
Defined.

(** X16.  With a conversion rate of zero no scenario divides by the projected
    conversions: the cost per acquisition reported is 0. *)
Theorem zero_rate_reports_zero_cpa current_cpc current_cvr_clicks budgets :
  acceptable current_cpc current_cvr_clicks budgets →
  PrimFloat.eqb current_cvr_clicks 0 = true →
  ∃ results,
    budget_simulator_api (float_request current_cpc current_cvr_clicks budgets)
    = Scenarios results
    ∧ length results = length budgets
    ∧ Forall (λ s, projected_cpa s = Int 0) results.
Proof.
  intros H Hz. eexists. split; [by apply simulator_floats|].
  split; [by rewrite length_fmap|].
  apply Forall_fmap, Forall_forall. intros b _. simpl.
  by rewrite mul_zero_right.
Qed.

Lemma zero_rate_on_sample_floats :
  acceptable 0.5 0 [100; 250]%float
  ∧ ∃ results,
      budget_simulator_api (float_request 0.5 0 [100; 250]%float)
      = Scenarios results
      ∧ Forall (λ s, projected_cpa s = Int 0) results.
Proof.
  assert (acceptable 0.5 0 [100; 250]%float) as H.
  { split; [discriminate|]. split; [|by vm_compute].
    repeat constructor. }
  split; [exact H|].
  destruct (zero_rate_reports_zero_cpa _ _ _ H eq_refl)
    as (results & Hr & _ & Hall).
  exists results. split; [exact Hr|exact Hall].
Defined.

End BudgetFloatsFacts.

(** ** Trends *)

Module TrendFacts.
Import Trend FloatSign FloatSignFacts.

Lemma threshold_not_negative (avg_value : float) :
  not_negative (Prim2SF (abs avg_value * 0.02)).
Proof. apply mul_not_negative; [apply abs_not_negative|done]. Qed.

(** X17.  The direction reported agrees with the sign of the fitted slope:
    upward only for a slope above zero, downward only for a slope below zero;
    with fewer than three values nothing is fitted. *)
Theorem trend_follows_the_slope np_polyfit np_mean np_round
    (daily_metric_values_list : list float) :
  let report := analyze_data_trend np_polyfit np_mean np_round daily_metric_values_list in
  let fitted := (np_polyfit daily_metric_values_list).1 in
  ((length daily_metric_values_list < 3)%nat ↔ trend_direction report = insufficient_data)
  ∧ ((length daily_metric_values_list < 3)%nat →
     slope report = PyFloat.Int 0 ∧ intercept report = PyFloat.Int 0)
  ∧ (trend_direction report = upward → PrimFloat.ltb 0 fitted = true)
  ∧ (trend_direction report = downward → PrimFloat.ltb fitted 0 = true).
Proof.
  cbv zeta. unfold analyze_data_trend.
  destruct (length daily_metric_values_list <? 3)%nat eqn:El.
  { apply Nat.ltb_lt in El. by split_and!. }
  apply Nat.ltb_ge in El.
  destruct (np_polyfit daily_metric_values_list) as [slope_ intercept_]. cbn [fst].
  set (avg_value := np_mean daily_metric_values_list).
  pose proof (threshold_not_negative avg_value) as Hth.
  assert (∀ d, d ≠ insufficient_data →
               ((length daily_metric_values_list < 3)%nat ↔ d = insufficient_data))
    as Hno by (intros d Hd; split; [lia|done]).
  destruct (PrimFloat.ltb 1e-6 (abs avg_value)).
  - destruct (PrimFloat.ltb (abs avg_value * 0.02) slope_) eqn:Eup;
      [|destruct (PrimFloat.ltb slope_ (- (abs avg_value * 0.02))) eqn:Edown];
      cbn [trend_direction]; (split; [by apply Hno|]); (split; [lia|]);
      split; try done; intros _.
    + by eapply ltb_above.
    + eapply ltb_below; [|exact Edown]. by apply opp_not_positive.
  - destruct (PrimFloat.ltb 1e-6 slope_) eqn:Eup;
      [|destruct (PrimFloat.ltb slope_ (-1e-6)) eqn:Edown];
      cbn [trend_direction]; (split; [by apply Hno|]); (split; [lia|]);
      split; try done; intros _.
    + by eapply (ltb_above 1e-6).
    + by eapply (ltb_below (-1e-6)).
Qed.

End TrendFacts.

(** ** The spend-anomaly endpoint *)

Module SpendAnomaliesFacts.
Import SpendAnomalies.

(** What every verdict of the detector carries. *)
Lemma verdict_fields np_round l recent nm pf check_date a :
  Anomaly.analyze_campaign_spend_for_anomalies np_round l recent nm pf check_date = Some a →
  (7 ≤ length l)%nat
  ∧ Anomaly.campaign_name a = nm ∧ Anomaly.platform a = pf
  ∧ Anomaly.anomaly_date a = check_date ∧ Anomaly.value a = recent.
Proof.
  unfold Anomaly.analyze_campaign_spend_for_anomalies.
  destruct (length l <? 7)%nat eqn:El; [done|]. apply Nat.ltb_ge in El.
  cbv zeta.
  match goal with |- context [match ?found with Some _ => _ | None => _ end] =>
    destruct found as [[dir msg]|] end; [|done].
  intros [= <-]. by split_and!.
Qed.

Lemma rows_of_snoc key rows row :
  rows_of key (rows ++ [row])
  = rows_of key rows ++ (if decide (key_of row = key) then [row] else []).
Proof. unfold rows_of. by rewrite filter_app. Qed.

Lemma add_row_keys row d :
  (add_row row d).*1 = if decide (key_of row ∈ d.*1) then d.*1 else d.*1 ++ [key_of row].
Proof.
  induction d as [|[key info] d IH].
  - cbn [add_row fmap list_fmap fst app]. destruct (decide _) as [Hin|]; [|done].
    by apply elem_of_nil in Hin.
  - cbn [add_row]. destruct (decide (key = key_of row)) as [->|Hne].
    + cbn [fmap list_fmap fst]. rewrite decide_True; [done|]. left.
    + cbn [fmap list_fmap fst] in *. rewrite IH.
      destruct (decide (key_of row ∈ d.*1)) as [Hin|Hnin].
      * rewrite decide_True; [done|]. by right.
      * rewrite decide_False; [done|]. intros [?|?]%elem_of_cons; congruence.
Qed.

Lemma elem_of_add_row row d key info :
  NoDup d.*1 → (key, info) ∈ add_row row d →
  ((key ≠ key_of row) ∧ (key, info) ∈ d)
  ∨ (key = key_of row
     ∧ ((∃ info0, (key, info0) ∈ d ∧ platform info = platform info0
                  ∧ metrics info = metrics info0 ++ [metric_of row])
        ∨ ((key ∉ d.*1) ∧ platform info = platform_value row
           ∧ metrics info = [metric_of row]))).
Proof.
  induction d as [|[key0 info0] d IH]; cbn [add_row fmap list_fmap fst].
  - intros _ [= -> ->]%list_elem_of_singleton. right. split; [done|]. right.
    split; [by intros ?%elem_of_nil|done].
  - intros [Hk0 Hnd]%NoDup_cons.
    destruct (decide (key0 = key_of row)) as [->|Hne].
    + intros [[= -> ->]|Hin]%elem_of_cons.
      * right. split; [done|]. left. exists info0. split; [left|done].
      * left. split; [|by right]. intros ->. apply Hk0.
        apply list_elem_of_fmap. by exists (key_of row, info).
    + intros [[= -> ->]|Hin]%elem_of_cons.
      * left. split; [done|left].
      * destruct (IH Hnd Hin) as [[? ?]|[-> [(info1 & ? & ? & ?)|(? & ? & ?)]]].
        -- left. split; [done|by right].
        -- right. split; [done|]. left. exists info1. split; [by right|done].
        -- right. split; [done|]. right. split; [|done].
           intros [?|?]%elem_of_cons; congruence.
Qed.

Lemma add_row_grouped row d rows :
  grouped d rows → grouped (add_row row d) (rows ++ [row]).
Proof.
  intros (Hnd & Hin & Hout). split_and!.
  - rewrite add_row_keys. destruct (decide _) as [|Hnin]; [done|].
    apply NoDup_app. split_and!; [done| |apply NoDup_singleton].
    intros k Hk ->%list_elem_of_singleton. done.
  - intros key info Hadd. rewrite rows_of_snoc.
    destruct (elem_of_add_row _ _ _ _ Hnd Hadd)
      as [[Hne Hd]|[-> [(info0 & Hd & Hp & Hm)|(Hd & Hp & Hm)]]].
    + rewrite decide_False, app_nil_r by done. by apply Hin.
    + destruct (Hin _ _ Hd) as [Hm0 Hp0].
      rewrite decide_True, fmap_app by done. by rewrite Hm, Hm0, Hp, Hp0.
    + rewrite decide_True, Hout by done. by rewrite Hm, Hp.
  - intros key Hk. rewrite add_row_keys in Hk. rewrite rows_of_snoc.
    destruct (decide (key_of row ∈ d.*1)) as [Hrow|Hrow].
    + rewrite Hout by done. rewrite decide_False; [done|]. by intros <-.
    + rewrite Hout by (intros ?; apply Hk, elem_of_app; by left).
      rewrite decide_False; [done|]. intros <-. apply Hk, elem_of_app. right. left.
Qed.

Lemma group_grouped rows : grouped (group rows) rows.
Proof.
  unfold group. induction rows as [|row rows IH] using rev_ind.
  - split_and!; [apply NoDup_nil_2|by intros ?? ?%elem_of_nil|done].
  - rewrite foldl_app. by apply add_row_grouped.
Qed.

Lemma most_recent_row end_date key rows m :
  most_recent end_date (metric_of <$> rows_of key rows) = Some m →
  ∃ row, row ∈ rows_of key rows ∧ date row = end_date ∧ spend row = metric_spend m.
Proof.
  unfold most_recent. intros Hl. apply last_Some in Hl as [l' Hl].
  assert (m ∈ filter (λ m, metric_date m = end_date) (metric_of <$> rows_of key rows))
    as [Hd (row & -> & Hrow)%list_elem_of_fmap]%list_elem_of_filter.
  { rewrite Hl. apply elem_of_app. right. left. }
  by exists row.
Qed.

Lemma baseline_rows end_date rows :
  length (baseline end_date (metric_of <$> rows))
  = length (filter (λ row, date row < end_date) rows).
Proof.
  unfold baseline. rewrite length_fmap.
  induction rows as [|row rows IH]; [done|]. cbn [fmap list_fmap].
  rewrite !filter_cons. cbn [metric_of metric_date].
  destruct (decide (date row < end_date)); cbn [length]; by rewrite IH.
Qed.

(** X18.  Every anomaly the endpoint reports is dated yesterday, and belongs
    to a campaign and platform that has a row for yesterday, whose spend is
    the value reported, and at least seven rows of earlier days. *)
Theorem anomalies_are_yesterdays np_round today campaigns_data a :
  a ∈ get_spend_anomalies np_round today campaigns_data →
  Anomaly.anomaly_date a = today - 1
  ∧ ∃ key, Anomaly.platform a = key.2
      ∧ (7 ≤ length (filter (λ row, (date row < today - 1)%Z)
                            (rows_of key campaigns_data)))%nat
      ∧ ∃ row, row ∈ rows_of key campaigns_data
          ∧ date row = today - 1 ∧ spend row = Anomaly.value a.
Proof.
  unfold get_spend_anomalies. cbv zeta.
  intros ([key info] & Hentry & Ha)%list_elem_of_omap. cbn [snd] in Ha.
  destruct (group_grouped campaigns_data) as (_ & Hin & _).
  destruct (Hin _ _ Hentry) as [Hm Hp].
  destruct (most_recent _ _) as [m|] eqn:Em; [|done]. cbn in Ha.
  apply verdict_fields in Ha as (Hlen & _ & Hpf & Hdate & Hval).
  split; [done|]. exists key. rewrite Hpf, Hp. split; [done|].
  rewrite Hm in Hlen, Em. rewrite baseline_rows in Hlen. split; [done|].
  rewrite Hval. by eapply most_recent_row.
Qed.

Lemma sample_anomaly_is_yesterdays :
  ∃ a, a ∈ get_spend_anomalies MoreSamples.no_rounding Samples.nov_3 MoreSamples.spend_rows
       ∧ Anomaly.anomaly_date a = Samples.nov_3 - 1.
Proof.
  assert (∃ a, a ∈ get_spend_anomalies MoreSamples.no_rounding Samples.nov_3
                     MoreSamples.spend_rows) as [a Ha].
  { vm_compute. eexists. left. }
  exists a. split; [exact Ha|].
  exact (proj1 (anomalies_are_yesterdays _ _ _ _ Ha)).
Defined.

End SpendAnomaliesFacts.
